(** * Request plane of the model gateway: embedding and verified properties

    The TypeScript services of [src/lib] (model catalog, router, custom
    endpoints, response cache, batch processor, webhooks, analytics) and the
    chat handler that drives them are embedded as Rocq functions.  Singletons
    become explicit state records, [Map]s become [gmap]s, thrown errors become
    an [outcome], and the two sources of non-determinism of the code
    ([Math.random] and the wall clock) become explicit inputs.  A lookup in
    an object literal finds the members of [Object.prototype] as well as the
    literal's own keys, and where a handler passes a request body on as it
    was received the stored configuration is the object the spread builds
    from it ([JsObject]).

    JavaScript numbers are modelled by rationals ([Q]) where the code uses
    fractional values (prices, sampling knobs) and by integers ([Z]) where
    it uses millisecond time stamps and counters. *)

Set Warnings "-register-all".
From Stdlib Require Import QArith Qround Sorted.
From stdpp Require Import gmap strings list fin_maps.

Open Scope string_scope.
Open Scope list_scope.

(** ** Thrown errors *)

Record Error := mkError { error_name : string; error_message : string }.

Inductive outcome (A : Type) : Type :=
| Ok (a : A)
| Throw (e : Error).
Arguments Ok {A} a.
Arguments Throw {A} e.

Definition TypeError (msg : string) : Error := mkError "TypeError" msg.
Definition PlainError (msg : string) : Error := mkError "Error" msg.

(** A JavaScript number that may be [NaN]. *)
Inductive JsNumber :=
| Num (q : Q)
| NaN.

(** [x + y] *)
Definition number_add (x y : JsNumber) : JsNumber :=
  match x, y with
  | Num a, Num b => Num (a + b)
  | _, _ => NaN
  end.

(** [x < y] on JavaScript numbers. *)
Definition num_lt (x y : Q) : bool := negb (Qle_bool y x).
Definition num_le (x y : Q) : bool := Qle_bool x y.

(** [Array.prototype.sort] is stable: an element is placed after the
    elements that do not compare greater than it.  [lt x y] says that
    the comparator is negative on [(x, y)]. *)
Fixpoint insert_sorted {A : Type} (lt : A -> A -> bool) (x : A) (l : list A) : list A :=
  match l with
  | [] => [x]
  | y :: rest => if lt y x then y :: insert_sorted lt x rest else x :: y :: rest
  end.

Definition stable_sort {A : Type} (lt : A -> A -> bool) (l : list A) : list A :=
  fold_right (insert_sorted lt) [] l.

(** [l.filter(p)] for a callback that may throw: the callback runs on the
    elements from left to right and the first exception ends the call. *)
Fixpoint filter_throwing {A : Type} (p : A -> outcome bool) (l : list A)
  : outcome (list A) :=
  match l with
  | [] => Ok []
  | x :: rest =>
      match p x with
      | Throw e => Throw e
      | Ok b =>
          match filter_throwing p rest with
          | Throw e => Throw e
          | Ok kept => Ok (if b then x :: kept else kept)
          end
      end
  end.

(** [l.slice(start, end)] for integer arguments: a negative index counts
    from the end of the array. *)
Definition slice_index (len i : Z) : Z :=
  if (i <? 0)%Z then Z.max (len + i) 0 else Z.min i len.

Definition js_slice {A : Type} (l : list A) (start end_ : Z) : list A :=
  let len := Z.of_nat (length l) in
  let k := slice_index len start in
  let fin := slice_index len end_ in
  firstn (Z.to_nat (fin - k)) (skipn (Z.to_nat k) l).

(** ** models.ts *)

Module Models.

Inductive ModelProvider := openai | anthropic | google | meta_llama | mistral.

Inductive Feature := vision | functionCalling | toolUse | json.

Record SupportedFeatures := mkFeatures {
  f_vision : bool;
  f_functionCalling : bool;
  f_toolUse : bool;
  f_json : bool
}.

(** [model.supportedFeatures[feature]] *)
Definition feature_of (s : SupportedFeatures) (f : Feature) : bool :=
  match f with
  | vision => f_vision s
  | functionCalling => f_functionCalling s
  | toolUse => f_toolUse s
  | json => f_json s
  end.

Record ModelInfo := mkModel {
  id : string;
  provider : ModelProvider;
  name : string;
  contextWindow : Z;
  inputPricing : Q;
  outputPricing : Q;
  strengths : list string;
  supportedFeatures : SupportedFeatures;
  maxOutputTokens : option Z
}.

(** The catalog, in the order of the object literal ([Object.keys] and
    [Object.values] enumerate it in this order).  It is read at its declared
    type [Record<string, ModelInfo>]: the table of its own entries. *)
Definition models : list (string * ModelInfo) :=
  [ ("openai/gpt-4o",
     mkModel "openai/gpt-4o" openai "GPT-4o" 128000 5 15
       ["multimodal"; "reasoning"; "creative"; "code"]
       (mkFeatures true true true true) (Some 4096%Z));
    ("openai/gpt-4-turbo",
     mkModel "openai/gpt-4-turbo" openai "GPT-4 Turbo" 128000 10 30
       ["reasoning"; "creative"; "code"]
       (mkFeatures false true false true) (Some 4096%Z));
    ("openai/gpt-3.5-turbo",
     mkModel "openai/gpt-3.5-turbo" openai "GPT-3.5 Turbo" 16384 (1#2) (3#2)
       ["speed"; "cost-effective"]
       (mkFeatures false true false true) (Some 4096%Z));
    ("anthropic/claude-3-opus",
     mkModel "anthropic/claude-3-opus" anthropic "Claude 3 Opus" 200000 15 75
       ["reasoning"; "accuracy"; "long-form"]
       (mkFeatures true true true true) (Some 4096%Z));
    ("anthropic/claude-3-sonnet",
     mkModel "anthropic/claude-3-sonnet" anthropic "Claude 3 Sonnet" 200000 3 15
       ["balanced"; "versatile"]
       (mkFeatures true true true true) (Some 4096%Z));
    ("anthropic/claude-3-haiku",
     mkModel "anthropic/claude-3-haiku" anthropic "Claude 3 Haiku" 200000 (1#4) (5#4)
       ["speed"; "cost-effective"]
       (mkFeatures true true false true) (Some 4096%Z));
    ("google/gemini-1.5-pro",
     mkModel "google/gemini-1.5-pro" google "Gemini 1.5 Pro" 1000000 7 21
       ["long-context"; "multimodal"]
       (mkFeatures true true true true) (Some 8192%Z));
    ("google/gemini-1.5-flash",
     mkModel "google/gemini-1.5-flash" google "Gemini 1.5 Flash" 1000000 (3#2) 5
       ["speed"; "cost-effective"; "long-context"]
       (mkFeatures true true false true) (Some 8192%Z));
    ("meta-llama/llama-3-70b-instruct",
     mkModel "meta-llama/llama-3-70b-instruct" meta_llama "Llama 3 70B Instruct" 8192
       (9#10) (27#10)
       ["open-source"; "cost-effective"]
       (mkFeatures false false false false) (Some 4096%Z)) ].

(** The own entry of a key in an object literal used as a table. *)
Fixpoint assoc {A : Type} (k : string) (l : list (string * A)) : option A :=
  match l with
  | [] => None
  | (k', v) :: rest => if String.eqb k k' then Some v else assoc k rest
  end.

(** The names every object literal inherits from [Object.prototype]: eleven
    methods and the accessor [__proto__], which yields the prototype. *)
Definition object_prototype_names : list string :=
  [ "constructor"; "__defineGetter__"; "__defineSetter__"; "hasOwnProperty";
    "__lookupGetter__"; "__lookupSetter__"; "isPrototypeOf"; "propertyIsEnumerable";
    "toString"; "valueOf"; "__proto__"; "toLocaleString" ].

Definition is_prototype_name (k : string) : bool :=
  existsb (String.eqb k) object_prototype_names.
Arguments is_prototype_name : simpl never.

(** The value of [table[key]]: an own entry, a member inherited from
    [Object.prototype], or [undefined].  An inherited member is a function
    or the prototype object: it is truthy, it is not iterable, and none of
    the properties the code reads from a table entry ([supportedFeatures],
    [filter], [input], [output]) is defined on it. *)
Inductive Member (A : Type) : Type :=
| Own (a : A)
| Inherited
| Missing.
Arguments Own {A} a.
Arguments Inherited {A}.
Arguments Missing {A}.

Definition member {A : Type} (k : string) (table : list (string * A)) : Member A :=
  match assoc k table with
  | Some a => Own a
  | None => if is_prototype_name k then Inherited else Missing
  end.

(** [models[id]] *)
Definition getModelById (i : string) : Member ModelInfo := member i models.

Definition fallbackMap : list (string * list string) :=
  [ ("openai/gpt-4o",
     ["anthropic/claude-3-opus"; "openai/gpt-4-turbo"; "google/gemini-1.5-pro"]);
    ("anthropic/claude-3-opus",
     ["openai/gpt-4o"; "anthropic/claude-3-sonnet"; "google/gemini-1.5-pro"]);
    ("google/gemini-1.5-pro",
     ["openai/gpt-4o"; "anthropic/claude-3-opus"; "anthropic/claude-3-sonnet"]);
    ("anthropic/claude-3-sonnet",
     ["anthropic/claude-3-haiku"; "openai/gpt-3.5-turbo";
      "meta-llama/llama-3-70b-instruct"]);
    ("openai/gpt-3.5-turbo",
     ["anthropic/claude-3-haiku"; "meta-llama/llama-3-70b-instruct";
      "google/gemini-1.5-flash"]);
    ("anthropic/claude-3-haiku",
     ["openai/gpt-3.5-turbo"; "meta-llama/llama-3-70b-instruct";
      "google/gemini-1.5-flash"]) ].

(** What is passed around as a list of fallbacks: an array, or a member
    inherited by [fallbackMap], which is not one. *)
Inductive Fallbacks :=
| FallbackList (l : list string)
| NotAnArray.

(** [fallbackMap[modelId] || []]: an inherited member is truthy and is
    returned as it is. *)
Definition getRecommendedFallbacks (modelId : string) : Fallbacks :=
  match member modelId fallbackMap with
  | Own l => FallbackList l
  | Inherited => NotAnArray
  | Missing => FallbackList []
  end.

(** *** Raw JSON bodies *)

Inductive JsonValue :=
| JNull
| JBool (b : bool)
| JNum (q : Q)
| JStr (s : string)
| JArr (l : list JsonValue)
| JObj (fields : list (string * JsonValue)).

(** *** The request shape inferred from [ModelRequestSchema] *)

Inductive Role := system | user | assistant.
Inductive PartType := text | image_url.
Inductive Detail := low | high | auto.

Record ImageUrl := mkImageUrl { url : string; detail : option Detail }.

Record ContentPart := mkPart {
  part_type : PartType;
  part_text : option string;
  part_image_url : option ImageUrl
}.

Inductive Content :=
| CString (s : string)
| CParts (parts : list ContentPart).

Record ChatMessage := mkMessage {
  role : Role;
  content : Content;
  msg_name : option string
}.

Inductive RoutingStrategy :=
| r_default | r_fallback | r_lowest_cost | r_fastest | r_highest_quality.

Record FunctionDecl := mkFunction {
  fn_name : string;
  fn_description : option string;
  fn_parameters : option (list (string * JsonValue))
}.

Inductive FunctionCall :=
| FcString (s : string)
| FcObject (name : string).

Record ToolFunction := mkToolFunction {
  tf_name : string;
  tf_description : option string;
  tf_parameters : list (string * JsonValue)
}.

Record ToolDecl := mkTool { tool_type : string; tool_function : ToolFunction }.

Inductive Stop :=
| StopString (s : string)
| StopList (l : list string).

Inductive FormatType := fmt_text | fmt_json_object.

Record ResponseFormat := mkFormat { fmt_type : option FormatType }.

(** An optional property is [None] when the key is absent ([undefined]).
    [messages] is required by the schema, but the endpoint rewriter and the
    cache key generator also run on bodies that were never parsed and test
    it for absence, so it is optional here as well. *)
Record ModelRequest := mkRequest {
  model : string;
  messages : option (list ChatMessage);
  temperature : option Q;
  max_tokens : option Z;
  top_p : option Q;
  stream : option bool;
  stop : option Stop;
  frequency_penalty : option Q;
  presence_penalty : option Q;
  functions : option (list FunctionDecl);
  function_call : option FunctionCall;
  tools : option (list ToolDecl);
  route : option RoutingStrategy;
  fallbacks : option (list string);
  response_format : option ResponseFormat
}.

(** Copies of a request with some properties replaced or deleted. *)
Definition set_model_route (r : ModelRequest) (m : string) (s : RoutingStrategy) : ModelRequest :=
  {| model := m; messages := messages r; temperature := temperature r;
     max_tokens := max_tokens r; top_p := top_p r; stream := stream r; stop := stop r;
     frequency_penalty := frequency_penalty r; presence_penalty := presence_penalty r;
     functions := functions r; function_call := function_call r; tools := tools r;
     route := Some s; fallbacks := fallbacks r;
     response_format := response_format r |}.

Definition set_fallbacks (r : ModelRequest) (f : list string) : ModelRequest :=
  {| model := model r; messages := messages r; temperature := temperature r;
     max_tokens := max_tokens r; top_p := top_p r; stream := stream r; stop := stop r;
     frequency_penalty := frequency_penalty r; presence_penalty := presence_penalty r;
     functions := functions r; function_call := function_call r; tools := tools r;
     route := route r; fallbacks := Some f;
     response_format := response_format r |}.

Definition set_messages (r : ModelRequest) (ms : option (list ChatMessage)) : ModelRequest :=
  {| model := model r; messages := ms; temperature := temperature r;
     max_tokens := max_tokens r; top_p := top_p r; stream := stream r; stop := stop r;
     frequency_penalty := frequency_penalty r; presence_penalty := presence_penalty r;
     functions := functions r; function_call := function_call r; tools := tools r;
     route := route r; fallbacks := fallbacks r;
     response_format := response_format r |}.

Definition delete_stream (r : ModelRequest) : ModelRequest :=
  {| model := model r; messages := messages r; temperature := temperature r;
     max_tokens := max_tokens r; top_p := top_p r; stream := None; stop := stop r;
     frequency_penalty := frequency_penalty r; presence_penalty := presence_penalty r;
     functions := functions r; function_call := function_call r; tools := tools r;
     route := route r; fallbacks := fallbacks r;
     response_format := response_format r |}.

Definition delete_temperature (r : ModelRequest) : ModelRequest :=
  {| model := model r; messages := messages r; temperature := None;
     max_tokens := max_tokens r; top_p := top_p r; stream := stream r; stop := stop r;
     frequency_penalty := frequency_penalty r; presence_penalty := presence_penalty r;
     functions := functions r; function_call := function_call r; tools := tools r;
     route := route r; fallbacks := fallbacks r;
     response_format := response_format r |}.

Definition delete_top_p (r : ModelRequest) : ModelRequest :=
  {| model := model r; messages := messages r; temperature := temperature r;
     max_tokens := max_tokens r; top_p := None; stream := stream r; stop := stop r;
     frequency_penalty := frequency_penalty r; presence_penalty := presence_penalty r;
     functions := functions r; function_call := function_call r; tools := tools r;
     route := route r; fallbacks := fallbacks r;
     response_format := response_format r |}.

Definition role_string (r : Role) : string :=
  match r with
  | system => "system"
  | user => "user"
  | assistant => "assistant"
  end.

(** *** The OpenAI-shaped response built by the handlers *)

Record ResponseMessage := mkResponseMessage { rm_role : string; rm_content : string }.

Record Choice := mkChoice {
  index : Z;
  message : ResponseMessage;
  finish_reason : string
}.

Record Usage := mkUsage {
  prompt_tokens : Z;
  completion_tokens : Z;
  total_tokens : Z
}.

Record ModelResponse := mkResponse {
  resp_id : string;
  object : string;
  created : Z;
  resp_model : string;
  choices : list Choice;
  usage : Usage;
  routed_through : string
}.

(** *** Built-ins of the platform

    The JavaScript built-ins and library functions the services call are
    kept abstract. *)
Record Platform := mkPlatform {
  (** [createHash('sha256').update(s).digest('hex')] *)
  sha256_hex : string -> string;
  JSON_stringify_message : ChatMessage -> string;
  (** [JSON.stringify] of a normalized request *)
  JSON_stringify_request : ModelRequest -> string;
  localeCompare : string -> string -> Z;
  toLowerCase : string -> string;
  trim : string -> string;
  (** an integer inside a template literal *)
  show_int : Z -> string;
  (** [x.toString(36).substring(2, 9)] of a draw [x] *)
  base36_suffix : Q -> string
}.

(** *** The catalog queries *)

(** [modelId in models]: the operator also finds inherited members. *)
Definition validateModelId (modelId : string) : bool :=
  match member modelId models with
  | Missing => false
  | _ => true
  end.

Definition provider_eqb (a b : ModelProvider) : bool :=
  match a, b with
  | openai, openai | anthropic, anthropic | google, google
  | meta_llama, meta_llama | mistral, mistral => true
  | _, _ => false
  end.

Definition getModelsByProvider (p : ModelProvider) : list ModelInfo :=
  List.filter (fun m => provider_eqb (provider m) p) (map snd models).

Definition getModelsByFeature (f : Feature) : list ModelInfo :=
  List.filter (fun m => feature_of (supportedFeatures m) f) (map snd models).

Definition getModelsByStrength (strength : string) : list ModelInfo :=
  List.filter (fun m => existsb (String.eqb strength) (strengths m)) (map snd models).

Inductive SortCriteria := by_inputPricing | by_outputPricing | by_contextWindow.

(** [a[criteria]] *)
Definition criterion (c : SortCriteria) (m : ModelInfo) : Q :=
  match c with
  | by_inputPricing => inputPricing m
  | by_outputPricing => outputPricing m
  | by_contextWindow => inject_Z (contextWindow m)
  end.

(** The comparator is [a[c] - b[c]] when ascending and [b[c] - a[c]]
    otherwise. *)
Definition getModelsSortedBy (c : SortCriteria) (ascending : bool) : list ModelInfo :=
  stable_sort (fun a b => if ascending then num_lt (criterion c a) (criterion c b)
                          else num_lt (criterion c b) (criterion c a))
              (map snd models).

End Models.

(** ** Objects built from request bodies *)

Module JsObject.
Import Models.

(** The value of a property of a stored configuration: a JSON value that
    came with a request body, a [Date], [undefined], or an object literal
    written by a service (the [lastStatus] of a webhook holds a [Date]). *)
Inductive Value :=
| Undefined
| Json (j : JsonValue)
| Date (t : Z)
| Literal (members : list (string * Value)).

(** An object is the finite map of its own properties.  The order in which
    the properties are enumerated is not kept: the managers never look at
    it. *)
Abbreviation Object := (gmap string Value).

(** The own property [k] of [o]; [None] is an absent property.  For a key
    that [Object.prototype] does not define (the managers read [id],
    [owner] and [userId]) this is [o[k]], an absent property reading as
    [undefined]. *)
Definition read (o : Object) (k : string) : option Value := o !! k.

(** [{ ...o, [k]: v }] *)
Definition assign (o : Object) (k : string) (v : Value) : Object := <[k := v]> o.

(** [{ ...target, ...source }]: the own properties of [source] are written
    over those of [target]. *)
Definition spread (target source : Object) : Object := source ∪ target.

(** The object [JSON.parse] builds from the members of a JSON object: a
    key that occurs twice keeps its last value. *)
Definition of_json (fields : list (string * JsonValue)) : Object :=
  fold_left (fun o kv => assign o (fst kv) (Json (snd kv))) fields ∅.

(** [v === s] for a string [s]. *)
Definition is_string (v : option Value) (s : string) : bool :=
  match v with
  | Some (Json (JStr s')) => String.eqb s' s
  | _ => false
  end.

(** Truthiness of a JSON value. *)
Definition truthy (j : JsonValue) : bool :=
  match j with
  | JNull => false
  | JBool b => b
  | JNum q => negb (Qeq_bool q 0)
  | JStr s => negb (String.eqb s "")
  | JArr _ | JObj _ => true
  end.

End JsObject.

(** ** model-router.ts *)

Module Router.
Import Models.

(** Truthiness of the values the router tests. *)
Definition truthy_string (s : string) : bool := negb (String.eqb s "").

Definition truthy_function_call (fc : option FunctionCall) : bool :=
  match fc with
  | None => false
  | Some (FcString s) => truthy_string s
  | Some (FcObject _) => true
  end.

(** [l?.length] used as a condition. *)
Definition truthy_length {A : Type} (l : option (list A)) : bool :=
  match l with
  | Some (_ :: _) => true
  | _ => false
  end.

Definition is_image_part (c : ContentPart) : bool :=
  match part_type c with image_url => true | text => false end.

(** [Array.isArray(message.content) && message.content.some(...)] *)
Definition message_has_image (m : ChatMessage) : bool :=
  match content m with
  | CString _ => false
  | CParts parts => existsb is_image_part parts
  end.

Definition json_requested (rf : option ResponseFormat) : bool :=
  match rf with
  | Some (mkFormat (Some fmt_json_object)) => true
  | _ => false
  end.

(** The [Set] of required features, in insertion order. *)
Definition getRequiredFeatures (request : ModelRequest) : outcome (list Feature) :=
  match messages request with
  | None => Throw (TypeError "Cannot read properties of undefined (reading 'some')")
  | Some msgs =>
      let hasImageContent := existsb message_has_image msgs in
      Ok ((if hasImageContent then [vision] else [])
          ++ (if truthy_length (functions request)
                 || truthy_function_call (function_call request)
              then [functionCalling] else [])
          ++ (if truthy_length (tools request) then [toolUse] else [])
          ++ (if json_requested (response_format request) then [json] else []))
  end.

Definition feature_name (f : Feature) : string :=
  match f with
  | vision => "vision"
  | functionCalling => "functionCalling"
  | toolUse => "toolUse"
  | json => "json"
  end.

(** An inherited member passes [if (!model) return false]; it has no
    [supportedFeatures], so the first feature looked up throws. *)
Definition modelSupportsFeatures (modelId : string) (requiredFeatures : list Feature)
  : outcome bool :=
  match getModelById modelId with
  | Missing => Ok false
  | Own m => Ok (forallb (feature_of (supportedFeatures m)) requiredFeatures)
  | Inherited =>
      match requiredFeatures with
      | [] => Ok true
      | f :: _ =>
          Throw (TypeError ("Cannot read properties of undefined (reading '"
                            +:+ feature_name f +:+ "')"))
      end
  end.

Definition getRecommendedFallbacksForFeatures
    (modelId : string) (requiredFeatures : list Feature) : outcome (list string) :=
  match getRecommendedFallbacks modelId with
  | NotAnArray => Throw (TypeError "standardFallbacks.filter is not a function")
  | FallbackList standardFallbacks =>
      filter_throwing (fun fallbackId => modelSupportsFeatures fallbackId requiredFeatures)
                      standardFallbacks
  end.

(** Stable insertion sort by a numeric key, ascending: what
    [Array.prototype.sort] computes for the comparator [key a - key b]. *)
Definition sort_by {A : Type} (key : A -> Q) (l : list A) : list A :=
  stable_sort (fun x y => num_lt (key x) (key y)) l.

Definition fastestModels : list string :=
  [ "anthropic/claude-3-haiku"; "openai/gpt-3.5-turbo"; "google/gemini-1.5-flash";
    "meta-llama/llama-3-70b-instruct"; "anthropic/claude-3-sonnet"; "openai/gpt-4o";
    "google/gemini-1.5-pro"; "anthropic/claude-3-opus" ].

Definition highestQualityModels : list string :=
  [ "anthropic/claude-3-opus"; "openai/gpt-4o"; "google/gemini-1.5-pro";
    "openai/gpt-4-turbo"; "anthropic/claude-3-sonnet"; "google/gemini-1.5-flash";
    "meta-llama/llama-3-70b-instruct"; "anthropic/claude-3-haiku";
    "openai/gpt-3.5-turbo" ].

Definition lowAvailabilityModels : list string :=
  [ "openai/gpt-4"; "anthropic/claude-3-opus" ].

Definition includes (l : list string) (s : string) : bool :=
  existsb (String.eqb s) l.

Section WithRandom.

(** The successive values returned by [Math.random()], each in [0, 1). *)
Variable random : nat -> Q.

(** Routing computations: they consume draws and may throw. *)
Definition R (A : Type) : Type := nat -> outcome A * nat.

Definition ret {A} (a : A) : R A := fun n => (Ok a, n).
Definition throw {A} (e : Error) : R A := fun n => (Throw e, n).
Definition bind {A B} (m : R A) (k : A -> R B) : R B :=
  fun n => match m n with
           | (Ok a, n') => k a n'
           | (Throw e, n') => (Throw e, n')
           end.

(** One probe: one draw compared with the model's availability. *)
Definition isModelAvailable (modelId : string) : R bool :=
  fun n =>
    let availability := if includes lowAvailabilityModels modelId then 8 # 10 else 95 # 100 in
    (Ok (num_lt (random n) availability), S n).

(** A synchronous step inside a routing computation. *)
Definition lift {A} (o : outcome A) : R A := fun n => (o, n).

(** [await this.isModelAvailable(id) && this.modelSupportsFeatures(id, features)]:
    the support check runs, and may throw, only after a successful probe. *)
Definition usable (modelId : string) (requiredFeatures : list Feature) : R bool :=
  bind (isModelAvailable modelId) (fun a =>
    if a then lift (modelSupportsFeatures modelId requiredFeatures) else ret false).

(** [for (const id of ids) if (await available(id) && supports(id)) return id] *)
Fixpoint firstAvailable (requiredFeatures : list Feature) (ids : list string)
  : R (option string) :=
  match ids with
  | [] => ret None
  | i :: rest =>
      bind (usable i requiredFeatures) (fun ok =>
        if ok then ret (Some i) else firstAvailable requiredFeatures rest)
  end.

(** The loop over [fallbacks] throws when the value is not iterable. *)
Definition handleFallbackRouting
    (primaryModel : string) (fallbacks : Fallbacks) (requiredFeatures : list Feature)
  : R string :=
  bind (usable primaryModel requiredFeatures) (fun ok =>
    if ok then ret primaryModel
    else
      match fallbacks with
      | NotAnArray => throw (TypeError "fallbacks is not iterable")
      | FallbackList fallbackIds =>
          bind (firstAvailable requiredFeatures fallbackIds) (fun r =>
            match r with
            | Some fallbackModel => ret fallbackModel
            | None =>
                let availableModels :=
                  List.filter (fun i => negb (String.eqb i primaryModel)
                                        && negb (includes fallbackIds i))
                              (map fst models) in
                bind (firstAvailable requiredFeatures availableModels) (fun r' =>
                  match r' with
                  | Some modelId => ret modelId
                  | None =>
                      throw (PlainError
                               "No available models found that match requirements")
                  end)
            end)
      end).

(** [for (const model of l) if (await available(model.id)) return model.id] *)
Fixpoint firstAvailableInfo (l : list ModelInfo) : R (option string) :=
  match l with
  | [] => ret None
  | m :: rest =>
      bind (isModelAvailable (id m)) (fun a =>
        if a then ret (Some (id m)) else firstAvailableInfo rest)
  end.

Definition findLowestCostModel (requiredFeatures : list Feature) : R string :=
  bind (lift (filter_throwing (fun m => modelSupportsFeatures (id m) requiredFeatures)
                              (map snd models))) (fun eligible =>
    let modelsByCost :=
      sort_by (fun m => inputPricing m + outputPricing m)%Q eligible in
    bind (firstAvailableInfo modelsByCost) (fun r =>
      match r with
      | Some i => ret i
      | None =>
          throw (PlainError "No available low-cost models found that match requirements")
      end)).

Definition findFastestModel (requiredFeatures : list Feature) : R string :=
  bind (firstAvailable requiredFeatures fastestModels) (fun r =>
    match r with
    | Some i => ret i
    | None => throw (PlainError "No available fast models found that match requirements")
    end).

Definition findHighestQualityModel (requiredFeatures : list Feature) : R string :=
  bind (firstAvailable requiredFeatures highestQualityModels) (fun r =>
    match r with
    | Some i => ret i
    | None =>
        throw (PlainError "No available high quality models found that match requirements")
    end).

Definition routeRequest (request : ModelRequest) : R string :=
  let route_ := default r_default (route request) in
  let fallbacks_ := default [] (fallbacks request) in
  match getRequiredFeatures request with
  | Throw e => throw e
  | Ok requiredFeatures =>
      match route_ with
      | r_fallback =>
          handleFallbackRouting (model request) (FallbackList fallbacks_) requiredFeatures
      | r_lowest_cost => findLowestCostModel requiredFeatures
      | r_fastest => findFastestModel requiredFeatures
      | r_highest_quality => findHighestQualityModel requiredFeatures
      | r_default =>
          bind (isModelAvailable (model request)) (fun a =>
            if a then
              bind (lift (modelSupportsFeatures (model request) requiredFeatures))
                (fun supported =>
                  if supported then ret (model request)
                  else
                    bind (lift (getRecommendedFallbacksForFeatures (model request)
                                  requiredFeatures)) (fun recommended =>
                      handleFallbackRouting (model request) (FallbackList recommended)
                        requiredFeatures))
            else
              handleFallbackRouting (model request)
                (match fallbacks_ with
                 | [] => getRecommendedFallbacks (model request)
                 | _ => FallbackList fallbacks_
                 end)
                requiredFeatures)
      end
  end.

End WithRandom.

End Router.

(** ** custom-endpoints.ts *)

Module Endpoints.
Import Models.

Record Parameters := mkParameters {
  p_temperature : option Q;
  p_maxTokens : option Z;
  p_topP : option Q;
  p_frequencyPenalty : option Q;
  p_presencePenalty : option Q
}.

(** The schema leaves both limits optional; the stored value may be
    whatever an update supplied. *)
Record RateLimit := mkRateLimit {
  requestsPerMinute : option Z;
  tokensPerMinute : option Z
}.

Record CustomEndpointConfig := mkEndpoint {
  id : string;
  name : string;
  description : string;
  baseModel : string;
  fallbacks : list string;
  routingStrategy : RoutingStrategy;
  parameters : Parameters;
  systemPrompt : option string;
  createdAt : Z;
  updatedAt : Z;
  owner : string;
  isPublic : bool;
  apiKey : option string;
  rateLimit : option RateLimit
}.

(** The [endpoints] map of the manager. *)
Abbreviation Store := (gmap string CustomEndpointConfig).

Definition getEndpoint (endpoints : Store) (i : string) : option CustomEndpointConfig :=
  endpoints !! i.

Definition deleteEndpoint (endpoints : Store) (i : string) (owner_ : string) : bool * Store :=
  match endpoints !! i with
  | None => (false, endpoints)
  | Some endpoint =>
      if negb (String.eqb (owner endpoint) owner_) then (false, endpoints)
      else (true, delete i endpoints)
  end.

(** The access test of the endpoint GET handler and of [listEndpoints]. *)
Definition accessible (endpoint : CustomEndpointConfig) (caller : string) : bool :=
  String.eqb (owner endpoint) caller || isPublic endpoint.

Definition is_system (m : ChatMessage) : bool :=
  match role m with system => true | _ => false end.

(** [if (p !== undefined && r.k === undefined) r.k = p], for the five knobs.
    At its declared type [endpoint.parameters] is always an object, so the
    test [if (endpoint.parameters)] around them always passes. *)
Definition fill {A : Type} (current preset : option A) : option A :=
  match preset, current with
  | Some p, None => Some p
  | _, _ => current
  end.

Definition apply_parameters (r : ModelRequest) (p : Parameters) : ModelRequest :=
  {| model := model r; messages := messages r;
     temperature := fill (temperature r) (p_temperature p);
     max_tokens := fill (max_tokens r) (p_maxTokens p);
     top_p := fill (top_p r) (p_topP p);
     stream := stream r; stop := stop r;
     frequency_penalty := fill (frequency_penalty r) (p_frequencyPenalty p);
     presence_penalty := fill (presence_penalty r) (p_presencePenalty p);
     functions := functions r; function_call := function_call r; tools := tools r;
     route := route r; Models.fallbacks := Models.fallbacks r;
     response_format := response_format r |}.

Definition has_system (ms : option (list ChatMessage)) : bool :=
  match ms with
  | None => false
  | Some l => existsb is_system l
  end.

Definition applyEndpoint (endpoint : CustomEndpointConfig) (request : ModelRequest)
  : ModelRequest :=
  let r1 := set_model_route request (baseModel endpoint) (routingStrategy endpoint) in
  let r2 :=
    match Models.fallbacks r1, fallbacks endpoint with
    | None, _ :: _ => set_fallbacks r1 (fallbacks endpoint)
    | _, _ => r1
    end in
  let r3 :=
    match systemPrompt endpoint with
    | Some prompt =>
        if Router.truthy_string prompt && negb (has_system (messages r2))
        then set_messages r2
               (Some (mkMessage system (CString prompt) None :: default [] (messages r2)))
        else r2
    | None => r2
    end in
  apply_parameters r3 (parameters endpoint).

Definition applyEndpointToRequest
    (endpoints : Store) (endpointId : string) (request : ModelRequest)
  : option ModelRequest :=
  match endpoints !! endpointId with
  | None => None
  | Some endpoint => Some (applyEndpoint endpoint request)
  end.

(** [CustomEndpointInput], the declared type of a creation input: the
    output of the schema, in which every default has been filled in.  The
    stored configuration declares [description] a string, so inputs are
    taken with one; every other optional key is optional here. *)
Record CustomEndpointInput := mkFullInput {
  in_name : string;
  in_description : string;
  in_baseModel : string;
  in_fallbacks : list string;
  in_routingStrategy : RoutingStrategy;
  in_parameters : Parameters;
  in_systemPrompt : option string;
  in_isPublic : bool;
  in_apiKey : option string;
  in_rateLimit : option RateLimit
}.

(** [{ id, ...input, createdAt: now, updatedAt: now, owner }] for an input
    of the declared type; [i] is the identifier generated for the endpoint.
    [EndpointObjects.createEndpoint] is the same method on the object the
    handler passes, which is the request body as it was received. *)
Definition createEndpoint (endpoints : Store) (input : CustomEndpointInput) (owner_ : string)
    (i : string) (now : Z) : CustomEndpointConfig * Store :=
  let endpoint :=
    mkEndpoint i (in_name input) (in_description input) (in_baseModel input)
               (in_fallbacks input) (in_routingStrategy input) (in_parameters input)
               (in_systemPrompt input) now now owner_ (in_isPublic input)
               (in_apiKey input) (in_rateLimit input) in
  (endpoint, <[i := endpoint]> endpoints).

(** The endpoints a user may see.  The result is in the order of
    [map_to_list], not in the insertion order of the JavaScript [Map]. *)
Definition listEndpoints (endpoints : Store) (owner_ : string) : list CustomEndpointConfig :=
  List.filter (fun endpoint => accessible endpoint owner_) (map snd (map_to_list endpoints)).

End Endpoints.

(** ** custom-endpoints.ts on the objects the handlers pass

    The endpoints handler hands the request body to [createEndpoint] and
    [updateEndpoint] as it was received, so at run time [input] is any
    object and a stored endpoint is whatever the spreads produced. *)

Module EndpointObjects.
Import Models JsObject.

(** The [endpoints] map of the manager. *)
Abbreviation Store := (gmap string Object).

(** [{ id, ...input, createdAt: now, updatedAt: now, owner }]; [i] is the
    identifier generated for the endpoint. *)
Definition createEndpoint (endpoints : Store) (input : Object) (owner : string)
    (i : string) (now : Z) : Object * Store :=
  let endpoint :=
    assign
      (assign
         (assign (spread (assign ∅ "id" (Json (JStr i))) input) "createdAt" (Date now))
         "updatedAt" (Date now))
      "owner" (Json (JStr owner)) in
  (endpoint, <[i := endpoint]> endpoints).

Definition getEndpoint (endpoints : Store) (i : string) : option Object :=
  endpoints !! i.

(** [{ ...endpoint, ...input, updatedAt: new Date() }], stored under [id]
    when [endpoint.owner === owner]. *)
Definition updateEndpoint (endpoints : Store) (i : string) (input : Object)
    (owner : string) (now : Z) : option Object * Store :=
  match endpoints !! i with
  | None => (None, endpoints)
  | Some endpoint =>
      if negb (is_string (read endpoint "owner") owner) then (None, endpoints)
      else
        let updatedEndpoint := assign (spread endpoint input) "updatedAt" (Date now) in
        (Some updatedEndpoint, <[i := updatedEndpoint]> endpoints)
  end.

Definition deleteEndpoint (endpoints : Store) (i : string) (owner : string)
  : bool * Store :=
  match endpoints !! i with
  | None => (false, endpoints)
  | Some endpoint =>
      if negb (is_string (read endpoint "owner") owner) then (false, endpoints)
      else (true, delete i endpoints)
  end.

(** *** The objects of the typed configurations *)

Definition route_name (r : RoutingStrategy) : string :=
  match r with
  | r_default => "default"
  | r_fallback => "fallback"
  | r_lowest_cost => "lowest-cost"
  | r_fastest => "fastest"
  | r_highest_quality => "highest-quality"
  end.

(** An object literal whose optional members may be left out. *)
Definition members (l : list (string * option JsonValue)) : list (string * JsonValue) :=
  omap (fun kv => match snd kv with Some v => Some (fst kv, v) | None => None end) l.

Definition parameters_json (p : Endpoints.Parameters) : JsonValue :=
  JObj (members
    [ ("temperature", JNum <$> Endpoints.p_temperature p);
      ("maxTokens", (fun n => JNum (inject_Z n)) <$> Endpoints.p_maxTokens p);
      ("topP", JNum <$> Endpoints.p_topP p);
      ("frequencyPenalty", JNum <$> Endpoints.p_frequencyPenalty p);
      ("presencePenalty", JNum <$> Endpoints.p_presencePenalty p) ]).

Definition rateLimit_json (r : Endpoints.RateLimit) : JsonValue :=
  JObj (members
    [ ("requestsPerMinute", (fun n => JNum (inject_Z n)) <$> Endpoints.requestsPerMinute r);
      ("tokensPerMinute", (fun n => JNum (inject_Z n)) <$> Endpoints.tokensPerMinute r) ]).

(** The object of an input in which every default of the schema has been
    filled in. *)
Definition input_object (input : Endpoints.CustomEndpointInput) : Object :=
  of_json (members
    [ ("name", Some (JStr (Endpoints.in_name input)));
      ("description", Some (JStr (Endpoints.in_description input)));
      ("baseModel", Some (JStr (Endpoints.in_baseModel input)));
      ("fallbacks", Some (JArr (map JStr (Endpoints.in_fallbacks input))));
      ("routingStrategy", Some (JStr (route_name (Endpoints.in_routingStrategy input))));
      ("parameters", Some (parameters_json (Endpoints.in_parameters input)));
      ("systemPrompt", JStr <$> Endpoints.in_systemPrompt input);
      ("isPublic", Some (JBool (Endpoints.in_isPublic input)));
      ("apiKey", JStr <$> Endpoints.in_apiKey input);
      ("rateLimit", rateLimit_json <$> Endpoints.in_rateLimit input) ]).

(** The object of a stored configuration of the declared type. *)
Definition to_object (endpoint : Endpoints.CustomEndpointConfig) : Object :=
  assign
    (assign
       (assign
          (assign
             (of_json (members
               [ ("name", Some (JStr (Endpoints.name endpoint)));
                 ("description", Some (JStr (Endpoints.description endpoint)));
                 ("baseModel", Some (JStr (Endpoints.baseModel endpoint)));
                 ("fallbacks", Some (JArr (map JStr (Endpoints.fallbacks endpoint))));
                 ("routingStrategy",
                  Some (JStr (route_name (Endpoints.routingStrategy endpoint))));
                 ("parameters", Some (parameters_json (Endpoints.parameters endpoint)));
                 ("systemPrompt", JStr <$> Endpoints.systemPrompt endpoint);
                 ("isPublic", Some (JBool (Endpoints.isPublic endpoint)));
                 ("apiKey", JStr <$> Endpoints.apiKey endpoint);
                 ("rateLimit", rateLimit_json <$> Endpoints.rateLimit endpoint) ]))
             "id" (Json (JStr (Endpoints.id endpoint))))
          "createdAt" (Date (Endpoints.createdAt endpoint)))
       "updatedAt" (Date (Endpoints.updatedAt endpoint)))
    "owner" (Json (JStr (Endpoints.owner endpoint))).

End EndpointObjects.

(** ** cache-manager.ts *)

Module Cache.
Import Models.

Record TokenUsage := mkTokenUsage { input : Z; output : Z; total : Z }.

Record CachedResponse := mkCached {
  modelId : string;
  response : ModelResponse;
  createdAt : Z;
  expiresAt : Z;
  tokenUsage : TokenUsage
}.

Inductive KeyStrategy := exact | semantic.

Record CacheOptions := mkOptions {
  ttl : Z;
  keyStrategy : KeyStrategy;
  ignoreTemperature : option bool;
  ignoreTopP : option bool;
  cachingEnabled : option bool
}.

(** [Partial<CacheOptions>]: [None] is an absent key. *)
Record PartialOptions := mkPartial {
  o_ttl : option Z;
  o_keyStrategy : option KeyStrategy;
  o_ignoreTemperature : option (option bool);
  o_ignoreTopP : option (option bool);
  o_cachingEnabled : option (option bool)
}.

Definition DEFAULT_CACHE_OPTIONS : CacheOptions :=
  mkOptions 3600000 exact (Some false) (Some false) (Some true).

Record CacheManager := mkCache {
  cache : gmap string CachedResponse;
  defaultOptions : CacheOptions
}.

Definition initial : CacheManager := mkCache ∅ DEFAULT_CACHE_OPTIONS.

(** [{ ...base, ...options }] *)
Definition merge (base : CacheOptions) (options : option PartialOptions) : CacheOptions :=
  match options with
  | None => base
  | Some o =>
      {| ttl := default (ttl base) (o_ttl o);
         keyStrategy := default (keyStrategy base) (o_keyStrategy o);
         ignoreTemperature := default (ignoreTemperature base) (o_ignoreTemperature o);
         ignoreTopP := default (ignoreTopP base) (o_ignoreTopP o);
         cachingEnabled := default (cachingEnabled base) (o_cachingEnabled o) |}
  end.

Definition setDefaultOptions (cm : CacheManager) (options : PartialOptions) : CacheManager :=
  mkCache (cache cm) (merge (defaultOptions cm) (Some options)).

(** Truthiness of an optional boolean. *)
Definition on (b : option bool) : bool := default false b.

Section WithPlatform.
Variable P : Platform.

(** The comparator of the message sort is negative on [(a, b)]. *)
Definition message_before (a b : ChatMessage) : bool :=
  match role a, role b with
  | system, system | user, user | assistant, assistant =>
      (localeCompare P (JSON_stringify_message P a) (JSON_stringify_message P b) <? 0)%Z
  | _, _ =>
      (localeCompare P (role_string (role a)) (role_string (role b)) <? 0)%Z
  end.

Definition is_user (m : ChatMessage) : bool :=
  match role m with user => true | _ => false end.

Definition semantic_message (m : ChatMessage) : ChatMessage :=
  mkMessage (role m)
    (match content m with
     | CString s => CString (trim P (toLowerCase P s))
     | CParts parts => CParts parts
     end)
    None.

Definition normalize (request : ModelRequest) (options : CacheOptions) : ModelRequest :=
  let r1 := delete_stream request in
  let r2 := if on (ignoreTemperature options) then delete_temperature r1 else r1 in
  let r3 := if on (ignoreTopP options) then delete_top_p r2 else r2 in
  let r4 :=
    match messages r3 with
    | Some ms => set_messages r3 (Some (stable_sort message_before ms))
    | None => r3
    end in
  match keyStrategy options with
  | semantic =>
      match messages r4 with
      | Some ms =>
          set_messages r4 (Some (map semantic_message (List.filter is_user ms)))
      | None => r4
      end
  | exact => r4
  end.

Definition generateCacheKey (request : ModelRequest) (options : CacheOptions) : string :=
  sha256_hex P (JSON_stringify_request P (normalize request options)).

(** [now] is the value of [new Date()] during the call. *)
Definition getCachedResponse
    (cm : CacheManager) (request : ModelRequest) (options : option PartialOptions) (now : Z)
  : option CachedResponse * CacheManager :=
  let mergedOptions := merge (defaultOptions cm) options in
  if negb (on (cachingEnabled mergedOptions)) then (None, cm)
  else
    let cacheKey := generateCacheKey request mergedOptions in
    match cache cm !! cacheKey with
    | Some cachedItem =>
        if (now <? expiresAt cachedItem)%Z then (Some cachedItem, cm)
        else (None, mkCache (delete cacheKey (cache cm)) (defaultOptions cm))
    | None => (None, cm)
    end.

Definition setCachedResponse
    (cm : CacheManager) (request : ModelRequest) (response_ : ModelResponse)
    (tokenUsage_ : TokenUsage) (options : option PartialOptions) (now : Z)
  : CacheManager :=
  let mergedOptions := merge (defaultOptions cm) options in
  if negb (on (cachingEnabled mergedOptions)) then cm
  else
    let cacheKey := generateCacheKey request mergedOptions in
    let expiresAt_ := (now + ttl mergedOptions)%Z in
    mkCache
      (<[cacheKey := mkCached (model request) response_ now expiresAt_ tokenUsage_]>
         (cache cm))
      (defaultOptions cm).

End WithPlatform.

(** The periodic sweep. *)
Definition cleanupExpiredItems (cm : CacheManager) (now : Z) : CacheManager :=
  mkCache (filter (fun kv => (now < expiresAt (snd kv))%Z) (cache cm)) (defaultOptions cm).

(** [partialRequest] is [None] when the argument is omitted; otherwise it
    carries the [model] key of the partial request, the only one read. *)
Definition matches_partial (model_ : option string) (value : CachedResponse) : bool :=
  match model_ with
  | Some m => Router.truthy_string m && String.eqb (modelId value) m
  | None => false
  end.

Definition invalidateCache (cm : CacheManager) (partialRequest : option (option string))
  : nat * CacheManager :=
  match partialRequest with
  | None => (size (cache cm), mkCache ∅ (defaultOptions cm))
  | Some model_ =>
      (size (filter (fun kv => matches_partial model_ (snd kv) = true) (cache cm)),
       mkCache (filter (fun kv => matches_partial model_ (snd kv) = false) (cache cm))
               (defaultOptions cm))
  end.

End Cache.

(** ** ModelRequestSchema (models.ts): parsing a raw body *)

Module Schema.
Import Models.

(** The value of a key of the body; [None] when the key is absent. *)
Definition field (k : string) (fields : list (string * JsonValue)) : option JsonValue :=
  assoc k fields.

(** [s.optional()] *)
Definition optional {A : Type} (s : JsonValue -> option A) (v : option JsonValue)
  : option (option A) :=
  match v with
  | None => Some None
  | Some j => Some <$> s j
  end.

(** A required key. *)
Definition required {A : Type} (s : JsonValue -> option A) (v : option JsonValue)
  : option A :=
  match v with
  | None => None
  | Some j => s j
  end.

Definition z_string (j : JsonValue) : option string :=
  match j with JStr s => Some s | _ => None end.

Definition z_boolean (j : JsonValue) : option bool :=
  match j with JBool b => Some b | _ => None end.

(** [z.number().min(lo).max(hi)] *)
Definition z_number_range (lo hi : Q) (j : JsonValue) : option Q :=
  match j with
  | JNum q => if num_le lo q && num_le q hi then Some q else None
  | _ => None
  end.

Definition is_integer (q : Q) : bool := (Qnum q mod Zpos (Qden q) =? 0)%Z.

(** [z.number().positive().int()] *)
Definition z_positive_int (j : JsonValue) : option Z :=
  match j with
  | JNum q => if num_lt 0 q && is_integer q then Some (Qnum q / Zpos (Qden q))%Z else None
  | _ => None
  end.

(** [z.array(s)]: any array all of whose items satisfy [s]; no length bound. *)
Definition z_array {A : Type} (s : JsonValue -> option A) (j : JsonValue)
  : option (list A) :=
  match j with
  | JArr l => mapM s l
  | _ => None
  end.

(** [z.record(z.any())] *)
Definition z_record (j : JsonValue) : option (list (string * JsonValue)) :=
  match j with JObj fs => Some fs | _ => None end.

Definition z_role (j : JsonValue) : option Role :=
  match j with
  | JStr "system" => Some system
  | JStr "user" => Some user
  | JStr "assistant" => Some assistant
  | _ => None
  end.

Definition z_part_type (j : JsonValue) : option PartType :=
  match j with
  | JStr "text" => Some text
  | JStr "image_url" => Some image_url
  | _ => None
  end.

Definition z_detail (j : JsonValue) : option Detail :=
  match j with
  | JStr "low" => Some low
  | JStr "high" => Some high
  | JStr "auto" => Some auto
  | _ => None
  end.

Definition z_image_url (j : JsonValue) : option ImageUrl :=
  match j with
  | JObj fs =>
      u ← required z_string (field "url" fs);
      d ← optional z_detail (field "detail" fs);
      Some (mkImageUrl u d)
  | _ => None
  end.

Definition z_part (j : JsonValue) : option ContentPart :=
  match j with
  | JObj fs =>
      t ← required z_part_type (field "type" fs);
      x ← optional z_string (field "text" fs);
      i ← optional z_image_url (field "image_url" fs);
      Some (mkPart t x i)
  | _ => None
  end.

(** [z.string().or(z.array(part))] *)
Definition z_content (j : JsonValue) : option Content :=
  match j with
  | JStr s => Some (CString s)
  | JArr l => CParts <$> mapM z_part l
  | _ => None
  end.

Definition z_message (j : JsonValue) : option ChatMessage :=
  match j with
  | JObj fs =>
      r ← required z_role (field "role" fs);
      c ← required z_content (field "content" fs);
      n ← optional z_string (field "name" fs);
      Some (mkMessage r c n)
  | _ => None
  end.

Definition z_stop (j : JsonValue) : option Stop :=
  match j with
  | JStr s => Some (StopString s)
  | JArr l => StopList <$> mapM z_string l
  | _ => None
  end.

Definition z_function (j : JsonValue) : option FunctionDecl :=
  match j with
  | JObj fs =>
      n ← required z_string (field "name" fs);
      d ← optional z_string (field "description" fs);
      p ← optional z_record (field "parameters" fs);
      Some (mkFunction n d p)
  | _ => None
  end.

Definition z_function_call (j : JsonValue) : option FunctionCall :=
  match j with
  | JStr s => Some (FcString s)
  | JObj fs => FcObject <$> required z_string (field "name" fs)
  | _ => None
  end.

Definition z_tool_function (j : JsonValue) : option ToolFunction :=
  match j with
  | JObj fs =>
      n ← required z_string (field "name" fs);
      d ← optional z_string (field "description" fs);
      p ← required z_record (field "parameters" fs);
      Some (mkToolFunction n d p)
  | _ => None
  end.

Definition z_tool (j : JsonValue) : option ToolDecl :=
  match j with
  | JObj fs =>
      t ← required z_string (field "type" fs);
      f ← required z_tool_function (field "function" fs);
      Some (mkTool t f)
  | _ => None
  end.

Definition z_route (j : JsonValue) : option RoutingStrategy :=
  match j with
  | JStr "default" => Some r_default
  | JStr "fallback" => Some r_fallback
  | JStr "lowest-cost" => Some r_lowest_cost
  | JStr "fastest" => Some r_fastest
  | JStr "highest-quality" => Some r_highest_quality
  | _ => None
  end.

Definition z_format_type (j : JsonValue) : option FormatType :=
  match j with
  | JStr "text" => Some fmt_text
  | JStr "json_object" => Some fmt_json_object
  | _ => None
  end.

Definition z_response_format (j : JsonValue) : option ResponseFormat :=
  match j with
  | JObj fs => mkFormat <$> optional z_format_type (field "type" fs)
  | _ => None
  end.

(** The check of the [messages] key. *)
Definition check_messages (fs : list (string * JsonValue)) : option (list ChatMessage) :=
  required (z_array z_message) (field "messages" fs).

(** The checks of all the other keys; the continuation receives the
    parsed [messages]. *)
Definition check_rest (fs : list (string * JsonValue))
  : option (list ChatMessage -> ModelRequest) :=
  m ← required z_string (field "model" fs);
  t ← optional (z_number_range 0 2) (field "temperature" fs);
  mt ← optional z_positive_int (field "max_tokens" fs);
  tp ← optional (z_number_range 0 1) (field "top_p" fs);
  st ← optional z_boolean (field "stream" fs);
  sp ← optional z_stop (field "stop" fs);
  fp ← optional (z_number_range (-2) 2) (field "frequency_penalty" fs);
  pp ← optional (z_number_range (-2) 2) (field "presence_penalty" fs);
  fns ← optional (z_array z_function) (field "functions" fs);
  fc ← optional z_function_call (field "function_call" fs);
  tl ← optional (z_array z_tool) (field "tools" fs);
  rt ← optional z_route (field "route" fs);
  fb ← optional (z_array z_string) (field "fallbacks" fs);
  rf ← optional z_response_format (field "response_format" fs);
  Some (fun ms => mkRequest m (Some ms) t mt tp st sp fp pp fns fc tl rt fb rf).

Inductive ZodResult :=
| ZodOk (data : ModelRequest)
| ZodError.

(** [ModelRequestSchema.parse(body)]; a [ZodError] is thrown when any
    key fails its check. *)
Definition parse (body : JsonValue) : ZodResult :=
  match body with
  | JObj fs =>
      match check_messages fs, check_rest fs with
      | Some ms, Some k => ZodOk (k ms)
      | _, _ => ZodError
      end
  | _ => ZodError
  end.

End Schema.

(** ** analytics.ts *)

Module Analytics.
Import Models.

Record ModelPair := mkPair { requested : string; actual : string }.

Record CachingInfo := mkCachingInfo { hit : bool; caching_ttl : option Z }.

(** [Omit<UsageRecord, 'id' | 'timestamp'>] *)
Record UsageInput := mkUsageInput {
  userId : string;
  used_model : ModelPair;
  tokens : Cache.TokenUsage;
  cost : JsNumber;
  latency : Z;
  success : bool;
  errorType : option string;
  routingStrategy : option RoutingStrategy;
  endpointId : option string;
  cachingInfo : option CachingInfo
}.

Record UsageRecord := mkUsageRecord {
  id : string;
  timestamp : Z;
  record : UsageInput
}.

(** [logUsage] reads the clock and makes one draw for the identifier. *)
Definition logUsage (P : Platform) (x : Q) (now : Z)
    (usageRecords : list UsageRecord) (r : UsageInput) : list UsageRecord :=
  usageRecords
    ++ [mkUsageRecord ("usage_" +:+ show_int P now +:+ "_" +:+ base36_suffix P x) now r].

Record UsageQuery := mkQuery {
  q_userId : option string;
  q_startDate : option Z;
  q_endDate : option Z;
  q_models : option (list string);
  q_endpointId : option string;
  q_limit : option Z;
  q_page : option Z
}.

(** [if (x) results = results.filter(p x)] for an optional string [x]. *)
Definition filter_if_string {A : Type} (x : option string) (p : string -> A -> bool)
    (l : list A) : list A :=
  match x with
  | Some v => if Router.truthy_string v then List.filter (p v) l else l
  | None => l
  end.

Definition filter_if {A B : Type} (x : option B) (p : B -> A -> bool) (l : list A) : list A :=
  match x with
  | Some v => List.filter (p v) l
  | None => l
  end.

(** Truthiness of an optional number. *)
Definition truthy_number (x : option Z) : option Z :=
  match x with
  | Some v => if (v =? 0)%Z then None else Some v
  | None => None
  end.

Definition matches_models (ms : list string) (r : UsageRecord) : bool :=
  Router.includes ms (requested (used_model (record r)))
  || Router.includes ms (actual (used_model (record r))).

Definition queryUsage (usageRecords : list UsageRecord) (query : UsageQuery)
  : list UsageRecord :=
  let r1 := filter_if_string (q_userId query)
              (fun u r => String.eqb (userId (record r)) u) usageRecords in
  let r2 := filter_if (q_startDate query) (fun d r => (d <=? timestamp r)%Z) r1 in
  let r3 := filter_if (q_endDate query) (fun d r => (timestamp r <=? d)%Z) r2 in
  let r4 := match q_models query with
            | Some (m :: ms) => List.filter (matches_models (m :: ms)) r3
            | _ => r3
            end in
  let r5 := filter_if_string (q_endpointId query)
              (fun e r => match endpointId (record r) with
                          | Some e' => String.eqb e' e
                          | None => false
                          end) r4 in
  (* Sort by timestamp (newest first) *)
  let sorted := stable_sort (fun a b => (timestamp b <? timestamp a)%Z) r5 in
  match truthy_number (q_limit query) with
  | Some limit =>
      let page := default 0%Z (truthy_number (q_page query)) in
      let offset := (page * limit)%Z in
      js_slice sorted offset (offset + limit)
  | None => sorted
  end.

(** A value held by the [modelUsage] object: a count, or the string that
    [+ 1] makes of a member inherited from [Object.prototype]. *)
Inductive UsageValue :=
| Count (n : Z)
| Text (s : string).

Record UsageMetrics := mkMetrics {
  totalRequests : nat;
  successfulRequests : nat;
  failedRequests : nat;
  totalTokens : Cache.TokenUsage;
  totalCost : JsNumber;
  averageLatency : Q;
  modelUsage : list (string * UsageValue);
  fallbacks : Z;
  cachingHits : Z
}.

Section WithEngine.
(** [String(Object.prototype[k])] for an inherited method [k]: its source
    text, which depends on the engine. *)
Variable inherited_text : string -> string.

(** [(v || 0) + 1] for an own value [v]. *)
Definition increment (v : UsageValue) : UsageValue :=
  match v with
  | Count n => Count (n + 1)
  | Text s => if String.eqb s "" then Count 1 else Text (s +:+ "1")
  end.

(** [usage[k] = (usage[k] || 0) + 1] on an object literal; the list holds
    its own properties.  Without an own property the read finds what the
    object inherits: for an inherited method the sum is a string, stored as
    a new own property; for [__proto__] the sum is a string as well and the
    assignment, which goes through the inherited setter, stores nothing. *)
Fixpoint bump (k : string) (usage : list (string * UsageValue))
  : list (string * UsageValue) :=
  match usage with
  | [] =>
      if String.eqb k "__proto__" then []
      else if is_prototype_name k then [(k, Text (inherited_text k +:+ "1"))]
      else [(k, Count 1)]
  | (k', v) :: rest =>
      if String.eqb k k' then (k', increment v) :: rest else (k', v) :: bump k rest
  end.

Definition cache_hit (r : UsageRecord) : bool :=
  match cachingInfo (record r) with
  | Some c => hit c
  | None => false
  end.

(** One turn of the aggregation loop; the accumulator carries the metrics
    and [totalLatency]. *)
Definition accumulate (acc : UsageMetrics * Z) (r : UsageRecord) : UsageMetrics * Z :=
  let (m, totalLatency) := acc in
  let t := tokens (record r) in
  (mkMetrics (totalRequests m) (successfulRequests m) (failedRequests m)
     (Cache.mkTokenUsage (Cache.input (totalTokens m) + Cache.input t)
                         (Cache.output (totalTokens m) + Cache.output t)
                         (Cache.total (totalTokens m) + Cache.total t))
     (number_add (totalCost m) (cost (record r)))
     (averageLatency m)
     (bump (requested (used_model (record r))) (modelUsage m))
     (if String.eqb (requested (used_model (record r))) (actual (used_model (record r)))
      then fallbacks m else (fallbacks m + 1)%Z)
     (if cache_hit r then (cachingHits m + 1)%Z else cachingHits m),
   (totalLatency + latency (record r))%Z).

Definition getMetrics (usageRecords : list UsageRecord) (query : UsageQuery) : UsageMetrics :=
  let records := queryUsage usageRecords query in
  let start :=
    mkMetrics (length records)
              (length (List.filter (fun r => success (record r)) records))
              (length (List.filter (fun r => negb (success (record r))) records))
              (Cache.mkTokenUsage 0 0 0) (Num 0) 0 [] 0 0 in
  let (m, totalLatency) := fold_left accumulate records (start, 0%Z) in
  mkMetrics (totalRequests m) (successfulRequests m) (failedRequests m) (totalTokens m)
            (totalCost m)
            (match records with
             | [] => 0
             | _ => inject_Z totalLatency / inject_Z (Z.of_nat (length records))
             end)%Q
            (modelUsage m) (fallbacks m) (cachingHits m).

End WithEngine.

End Analytics.

(** ** The webhooks service *)

Module Webhooks.
Import Models.

Inductive WebhookEventType :=
| request_created | request_completed | request_failed
| model_unavailable | model_fallback
| endpoint_created | endpoint_updated | endpoint_deleted
| credit_low | error.

Definition event_type_eqb (a b : WebhookEventType) : bool :=
  match a, b with
  | request_created, request_created | request_completed, request_completed
  | request_failed, request_failed | model_unavailable, model_unavailable
  | model_fallback, model_fallback | endpoint_created, endpoint_created
  | endpoint_updated, endpoint_updated | endpoint_deleted, endpoint_deleted
  | credit_low, credit_low | error, error => true
  | _, _ => false
  end.

Record LastStatus := mkLastStatus {
  ls_success : bool;
  ls_timestamp : Z;
  ls_statusCode : option Z;
  ls_message : option string
}.

Record WebhookConfig := mkWebhook {
  id : string;
  url : string;
  userId : string;
  name : string;
  description : option string;
  createdAt : Z;
  updatedAt : Z;
  events : list WebhookEventType;
  secret : option string;
  active : bool;
  headers : option (list (string * string));
  retries : Z;
  lastStatus : option LastStatus
}.

Record WebhookEvent := mkEvent {
  event_id : string;
  event_timestamp : Z;
  event_userId : string;
  event_type : WebhookEventType;
  data : JsonValue
}.

Record WebhookDelivery := mkDelivery {
  delivery_id : string;
  webhookId : string;
  eventId : string;
  delivery_timestamp : Z;
  success : bool;
  statusCode : option Z;
  responseBody : option string;
  attempt : Z;
  nextRetry : option Z
}.

(** The service: the webhook [Map] in insertion order, the event log and
    the delivery log. *)
Record Service := mkService {
  webhooks : list (string * WebhookConfig);
  event_log : list WebhookEvent;
  deliveries : list WebhookDelivery
}.

Definition initial : Service := mkService [] [] [].

(** [Map.set]: an existing key keeps its position. *)
Fixpoint map_set {A : Type} (k : string) (v : A) (l : list (string * A)) : list (string * A) :=
  match l with
  | [] => [(k, v)]
  | (k', v') :: rest =>
      if String.eqb k k' then (k, v) :: rest else (k', v') :: map_set k v rest
  end.

(** *** Subscriptions and history *)

Record CreateOptions := mkCreateOptions {
  co_description : option string;
  co_secret : option string;
  co_headers : option (list (string * string));
  co_retries : option Z
}.

(** [i] is the identifier generated for the webhook; [options.retries || 3]. *)
Definition createWebhook (s : Service) (userId_ url_ name_ : string)
    (events_ : list WebhookEventType) (options : CreateOptions) (i : string) (now : Z)
  : WebhookConfig * Service :=
  let webhook :=
    mkWebhook i url_ userId_ name_ (co_description options) now now events_
              (co_secret options) true (co_headers options)
              (match co_retries options with
               | Some r => if (r =? 0)%Z then 3%Z else r
               | None => 3%Z
               end)
              None in
  (webhook, mkService (map_set i webhook (webhooks s)) (event_log s) (deliveries s)).

Definition getWebhook (s : Service) (i : string) : option WebhookConfig :=
  assoc i (webhooks s).

(** [Map.delete] *)
Fixpoint map_delete {A : Type} (k : string) (l : list (string * A)) : list (string * A) :=
  match l with
  | [] => []
  | (k', v) :: rest => if String.eqb k k' then rest else (k', v) :: map_delete k rest
  end.

Record WebhookQuery := mkWebhookQuery {
  wq_userId : option string;
  wq_eventType : option WebhookEventType;
  wq_active : option bool
}.

Definition listWebhooks (s : Service) (query : WebhookQuery) : list WebhookConfig :=
  let r1 := Analytics.filter_if_string (wq_userId query)
              (fun u w => String.eqb (userId w) u) (map snd (webhooks s)) in
  let r2 := Analytics.filter_if (wq_eventType query)
              (fun t w => existsb (event_type_eqb t) (events w)) r1 in
  Analytics.filter_if (wq_active query) (fun a w => Bool.eqb (active w) a) r2.

(** [if (limit) results = results.slice(0, limit)] *)
Definition take_limit {A : Type} (limit : option Z) (l : list A) : list A :=
  match Analytics.truthy_number limit with
  | Some n => js_slice l 0 n
  | None => l
  end.

Definition getEvents (s : Service) (userId_ : string) (limit : option Z)
    (eventType : option WebhookEventType) : list WebhookEvent :=
  let r1 := List.filter (fun e => String.eqb (event_userId e) userId_) (event_log s) in
  let r2 := Analytics.filter_if eventType (fun t e => event_type_eqb (event_type e) t) r1 in
  take_limit limit
    (stable_sort (fun a b => (event_timestamp b <? event_timestamp a)%Z) r2).

Definition getDeliveries (s : Service) (userId_ : string) (webhookId_ : option string)
    (limit : option Z) (onlyFailed : option bool) : list WebhookDelivery :=
  let userWebhookIds :=
    map id (List.filter (fun w => String.eqb (userId w) userId_) (map snd (webhooks s))) in
  let r1 := List.filter (fun d => Router.includes userWebhookIds (webhookId d))
                        (deliveries s) in
  let r2 := Analytics.filter_if_string webhookId_
              (fun i d => String.eqb (webhookId d) i) r1 in
  let r3 := if default false onlyFailed then List.filter (fun d => negb (success d)) r2
            else r2 in
  take_limit limit
    (stable_sort (fun a b => (delivery_timestamp b <? delivery_timestamp a)%Z) r3).

Section WithPlatform.
Variable P : Platform.
Variable random : nat -> Q.

Definition with_lastStatus (w : WebhookConfig) (s : LastStatus) : WebhookConfig :=
  mkWebhook (id w) (url w) (userId w) (name w) (description w) (createdAt w) (updatedAt w)
            (events w) (secret w) (active w) (headers w) (retries w) (Some s).

(** One simulated delivery attempt: two draws, one for the identifier
    and one for the outcome. *)
Definition deliverEvent (webhook : WebhookConfig) (event : WebhookEvent)
    (attemptNumber : Z) (now : Z) (st : Service * nat) : Service * nat :=
  let (s, n) := st in
  let deliveryId := "delivery_" +:+ show_int P now +:+ "_" +:+ base36_suffix P (random n) in
  let ok := num_lt (2 # 10) (random (S n)) in
  let status := if ok then 200%Z else 500%Z in
  let body := if ok then "Webhook received" else "Internal server error" in
  let retry :=
    if negb ok && (attemptNumber <? retries webhook)%Z
    then Some (now + 2 ^ attemptNumber * 1000)%Z else None in
  let delivery :=
    mkDelivery deliveryId (id webhook) (event_id event) now ok (Some status) (Some body)
               attemptNumber retry in
  (mkService
     (map_set (id webhook)
              (with_lastStatus webhook (mkLastStatus ok now (Some status) (Some body)))
              (webhooks s))
     (event_log s)
     (deliveries s ++ [delivery]),
   S (S n)).

Definition subscribed (userId_ : string) (type : WebhookEventType) (w : WebhookConfig)
  : bool :=
  active w && String.eqb (userId w) userId_ && existsb (event_type_eqb type) (events w).

(** Appends the event, then delivers it to every eligible webhook. *)
Definition triggerEvent (userId_ : string) (type : WebhookEventType) (d : JsonValue)
    (now : Z) (st : Service * nat) : string * (Service * nat) :=
  let (s, n) := st in
  let eventId := "event_" +:+ show_int P now +:+ "_" +:+ base36_suffix P (random n) in
  let event := mkEvent eventId now userId_ type d in
  let s1 := mkService (webhooks s) (event_log s ++ [event]) (deliveries s) in
  let eligibleWebhooks := List.filter (subscribed userId_ type) (map snd (webhooks s1)) in
  (eventId,
   fold_left (fun acc webhook => deliverEvent webhook event 1 now acc)
             eligibleWebhooks (s1, S n)).

(** Re-attempts a delivery on behalf of the owner of its webhook. *)
Definition retryDelivery (deliveryId userId_ : string) (now : Z) (st : Service * nat)
  : bool * (Service * nat) :=
  let (s, n) := st in
  match List.find (fun d => String.eqb (delivery_id d) deliveryId) (deliveries s) with
  | None => (false, st)
  | Some delivery =>
      match assoc (webhookId delivery) (webhooks s) with
      | None => (false, st)
      | Some webhook =>
          if negb (String.eqb (userId webhook) userId_) then (false, st)
          else
            match List.find (fun e => String.eqb (event_id e) (eventId delivery))
                            (event_log s) with
            | None => (false, st)
            | Some event => (true, deliverEvent webhook event (attempt delivery + 1) now st)
            end
      end
  end.


End WithPlatform.

End Webhooks.

(** ** Webhook management on the objects the handler passes

    The webhooks handler checks the body against its update schema, throws
    the parsed copy away and hands the body itself to [updateWebhook], so
    at run time [updates] is any object. *)

Module WebhookObjects.
Import Models JsObject.

(** The [webhooks] map of the service, in insertion order. *)
Abbreviation Store := (list (string * Object)).

Definition getWebhook (webhooks : Store) (i : string) : option Object :=
  assoc i webhooks.

(** [{ ...webhook, ...updates, updatedAt: new Date() }], stored under [id]
    when [webhook.userId === userId]. *)
Definition updateWebhook (webhooks : Store) (i userId : string) (updates : Object)
    (now : Z) : option Object * Store :=
  match assoc i webhooks with
  | None => (None, webhooks)
  | Some webhook =>
      if negb (is_string (read webhook "userId") userId) then (None, webhooks)
      else
        let updatedWebhook := assign (spread webhook updates) "updatedAt" (Date now) in
        (Some updatedWebhook, Webhooks.map_set i updatedWebhook webhooks)
  end.

Definition deleteWebhook (webhooks : Store) (i userId : string) : bool * Store :=
  match assoc i webhooks with
  | None => (false, webhooks)
  | Some webhook =>
      if negb (is_string (read webhook "userId") userId) then (false, webhooks)
      else (true, Webhooks.map_delete i webhooks)
  end.

End WebhookObjects.

(** ** The batch processor *)

Module Batch.
Import Models.

Inductive Status := pending | processing | completed | failed.
Inductive Priority := low | normal | high.

(** An element of [results]: a response, or [{ error: message }]. *)
Inductive ResultEntry :=
| ResValue (value : ModelResponse)
| ResError (error : string).

Record BatchRequest := mkBatch {
  id : string;
  userId : string;
  requests : list ModelRequest;
  createdAt : Z;
  status : Status;
  priority : Priority;
  completedAt : option Z;
  results : option (list ResultEntry);
  error : option string;
  requestCount : Z;
  completedCount : Z;
  failedCount : Z;
  callbackUrl : option string;
  metadata : option (list (string * JsonValue))
}.

Record BatchRequestOptions := mkBatchOptions {
  opt_priority : option Priority;
  opt_callbackUrl : option string;
  opt_metadata : option (list (string * JsonValue))
}.

(** What [Promise.allSettled] reports for one child. *)
Inductive Settled :=
| Fulfilled (value : ModelResponse)
| Rejected (reason : Error).

(** The local variables of a [processNextBatch] call suspended on the
    chunk that starts at index [run_i]. *)
Record Run := mkRun {
  run_batchId : string;
  run_batch : BatchRequest;
  run_i : nat;
  run_results : list ResultEntry
}.

(** The processor singleton, the suspended call if there is one, and the
    console.  [writes] records every value passed to [batchRequests.set],
    most recent first: these are the updates a reader of the store can
    observe. *)
Record Processor := mkProcessor {
  batchRequests : gmap string BatchRequest;
  processingQueue : list string;
  isProcessing : bool;
  running : option Run;
  console : list string;
  writes : list (string * BatchRequest)
}.

Definition maxConcurrentRequests : nat := 5.

Definition initial : Processor := mkProcessor ∅ [] false None [] [].

(** [this.batchRequests.set(k, b)] *)
Definition store_set (k : string) (b : BatchRequest) (w : Processor) : Processor :=
  mkProcessor (<[k := b]> (batchRequests w)) (processingQueue w) (isProcessing w)
              (running w) (console w) ((k, b) :: writes w).

Definition set_queue (q : list string) (w : Processor) : Processor :=
  mkProcessor (batchRequests w) q (isProcessing w) (running w) (console w) (writes w).

Definition set_isProcessing (b : bool) (w : Processor) : Processor :=
  mkProcessor (batchRequests w) (processingQueue w) b (running w) (console w) (writes w).

Definition set_running (r : option Run) (w : Processor) : Processor :=
  mkProcessor (batchRequests w) (processingQueue w) (isProcessing w) r (console w) (writes w).

Definition console_log (line : string) (w : Processor) : Processor :=
  mkProcessor (batchRequests w) (processingQueue w) (isProcessing w) (running w)
              (console w ++ [line]) (writes w).

(** [{ ...batch, status: 'processing' }] *)
Definition mark_processing (b : BatchRequest) : BatchRequest :=
  mkBatch (id b) (userId b) (requests b) (createdAt b) processing (priority b)
          (completedAt b) (results b) (error b) (requestCount b)
          (completedCount b) (failedCount b) (callbackUrl b) (metadata b).

(** [{ ...currentBatch, completedCount, failedCount }] *)
Definition with_progress (b : BatchRequest) (c f : Z) : BatchRequest :=
  mkBatch (id b) (userId b) (requests b) (createdAt b) (status b) (priority b)
          (completedAt b) (results b) (error b) (requestCount b)
          c f (callbackUrl b) (metadata b).

(** [r.error] used as a condition; a response has no [error] property. *)
Definition has_error (r : ResultEntry) : bool :=
  match r with
  | ResValue _ => false
  | ResError msg => Router.truthy_string msg
  end.

Definition count {A : Type} (p : A -> bool) (l : list A) : Z :=
  Z.of_nat (length (List.filter p l)).

(** [{ ...batch, status: 'completed', completedAt, results, completedCount, failedCount }] *)
Definition mark_completed (b : BatchRequest) (rs : list ResultEntry) (now : Z)
  : BatchRequest :=
  mkBatch (id b) (userId b) (requests b) (createdAt b) completed (priority b)
          (Some now) (Some rs) (error b) (requestCount b)
          (count (fun r => negb (has_error r)) rs) (count has_error rs)
          (callbackUrl b) (metadata b).

(** [{ ...batch, status: 'failed', error, completedAt }] *)
Definition mark_failed (b : BatchRequest) (msg : string) (now : Z) : BatchRequest :=
  mkBatch (id b) (userId b) (requests b) (createdAt b) failed (priority b)
          (Some now) (results b) (Some msg) (requestCount b)
          (completedCount b) (failedCount b) (callbackUrl b) (metadata b).

Definition truthy_opt (s : option string) : bool :=
  match s with
  | Some x => Router.truthy_string x
  | None => false
  end.

(** Only writes a line to the console. *)
Definition sendCallback (batchId : string) (w : Processor) : Processor :=
  match batchRequests w !! batchId with
  | None => w
  | Some batch =>
      match callbackUrl batch with
      | Some u =>
          if Router.truthy_string u
          then console_log ("Sending callback for batch " +:+ batchId +:+ " to " +:+ u) w
          else w
      | None => w
      end
  end.

(** The end of the [try] block: the terminal update and the callback. *)
Definition complete (batchId : string) (batch : BatchRequest) (rs : list ResultEntry)
    (now : Z) (w : Processor) : Processor :=
  let w1 := store_set batchId (mark_completed batch rs now) w in
  if truthy_opt (callbackUrl batch) then sendCallback (id batch) w1 else w1.

(** [processNextBatch], up to its first suspension.  The recursion follows
    the calls the function makes to itself; each one has shifted one
    identifier off the queue.  All the dates of one run to suspension are
    [now]. *)
Fixpoint drain (now : Z) (queue : list string) (w : Processor) : Processor :=
  match queue with
  | [] => set_isProcessing false w
  | batchId :: rest =>
      let w1 := set_queue rest (set_isProcessing true w) in
      if negb (Router.truthy_string batchId) then set_isProcessing false w1
      else
        match batchRequests w1 !! batchId with
        | None => drain now rest (set_isProcessing false w1)
        | Some batch =>
            let w2 := store_set batchId (mark_processing batch) w1 in
            match requests batch with
            | [] =>
                drain now rest (set_isProcessing false (complete batchId batch [] now w2))
            | _ :: _ => set_running (Some (mkRun batchId batch 0 [])) w2
            end
        end
  end.

Definition processNextBatch (now : Z) (w : Processor) : Processor :=
  drain now (processingQueue w) w.

(** [result.reason.message || 'Request failed'] *)
Definition rejection_message (reason : Error) : string :=
  if Router.truthy_string (error_message reason) then error_message reason
  else "Request failed".

(** The loop over [chunkResults]. *)
Fixpoint tally (chunkResults : list Settled) (acc : list ResultEntry * Z * Z)
  : list ResultEntry * Z * Z :=
  match chunkResults with
  | [] => acc
  | r :: rest =>
      let '(rs, c, f) := acc in
      match r with
      | Fulfilled v => tally rest (rs ++ [ResValue v], (c + 1)%Z, f)
      | Rejected reason => tally rest (rs ++ [ResError (rejection_message reason)], c, (f + 1)%Z)
      end
  end.

(** [batch.requests.slice(i, i + maxConcurrentRequests)] *)
Definition chunk_at (b : BatchRequest) (i : nat) : list ModelRequest :=
  firstn maxConcurrentRequests (skipn i (requests b)).

(** The continuation of a suspended call once the promises of its chunk
    have settled.  [settle k r] is the settled result of child [k], whose
    request is [r]. *)
Definition resume (settle : nat -> ModelRequest -> Settled) (now : Z) (w : Processor)
  : Processor :=
  match running w with
  | None => w
  | Some run =>
      let batchId := run_batchId run in
      let batch := run_batch run in
      let chunkResults := imap (fun k r => settle (run_i run + k)%nat r)
                               (chunk_at batch (run_i run)) in
      match batchRequests w !! batchId with
      | None =>
          (* reading [completedCount] of [undefined] throws; the [catch]
             block marks the batch failed *)
          let w1 :=
            store_set batchId
              (mark_failed batch
                 "Cannot read properties of undefined (reading 'completedCount')" now)
              (set_running None w) in
          drain now (processingQueue w1) (set_isProcessing false w1)
      | Some currentBatch =>
          let '(rs, c, f) :=
            tally chunkResults
                  (run_results run, completedCount currentBatch, failedCount currentBatch) in
          let w1 := store_set batchId (with_progress currentBatch c f) w in
          let i' := (run_i run + maxConcurrentRequests)%nat in
          if (i' <? length (requests batch))%nat
          then set_running (Some (mkRun batchId batch i' rs)) w1
          else
            let w2 := complete batchId batch rs now (set_running None w1) in
            drain now (processingQueue w2) (set_isProcessing false w2)
      end
  end.

Definition priorityValue (p : Priority) : Z :=
  match p with high => 0 | normal => 1 | low => 2 end.

(** The insertion loop of [addToProcessingQueue]. *)
Fixpoint enqueue (store : gmap string BatchRequest) (pv : Z) (batchId : string)
    (queue : list string) : list string :=
  match queue with
  | [] => [batchId]
  | q :: rest =>
      match store !! q with
      | Some queuedBatch =>
          if (pv <? priorityValue (priority queuedBatch))%Z then batchId :: q :: rest
          else q :: enqueue store pv batchId rest
      | None => q :: enqueue store pv batchId rest
      end
  end.

Definition addToProcessingQueue (batchId : string) (now : Z) (w : Processor) : Processor :=
  match batchRequests w !! batchId with
  | None => w
  | Some batch =>
      let w1 :=
        set_queue (enqueue (batchRequests w) (priorityValue (priority batch)) batchId
                           (processingQueue w)) w in
      if negb (isProcessing w1) then processNextBatch now w1 else w1
  end.

(** [i] is the identifier generated for the batch. *)
Definition createBatch (userId_ : string) (requests_ : list ModelRequest)
    (options : BatchRequestOptions) (i : string) (now : Z) (w : Processor)
  : BatchRequest * Processor :=
  let batch :=
    mkBatch i userId_ requests_ now pending (default normal (opt_priority options))
            None None None (Z.of_nat (length requests_)) 0 0
            (opt_callbackUrl options) (opt_metadata options) in
  (batch, addToProcessingQueue i now (store_set i batch w)).

Definition getBatch (i : string) (userId_ : string) (w : Processor) : option BatchRequest :=
  match batchRequests w !! i with
  | Some batch => if String.eqb (userId batch) userId_ then Some batch else None
  | None => None
  end.

(** [indexOf] then [splice(index, 1)] *)
Fixpoint remove_first (x : string) (l : list string) : list string :=
  match l with
  | [] => []
  | y :: rest => if String.eqb y x then rest else y :: remove_first x rest
  end.

Definition is_pending (s : Status) : bool :=
  match s with pending => true | _ => false end.

Definition cancelBatch (i : string) (userId_ : string) (now : Z) (w : Processor)
  : bool * Processor :=
  match batchRequests w !! i with
  | None => (false, w)
  | Some batch =>
      if negb (String.eqb (userId batch) userId_) then (false, w)
      else if negb (is_pending (status batch)) then (false, w)
      else
        let w1 := set_queue (remove_first i (processingQueue w)) w in
        (true, store_set i (mark_failed batch "Batch cancelled by user" now) w1)
  end.

(** The body of the one-second interval. *)
Definition tick (now : Z) (w : Processor) : Processor :=
  if negb (isProcessing w) && negb (Nat.eqb (length (processingQueue w)) 0)
  then processNextBatch now w else w.

(** One atomic turn of the processor: a call from outside, the interval,
    or the continuation of the suspended call with the settled results of
    its chunk.  The identifier generated for a new batch is taken to be
    unused. *)
Inductive step : Processor -> Processor -> Prop :=
| step_create userId_ requests_ options i now w :
    batchRequests w !! i = None ->
    step w (snd (createBatch userId_ requests_ options i now w))
| step_cancel i userId_ now w :
    step w (snd (cancelBatch i userId_ now w))
| step_tick now w :
    step w (tick now w)
| step_settle settle now w :
    step w (resume settle now w).

Inductive reachable : Processor -> Prop :=
| reach_initial : reachable initial
| reach_step w w' : reachable w -> step w w' -> reachable w'.

(** The values stored under [i], oldest first. *)
Definition history (i : string) (w : Processor) : list BatchRequest :=
  map snd (List.filter (fun kv => String.eqb (fst kv) i) (rev (writes w))).

(** *** Statistics *)

Record BatchProcessingStats := mkBatchStats {
  totalBatches : nat;
  pendingBatches : nat;
  processingBatches : nat;
  completedBatches : nat;
  failedBatches : nat;
  averageCompletionTime : Q;
  totalRequests : Z;
  totalCompletedRequests : Z;
  totalFailedRequests : Z
}.

Definition status_eqb (a b : Status) : bool :=
  match a, b with
  | pending, pending | processing, processing | completed, completed | failed, failed => true
  | _, _ => false
  end.

Definition sum_of (f : BatchRequest -> Z) (l : list BatchRequest) : Z :=
  fold_left (fun total batch => (total + f batch)%Z) l 0%Z.

(** The time a completed batch took, when it carries a completion date. *)
Definition completion_time (b : BatchRequest) : option Z :=
  match status b, completedAt b with
  | completed, Some t => Some (t - createdAt b)%Z
  | _, _ => None
  end.

(** The batches are enumerated in the order of [map_to_list]; the counts
    and integer sums below do not depend on it. *)
Definition getStats (w : Processor) (userId_ : option string) : BatchProcessingStats :=
  let all := map snd (map_to_list (batchRequests w)) in
  let batches := Analytics.filter_if_string userId_
                   (fun u b => String.eqb (userId b) u) all in
  let n s := length (List.filter (fun b => status_eqb (status b) s) batches) in
  let times := omap completion_time batches in
  mkBatchStats (length batches) (n pending) (n processing) (n completed) (n failed)
    (match times with
     | [] => 0
     | _ => inject_Z (fold_left Z.add times 0%Z) / inject_Z (Z.of_nat (length times))
     end)%Q
    (sum_of requestCount batches) (sum_of completedCount batches)
    (sum_of failedCount batches).

End Batch.

(** ** The services a request handler reaches *)

Module Services.
Import Models.

(** The cache and analytics singletons, the number of [Math.random]
    draws made so far and the wall clock (milliseconds).  Timers are taken
    to fire exactly when they are due. *)
Record State := mkState {
  cacheManager : Cache.CacheManager;
  usageRecords : list Analytics.UsageRecord;
  draws : nat;
  clock : Z
}.

Definition initial : State := mkState Cache.initial [] 0 0.

Definition with_cache (c : Cache.CacheManager) (s : State) : State :=
  mkState c (usageRecords s) (draws s) (clock s).

(** [analyticsService.logUsage(r)] *)
Definition logUsage (P : Platform) (random : nat -> Q) (r : Analytics.UsageInput) (s : State)
  : State :=
  mkState (cacheManager s)
          (Analytics.logUsage P (random (draws s)) (clock s) (usageRecords s) r)
          (S (draws s)) (clock s).

(** [s.includes(sub)] *)
Fixpoint str_includes (sub s : string) : bool :=
  String.prefix sub s
  || match s with
     | EmptyString => false
     | String _ rest => str_includes sub rest
     end.

End Services.

(** ** processRequest of the batch processor *)

Module BatchChild.
Import Models Services.

Definition rates : list (string * (Q * Q)) :=
  [ ("openai/gpt-4o", (5, 15)); ("openai/gpt-4-turbo", (10, 30));
    ("openai/gpt-3.5-turbo", (1#2, 3#2)); ("anthropic/claude-3-opus", (15, 75));
    ("anthropic/claude-3-sonnet", (3, 15)); ("anthropic/claude-3-haiku", (1#4, 5#4));
    ("google/gemini-1.5-pro", (7, 21)); ("google/gemini-1.5-flash", (3#2, 5));
    ("meta-llama/llama-3-70b-instruct", (9#10, 27#10)) ]%Q.

(** [rates[modelId] || defaultRates]: an inherited member is truthy and has
    no [input] or [output], so both products are [NaN]. *)
Definition estimateCost (modelId : string) (inputTokens outputTokens : Z) : JsNumber :=
  let cost_at '(rate_in, rate_out) :=
    Num ((inject_Z inputTokens / 1000000) * rate_in
         + (inject_Z outputTokens / 1000000) * rate_out)%Q in
  match member modelId rates with
  | Own modelRates => cost_at modelRates
  | Missing => cost_at (1, 2)%Q
  | Inherited => NaN
  end.

(** The simulated response time of a model. *)
Definition response_delay (actualModelId : string) : Z :=
  if str_includes "opus" actualModelId then 1500
  else if str_includes "gpt-4" actualModelId then 1200
  else if str_includes "claude-3-sonnet" actualModelId then 1000
  else 500.

(** [!request.stream] *)
Definition not_streaming (request : ModelRequest) : bool :=
  negb (default false (stream request)).

Section WithPlatform.
Variable P : Platform.
Variable random : nat -> Q.

Definition processRequest (request : ModelRequest) (userId : string) (s : State)
  : Batch.Settled * State :=
  (* Check for cached response *)
  let (cachedResponse, cm1) :=
    Cache.getCachedResponse P (cacheManager s) request None (clock s) in
  match cachedResponse with
  | Some c => (Batch.Fulfilled (Cache.response c), with_cache cm1 s)
  | None =>
      (* every probe of the router waits 100 ms and makes one draw *)
      let (routed, n1) := Router.routeRequest random request (draws s) in
      let t0 := (clock s + 100 * Z.of_nat (n1 - draws s))%Z in
      match routed with
      | Throw e =>
          let s1 := mkState cm1 (usageRecords s) n1 t0 in
          (Batch.Rejected e,
           logUsage P random
             (Analytics.mkUsageInput userId
                (Analytics.mkPair (model request) (model request))
                (Cache.mkTokenUsage 0 0 0) (Num 0) 0 false
                (Some (if Router.truthy_string (error_name e) then error_name e
                       else "Error"))
                None None None)
             s1)
      | Ok actualModelId =>
          let startTime := t0 in
          let endTime := (t0 + response_delay actualModelId)%Z in
          let latency := (endTime - startTime)%Z in
          let inputTokens := (Qfloor (random n1 * 200) + 50)%Z in
          let outputTokens := (Qfloor (random (S n1) * 500) + 100)%Z in
          let response :=
            mkResponse ("chatcmpl-" +:+ show_int P endTime) "chat.completion"
              (endTime / 1000)%Z actualModelId
              [mkChoice 0
                 (mkResponseMessage "assistant"
                    ("This is a simulated batch response from " +:+ actualModelId +:+ "."))
                 "stop"]
              (mkUsage inputTokens outputTokens (inputTokens + outputTokens)%Z)
              actualModelId in
          let usage_ := Cache.mkTokenUsage inputTokens outputTokens
                          (inputTokens + outputTokens)%Z in
          (* Cache the response if appropriate *)
          let cm2 :=
            if not_streaming request
            then Cache.setCachedResponse P cm1 request response usage_ None endTime
            else cm1 in
          let s2 := mkState cm2 (usageRecords s) (S (S n1)) endTime in
          (Batch.Fulfilled response,
           logUsage P random
             (Analytics.mkUsageInput userId
                (Analytics.mkPair (model request) actualModelId)
                usage_ (estimateCost actualModelId inputTokens outputTokens) latency true
                None (route request) None
                (Some (Analytics.mkCachingInfo false None)))
             s2)
      end
  end.

End WithPlatform.

End BatchChild.

(** ** The chat completion handler (app/api/v1/chat/route.ts) *)

Module ChatRoute.
Import Models Services.

Inductive ResponseBody :=
| BodyResponse (r : ModelResponse)
| BodyError (msg : string).

Inductive HttpResponse :=
| Json (status : Z) (body : ResponseBody)
| StreamingText (completion : string).

(** What the handler passes to the AI client. *)
Record ClientCall := mkCall {
  call_messages : list (Role * string);
  call_model : string;
  call_temperature : option Q;
  call_maxTokens : option Z;
  call_tools : option (list ToolDecl);
  call_functions : option (list FunctionDecl)
}.

(** What the handler reads from the client's answer, with the time the
    call took and the draws it made. *)
Record Completed := mkCompleted {
  completed_model : string;
  formatted : ModelResponse;
  completed_elapsed : Z;
  completed_draws : nat
}.

Record Streamed := mkStreamed {
  streamed_model : string;
  streamed_completion : string;
  streamed_elapsed : Z;
  streamed_draws : nat
}.

(** The first branch of the handler, taken when the [endpoint] query
    parameter is present: the body goes to the rewriter unparsed. *)
Definition resolve_endpoint (endpoints : Endpoints.Store) (endpointId : string)
    (body : ModelRequest) : HttpResponse + ModelRequest :=
  match Endpoints.applyEndpointToRequest endpoints endpointId body with
  | None => inl (Json 400 (BodyError "Invalid endpoint ID"))
  | Some modelRequest => inr modelRequest
  end.

(** The second branch: a regular request is parsed with the schema. *)
Definition resolve_plain (body : JsonValue) : HttpResponse + ModelRequest :=
  match Schema.parse body with
  | Schema.ZodError => inl (Json 400 (BodyError "Invalid request format"))
  | Schema.ZodOk modelRequest => inr modelRequest
  end.

Definition part_text_of (c : ContentPart) : string :=
  match part_type c with
  | text => default "" (part_text c)
  | image_url => ""
  end.

Definition format_message (m : ChatMessage) : Role * string :=
  (role m,
   match content m with
   | CString s => s
   | CParts parts => String.concat " " (map part_text_of parts)
   end).

Definition chat_rates : list (string * (Q * Q)) :=
  [ ("gpt-4o", (5, 15)); ("gpt-4-turbo", (10, 30)); ("gpt-3.5-turbo", (1#2, 3#2));
    ("claude-3-opus", (15, 75)); ("claude-3-sonnet", (3, 15));
    ("claude-3-haiku", (1#4, 5#4)) ]%Q.

Fixpoint find_rate (modelId : string) (l : list (string * (Q * Q))) : Q * Q :=
  match l with
  | [] => (1, 2)%Q
  | (m, r) :: rest => if str_includes m modelId then r else find_rate modelId rest
  end.

Definition calculateCost (modelId : string) (u : Usage) : Q :=
  let '(rate_in, rate_out) := find_rate modelId chat_rates in
  ((inject_Z (prompt_tokens u) / 1000000) * rate_in
   + (inject_Z (completion_tokens u) / 1000000) * rate_out)%Q.

Definition server_error (e : Error) : HttpResponse :=
  Json 500 (BodyError (if Router.truthy_string (error_message e) then error_message e
                       else "An unexpected error occurred")).

Section WithClient.
Variable P : Platform.
Variable random : nat -> Q.
Variable aiClient_complete : ClientCall -> outcome Completed.
Variable aiClient_stream : ClientCall -> outcome Streamed.

(** The handler from the cache check on. *)
Definition serve (modelRequest : ModelRequest) (userId : string) (s : State)
  : HttpResponse * State :=
  let streaming := default false (stream modelRequest) in
  (* Check for cached response if caching is enabled and not streaming *)
  let (cachedResponse, s1) :=
    if negb streaming then
      let (c, cm) :=
        Cache.getCachedResponse P (cacheManager s) modelRequest None (clock s) in
      (c, with_cache cm s)
    else (None, s) in
  match cachedResponse with
  | Some c =>
      (Json 200 (BodyResponse (Cache.response c)),
       logUsage P random
         (Analytics.mkUsageInput userId
            (Analytics.mkPair (model modelRequest) (Cache.modelId c))
            (Cache.tokenUsage c) (Num 0) 0 true None None None
            (Some (Analytics.mkCachingInfo true None)))
         s1)
  | None =>
      let startTime := clock s1 in
      match messages modelRequest with
      | None =>
          (server_error (TypeError "Cannot read properties of undefined (reading 'map')"),
           s1)
      | Some ms =>
          let messages_ := map format_message ms in
          if streaming then
            match aiClient_stream
                    (mkCall messages_ (model modelRequest) (temperature modelRequest)
                            (max_tokens modelRequest) None None) with
            | Throw e => (server_error e, s1)
            | Ok st =>
                let s2 := mkState (cacheManager s1) (usageRecords s1)
                                  (draws s1 + streamed_draws st)
                                  (clock s1 + streamed_elapsed st)%Z in
                (StreamingText (streamed_completion st),
                 logUsage P random
                   (Analytics.mkUsageInput userId
                      (Analytics.mkPair (model modelRequest) (streamed_model st))
                      (Cache.mkTokenUsage 0 0 0) (Num 0) (clock s2 - startTime)%Z true
                      None None None None)
                   s2)
            end
          else
            match aiClient_complete
                    (mkCall messages_ (model modelRequest) (temperature modelRequest)
                            (max_tokens modelRequest) (tools modelRequest)
                            (functions modelRequest)) with
            | Throw e => (server_error e, s1)
            | Ok done =>
                let endTime := (clock s1 + completed_elapsed done)%Z in
                let latency := (endTime - startTime)%Z in
                let formattedResponse := formatted done in
                let u := usage formattedResponse in
                let usage_ := Cache.mkTokenUsage (prompt_tokens u) (completion_tokens u)
                                                 (total_tokens u) in
                (* Cache the response if appropriate *)
                let cm2 :=
                  Cache.setCachedResponse P (cacheManager s1) modelRequest
                    formattedResponse usage_ None endTime in
                let s2 := mkState cm2 (usageRecords s1)
                                  (draws s1 + completed_draws done) endTime in
                (Json 200 (BodyResponse formattedResponse),
                 logUsage P random
                   (Analytics.mkUsageInput userId
                      (Analytics.mkPair (model modelRequest) (completed_model done))
                      usage_ (Num (calculateCost (completed_model done) u)) latency true
                      None None None
                      (Some (Analytics.mkCachingInfo false None)))
                   s2)
            end
      end
  end.

(** [POST] without an [endpoint] parameter. *)
Definition POST (body : JsonValue) (userId : string) (s : State) : HttpResponse * State :=
  match resolve_plain body with
  | inl response => (response, s)
  | inr modelRequest => serve modelRequest userId s
  end.

(** [POST] with an [endpoint] parameter. *)
Definition POST_endpoint (endpoints : Endpoints.Store) (endpointId : string)
    (body : ModelRequest) (userId : string) (s : State) : HttpResponse * State :=
  match resolve_endpoint endpoints endpointId body with
  | inl response => (response, s)
  | inr modelRequest => serve modelRequest userId s
  end.

End WithClient.

End ChatRoute.

(** ** The AI client (ai-client.ts), up to the provider SDKs *)

Module AiClient.
Import Models.

(** [s.split('/')]: the pieces between the slashes, at least one. *)
Fixpoint split_slash (s : string) : list string :=
  match s with
  | EmptyString => [""]
  | String c rest =>
      if String.eqb (String c "") "/" then "" :: split_slash rest
      else match split_slash rest with
           | piece :: pieces => String c piece :: pieces
           | [] => [String c ""]
           end
  end.

(** [const [provider] = modelId.split('/')] *)
Definition provider_of (modelId : string) : string := hd "" (split_slash modelId).

(** [const [provider, model] = modelId.split('/')]; [model] may be
    [undefined]. *)
Definition mapModelId (modelId : string) : option string := nth_error (split_slash modelId) 1.

Inductive Client := client_openai | client_anthropic.

Definition getClientForModel (modelId : string) : outcome Client :=
  let p := provider_of modelId in
  if String.eqb p "openai" then Ok client_openai
  else if String.eqb p "anthropic" then Ok client_anthropic
  else Throw (PlainError ("Unsupported provider: " +:+ p)).

(** The request the client hands to the router:
    [{ model: requestedModel, messages, ...options }]. *)
Definition router_request (call : ChatRoute.ClientCall) (stream_ : option bool)
  : ModelRequest :=
  mkRequest (ChatRoute.call_model call)
            (Some (map (fun m => mkMessage (fst m) (CString (snd m)) None)
                       (ChatRoute.call_messages call)))
            (ChatRoute.call_temperature call) None None stream_ None None None
            (ChatRoute.call_functions call) None (ChatRoute.call_tools call)
            None None None.

(** What is sent to a provider SDK. *)
Record SdkRequest := mkSdkRequest {
  sdk_model : option string;
  sdk_messages : list (Role * string);
  sdk_temperature : Q;
  sdk_maxTokens : option Z;
  sdk_stream : bool;
  sdk_functions : option (list FunctionDecl);
  sdk_tools : option (list ToolDecl)
}.

Section WithSdk.
Variable random : nat -> Q.
(** The provider's answer type and the two SDK entry points. *)
Variable Completion : Type.
Variable openai_chat : SdkRequest -> outcome Completion.
Variable anthropic_messages : SdkRequest -> outcome Completion.

Record AiResponse := mkAiResponse {
  ai_provider : string;
  ai_model : option string;
  ai_completion : Completion
}.

(** [functions ? { functions } : {}]: an empty array is kept. *)
Definition complete (call : ChatRoute.ClientCall) (stream_ : option bool)
  : Router.R AiResponse :=
  Router.bind (Router.routeRequest random (router_request call stream_)) (fun actualModelId =>
    match getClientForModel actualModelId with
    | Throw e => Router.throw e
    | Ok client =>
        let mappedModel := mapModelId actualModelId in
        let request fns :=
          mkSdkRequest mappedModel (ChatRoute.call_messages call)
            (default (7 # 10) (ChatRoute.call_temperature call))
            (ChatRoute.call_maxTokens call) (default false stream_) fns
            (ChatRoute.call_tools call) in
        match client with
        | client_openai =>
            match openai_chat (request (ChatRoute.call_functions call)) with
            | Ok completion => Router.ret (mkAiResponse "openai" mappedModel completion)
            | Throw e => Router.throw e
            end
        | client_anthropic =>
            match anthropic_messages (request None) with
            | Ok completion => Router.ret (mkAiResponse "anthropic" mappedModel completion)
            | Throw e => Router.throw e
            end
        end
    end).

(** Always enable streaming. *)
Definition stream (call : ChatRoute.ClientCall) : Router.R AiResponse :=
  complete call (Some true).

End WithSdk.

End AiClient.

(** ** The endpoint handler: reading one endpoint *)

Module EndpointRoute.

Inductive Response :=
| Found (endpoint : Endpoints.CustomEndpointConfig)
| NotFound (error : string).

(** [GET] with an [id] parameter. *)
Definition GET_endpoint (endpoints : Endpoints.Store) (endpointId userId : string)
  : Response :=
  match Endpoints.getEndpoint endpoints endpointId with
  | Some endpoint =>
      if negb (String.eqb (Endpoints.owner endpoint) userId) && negb (Endpoints.isPublic endpoint)
      then NotFound "Endpoint not found or access denied"
      else Found endpoint
  | None => NotFound "Endpoint not found or access denied"
  end.

(** The answers of [PUT]: the updated endpoint, or a status with an error
    message. *)
Inductive PutResponse :=
| Updated (endpoint : JsObject.Object) (message : string)
| Refused (status : Z) (error : string).

(** [PUT]: the body is used both for its [id] and, whole, as the update.
    Reading [id] off [null] throws, which the handler turns into status
    500 with the message of the exception; a body that is a number, a
    string, a boolean or an array has no [id].  An [id] that is not a
    string is the key of no endpoint. *)
Definition PUT (endpoints : EndpointObjects.Store) (body : Models.JsonValue)
    (userId : string) (now : Z) : PutResponse * EndpointObjects.Store :=
  match body with
  | Models.JNull =>
      (Refused 500 "Cannot read properties of null (reading 'id')", endpoints)
  | Models.JObj fields =>
      let input := JsObject.of_json fields in
      match JsObject.read input "id" with
      | Some (JsObject.Json v) =>
          if negb (JsObject.truthy v) then (Refused 400 "Endpoint ID is required", endpoints)
          else
            match v with
            | Models.JStr i =>
                match EndpointObjects.updateEndpoint endpoints i input userId now with
                | (Some endpoint, endpoints') =>
                    (Updated endpoint "Custom endpoint updated successfully", endpoints')
                | (None, endpoints') =>
                    (Refused 404 "Endpoint not found or access denied", endpoints')
                end
            | _ => (Refused 404 "Endpoint not found or access denied", endpoints)
            end
      | _ => (Refused 400 "Endpoint ID is required", endpoints)
      end
  | _ => (Refused 400 "Endpoint ID is required", endpoints)
  end.

End EndpointRoute.

(** ** The batch handler (app/api/v1/batch/route.ts) *)

Module BatchRoute.
Import Models.

Inductive Response :=
| Created (batch : Batch.BatchRequest) (validRequests : nat)
          (invalidRequests : option (list JsonValue))
| BadRequest (error : string) (invalidRequests : option (list JsonValue))
| NotFound (error : string)
| Cancelled
| Found (batch : Batch.BatchRequest).

Definition z_priority (j : JsonValue) : option Batch.Priority :=
  match j with
  | JStr "low" => Some Batch.low
  | JStr "normal" => Some Batch.normal
  | JStr "high" => Some Batch.high
  | _ => None
  end.

Section WithUrl.
(** [z.string().url()]: whether the string parses as a URL. *)
Variable is_url : string -> bool.

Definition z_url (j : JsonValue) : option string :=
  match j with
  | JStr s => if is_url s then Some s else None
  | _ => None
  end.

(** [BatchRequestSchema]: the children are checked one by one later. *)
Definition parse_batch (body : JsonValue)
  : option (list JsonValue * Batch.BatchRequestOptions) :=
  match body with
  | JObj fs =>
      rs ← Schema.required (Schema.z_array Some) (Schema.field "requests" fs);
      p ← Schema.optional z_priority (Schema.field "priority" fs);
      c ← Schema.optional z_url (Schema.field "callbackUrl" fs);
      m ← Schema.optional Schema.z_record (Schema.field "metadata" fs);
      Some (rs, Batch.mkBatchOptions p c m)
  | _ => None
  end.

(** The loop over [body.requests]: the children that parse, and the raw
    children that do not, each in the order of the body. *)
Fixpoint validate_children (children : list JsonValue)
  : list ModelRequest * list JsonValue :=
  match children with
  | [] => ([], [])
  | c :: rest =>
      let (valid, invalid) := validate_children rest in
      match Schema.parse c with
      | Schema.ZodOk r => (r :: valid, invalid)
      | Schema.ZodError => (valid, c :: invalid)
      end
  end.

(** [POST]; [i] is the identifier generated for the batch. *)
Definition POST (body : JsonValue) (userId : string) (i : string) (now : Z)
    (w : Batch.Processor) : Response * Batch.Processor :=
  match parse_batch body with
  | None => (BadRequest "Invalid batch request" None, w)
  | Some (children, options) =>
      let (validRequests, invalidRequests) := validate_children children in
      match validRequests with
      | [] => (BadRequest "No valid requests in batch" (Some invalidRequests), w)
      | _ :: _ =>
          let (batch, w') := Batch.createBatch userId validRequests options i now w in
          (Created batch (length validRequests)
                   (match invalidRequests with [] => None | _ => Some invalidRequests end),
           w')
      end
  end.

End WithUrl.

(** [GET] with an [id] parameter. *)
Definition GET_batch (batchId userId : string) (w : Batch.Processor) : Response :=
  match Batch.getBatch batchId userId w with
  | None => NotFound "Batch not found"
  | Some batch => Found batch
  end.

(** [DELETE] with a non-empty [id] parameter. *)
Definition DELETE (batchId userId : string) (now : Z) (w : Batch.Processor)
  : Response * Batch.Processor :=
  let (success, w') := Batch.cancelBatch batchId userId now w in
  if success then (Cancelled, w') else (NotFound "Batch not found or cannot be cancelled", w').

End BatchRoute.

(** ** Statements about requests, and the system as a whole *)

Module Spec.
Import Models.


(** The batch processor next to the webhooks service.  The processor
    holds no reference to the service: a turn of the processor leaves it
    as it is. *)
Record System := mkSystem {
  processor : Batch.Processor;
  hooks : Webhooks.Service
}.

Definition processor_turn (f : Batch.Processor -> Batch.Processor) (s : System) : System :=
  mkSystem (f (processor s)) (hooks s).

(** A platform for running the definitions on examples. *)
Definition demo_platform : Platform :=
  mkPlatform (fun s => s)
             (fun m => role_string (role m))
             (fun r => model r)
             (fun a b => if String.eqb a b then 0%Z else if String.ltb a b then (-1)%Z else 1%Z)
             (fun s => s) (fun s => s)
             (fun _ => "0") (fun _ => "x").

End Spec.

(** ** Batch processor: invariants of the reachable states *)

Module BatchInv.
Import Models Batch.

Definition good (b : BatchRequest) : Prop :=
  (completedCount b + failedCount b <= requestCount b)%Z.

Definition le_counts (b1 b2 : BatchRequest) : Prop :=
  (completedCount b1 <= completedCount b2)%Z /\ (failedCount b1 <= failedCount b2)%Z.

(** Successive elements never lose progress. *)
Definition monotone (l : list BatchRequest) : Prop :=
  forall k b1 b2, l !! k = Some b1 -> l !! S k = Some b2 -> le_counts b1 b2.

Definition store_ok (m : gmap string BatchRequest) : Prop :=
  forall i b, m !! i = Some b ->
    id b = i /\ requestCount b = Z.of_nat (length (requests b)) /\ good b.

Definition queue_ok (m : gmap string BatchRequest) (q : list string) : Prop :=
  NoDup q /\
  forall i, i ∈ q ->
    exists b, m !! i = Some b /\ status b = pending /\
              completedCount b = 0%Z /\ failedCount b = 0%Z.

Definition run_ok (m : gmap string BatchRequest) (busy : bool) (r : option Run) : Prop :=
  match r with
  | None => True
  | Some run =>
      busy = true /\
      exists cur,
        m !! run_batchId run = Some cur /\ status cur = processing /\
        completedCount cur = count (fun r => negb (has_error r)) (run_results run) /\
        failedCount cur = count has_error (run_results run) /\
        length (run_results run) = run_i run /\
        (run_i run < length (requests (run_batch run)))%nat /\
        id (run_batch run) = run_batchId run /\
        requestCount (run_batch run) = Z.of_nat (length (requests (run_batch run))) /\
        requestCount cur = requestCount (run_batch run)
  end.

Definition hist_ok (w : Processor) : Prop :=
  forall i,
    last (history i w) = batchRequests w !! i /\
    Forall good (history i w) /\
    monotone (history i w).

Definition Inv (w : Processor) : Prop :=
  store_ok (batchRequests w) /\
  queue_ok (batchRequests w) (processingQueue w) /\
  run_ok (batchRequests w) (isProcessing w) (running w) /\
  hist_ok w.

End BatchInv.

(** ** Example data *)

Definition demo_request : Models.ModelRequest :=
  Models.mkRequest "openai/gpt-4o"
    (Some [Models.mkMessage Models.user (Models.CString "Hi") None])
    None None None None None None None None None None None None None.

Definition streaming_request : Models.ModelRequest :=
  Models.mkRequest "openai/gpt-4o"
    (Some [Models.mkMessage Models.user (Models.CString "Hi") None])
    None None None (Some true) None None None None None None None None None.


Definition c1_vision_request : Models.ModelRequest :=
  Models.mkRequest "openai/gpt-4-turbo"
    (Some [Models.mkMessage Models.user
             (Models.CParts [Models.mkPart Models.image_url None
                               (Some (Models.mkImageUrl "https://example.com/cat.png" None))])
             None])
    None None None None None None None None None None None None None.

(** Requests that name a member inherited from [Object.prototype] as their
    model: one that requires no feature, one that requires JSON mode. *)
Definition prototype_request : Models.ModelRequest :=
  Models.mkRequest "toString"
    (Some [Models.mkMessage Models.user (Models.CString "Hi") None])
    None None None None None None None None None None None None None.

Definition prototype_json_request : Models.ModelRequest :=
  Models.mkRequest "constructor"
    (Some [Models.mkMessage Models.user (Models.CString "Hi") None])
    None None None None None None None None None None None None
    (Some (Models.mkFormat (Some Models.fmt_json_object))).

Definition demo_parameters : Endpoints.Parameters :=
  Endpoints.mkParameters (Some (7 # 10)) (Some 256%Z) None None None.

(** A private endpoint owned by alice. *)
Definition demo_endpoint : Endpoints.CustomEndpointConfig :=
  Endpoints.mkEndpoint "endpoint_1" "support-bot" "Support assistant"
    "anthropic/claude-3-haiku" ["openai/gpt-3.5-turbo"] Models.r_fallback
    demo_parameters (Some "You are a support agent.") 1000 1000 "alice" false None None.

Definition demo_endpoints : gmap string Endpoints.CustomEndpointConfig :=
  {[ "endpoint_1" := demo_endpoint ]}.

Definition demo_response : Models.ModelResponse :=
  Models.mkResponse "chatcmpl-1" "chat.completion" 1 "openai/gpt-4o" []
    (Models.mkUsage 1 2 3) "openai/gpt-4o".

(** An owner's batches used in the examples: [batch_1] is picked up at
    once, [batch_2] waits behind it. *)
Definition demo_options : Batch.BatchRequestOptions :=
  Batch.mkBatchOptions (Some Batch.high) (Some "https://example.com/hook") None.

Definition one_batch : Batch.Processor :=
  snd (Batch.createBatch "alice" [demo_request] demo_options "batch_1" 1000 Batch.initial).

Definition two_batches : Batch.Processor :=
  snd (Batch.createBatch "alice" [demo_request] demo_options "batch_2" 2000 one_batch).

Definition all_fulfilled (k : nat) (r : Models.ModelRequest) : Batch.Settled :=
  Batch.Fulfilled demo_response.

Definition one_batch_done : Batch.Processor := Batch.resume all_fulfilled 5000 one_batch.

(** alice's webhook, active and subscribed to every event type. *)
Definition demo_webhook : Webhooks.WebhookConfig :=
  Webhooks.mkWebhook "webhook_1" "https://example.com/events" "alice" "all events" None
    500 500
    [ Webhooks.request_created; Webhooks.request_completed; Webhooks.request_failed;
      Webhooks.model_unavailable; Webhooks.model_fallback; Webhooks.endpoint_created;
      Webhooks.endpoint_updated; Webhooks.endpoint_deleted; Webhooks.credit_low;
      Webhooks.error ]
    None true None 3 None.

Definition demo_system : Spec.System :=
  Spec.mkSystem Batch.initial
    (Webhooks.mkService [("webhook_1", demo_webhook)] [] []).

(** The system after alice's batch with a callback URL has run to
    completion. *)
Definition demo_system_done : Spec.System :=
  Spec.processor_turn (Batch.resume all_fulfilled 5000)
    (Spec.processor_turn
       (fun w => snd (Batch.createBatch "alice" [demo_request] demo_options "batch_1" 1000 w))
       demo_system).

(** The services after the same request was answered without streaming at
    time 1000: its response is cached for an hour. *)
Definition warm_services (now : Z) : Services.State :=
  Services.mkState
    (Cache.setCachedResponse Spec.demo_platform Cache.initial demo_request demo_response
       (Cache.mkTokenUsage 1 2 3) None 1000)
    [] 0 now.

(** A request that asks for the cheapest model. *)
Definition cheap_request : Models.ModelRequest :=
  Models.mkRequest "openai/gpt-4o"
    (Some [Models.mkMessage Models.user (Models.CString "Hi") None])
    None None None None None None None None None None (Some Models.r_lowest_cost) None None.

(** The input of a new private endpoint. *)
Definition demo_full_input : Endpoints.CustomEndpointInput :=
  Endpoints.mkFullInput "helper" "A helper" "openai/gpt-4o" [] Models.r_default
    demo_parameters None false None None.

(** The body alice creates an endpoint with, the endpoint stored for it and
    the store that holds it. *)
Definition created_body : list (string * Models.JsonValue) :=
  [ ("name", Models.JStr "support-bot");
    ("baseModel", Models.JStr "anthropic/claude-3-haiku") ].

Definition created_endpoint : JsObject.Object :=
  fst (EndpointObjects.createEndpoint ∅ (JsObject.of_json created_body)
         "alice" "endpoint_1" 1000).

Definition created_store : EndpointObjects.Store :=
  snd (EndpointObjects.createEndpoint ∅ (JsObject.of_json created_body)
         "alice" "endpoint_1" 1000).

(** An update body that names an owner and a creation date, and a plain
    rename. *)
Definition handover_body : Models.JsonValue :=
  Models.JObj
    [ ("id", Models.JStr "endpoint_1");
      ("owner", Models.JStr "mallory");
      ("createdAt", Models.JStr "1999-12-31T00:00:00.000Z") ].

Definition rename_body : Models.JsonValue :=
  Models.JObj
    [ ("id", Models.JStr "endpoint_1"); ("name", Models.JStr "support-bot-v2") ].

(** The endpoint after [handover_body] was applied to it at time 2000. *)
Definition handed_over_endpoint : JsObject.Object :=
  list_to_map
    [ ("id", JsObject.Json (Models.JStr "endpoint_1"));
      ("name", JsObject.Json (Models.JStr "support-bot"));
      ("baseModel", JsObject.Json (Models.JStr "anthropic/claude-3-haiku"));
      ("createdAt", JsObject.Json (Models.JStr "1999-12-31T00:00:00.000Z"));
      ("updatedAt", JsObject.Date 2000);
      ("owner", JsObject.Json (Models.JStr "mallory")) ].

(** A creation body that names an identifier, an owner and a creation
    date. *)
Definition forged_body : list (string * Models.JsonValue) :=
  [ ("name", Models.JStr "support-bot");
    ("baseModel", Models.JStr "anthropic/claude-3-haiku");
    ("id", Models.JStr "endpoint_0");
    ("owner", Models.JStr "mallory");
    ("createdAt", Models.JStr "1999-12-31T00:00:00.000Z") ].

(** alice's webhook as [createWebhook] stores it, and updates that name
    another user. *)
Definition demo_webhook_object : JsObject.Object :=
  list_to_map
    [ ("id", JsObject.Json (Models.JStr "webhook_1"));
      ("url", JsObject.Json (Models.JStr "https://example.com/events"));
      ("userId", JsObject.Json (Models.JStr "alice"));
      ("name", JsObject.Json (Models.JStr "all events"));
      ("description", JsObject.Undefined);
      ("createdAt", JsObject.Date 500);
      ("updatedAt", JsObject.Date 500);
      ("events", JsObject.Json (Models.JArr [Models.JStr "request.completed"]));
      ("secret", JsObject.Undefined);
      ("active", JsObject.Json (Models.JBool true));
      ("headers", JsObject.Undefined);
      ("retries", JsObject.Json (Models.JNum 3)) ].

Definition demo_webhook_objects : list (string * JsObject.Object) :=
  [("webhook_1", demo_webhook_object)].

Definition handover_updates : JsObject.Object :=
  JsObject.of_json
    [ ("id", Models.JStr "webhook_1");
      ("userId", Models.JStr "mallory");
      ("url", Models.JStr "https://evil.example") ].

(** The keys of a JSON body, and the same body with a key the schema does
    not know. *)
Definition demo_body : list (string * Models.JsonValue) :=
  [ ("model", Models.JStr "openai/gpt-4o");
    ("messages",
     Models.JArr [Models.JObj [("role", Models.JStr "user"); ("content", Models.JStr "Hi")]]);
    ("temperature", Models.JNum (7 # 10));
    ("max_tokens", Models.JNum 256) ].

Definition demo_body_extra : list (string * Models.JsonValue) :=
  ("user", Models.JStr "alice") :: demo_body.

(** ** Notions used in the statements *)

(** Every id of the list is the key of a catalog model. *)
Definition all_own (ids : list string) : bool :=
  forallb (fun i => match Models.getModelById i with Models.Own _ => true | _ => false end)
          ids.

(** The probe of [m] made with draw [k] succeeds. *)
Definition probe_ok (random : nat -> Q) (m : string) (k : nat) : Prop :=
  fst (Router.isModelAvailable random m k) = Ok true.

(** The number of records whose requested model is [k], and what the
    per-model usage table holds for that number. *)
Definition requests_for (k : string) (records : list Analytics.UsageRecord) : Z :=
  Z.of_nat (length (List.filter
                      (fun r => String.eqb
                                  (Analytics.requested (Analytics.used_model
                                                          (Analytics.record r))) k)
                      records)).

Definition usage_cell (c : Z) : option Analytics.UsageValue :=
  if (c =? 0)%Z then None else Some (Analytics.Count c).

(** The combined price that [findLowestCostModel] compares. *)
Definition price (m : Models.ModelInfo) : Q :=
  (Models.inputPricing m + Models.outputPricing m)%Q.

(** ** The life cycle of a batch *)

Module BatchShape.
Import Models Batch.

(** What a stored batch carries in each status. *)
Definition shape (b : BatchRequest) : Prop :=
  match status b with
  | pending =>
      completedAt b = None /\ results b = None /\ error b = None /\
      completedCount b = 0%Z /\ failedCount b = 0%Z
  | processing =>
      completedAt b = None /\ results b = None /\ error b = None
  | completed =>
      error b = None /\
      exists rs t,
        results b = Some rs /\ completedAt b = Some t /\
        length rs = length (requests b) /\
        completedCount b = count (fun r => negb (has_error r)) rs /\
        failedCount b = count has_error rs
  | failed =>
      error b = Some "Batch cancelled by user" /\ results b = None /\
      completedCount b = 0%Z /\ failedCount b = 0%Z /\
      exists t, completedAt b = Some t
  end.

(** The status changes [batchRequests.set] makes. *)
Definition legal (s1 s2 : Status) : Prop :=
  match s1, s2 with
  | pending, processing | pending, failed
  | processing, processing | processing, completed => True
  | _, _ => False
  end.

Definition lifecycle (l : list BatchRequest) : Prop :=
  (forall b, head l = Some b -> status b = pending) /\
  (forall k b1 b2, l !! k = Some b1 -> l !! S k = Some b2 -> legal (status b1) (status b2)).

(** The priority value of a queued identifier. *)
Definition rank (m : gmap string BatchRequest) (i : string) : Z :=
  match m !! i with
  | Some b => priorityValue (priority b)
  | None => 0
  end.

Definition sorted_queue (m : gmap string BatchRequest) (q : list string) : Prop :=
  StronglySorted (fun i j => (rank m i <= rank m j)%Z) q.

Definition J (w : Processor) : Prop :=
  (forall i b, batchRequests w !! i = Some b -> shape b) /\
  (forall i b, batchRequests w !! i = Some b -> status b = processing ->
               exists run, running w = Some run /\ run_batchId run = i) /\
  sorted_queue (batchRequests w) (processingQueue w) /\
  (forall i, lifecycle (history i w)) /\
  (forall run, running w = Some run ->
               status (run_batch run) = pending /\ shape (run_batch run)).

(** The entry [processNextBatch] records for a settled child. *)
Definition entry_of (s : Settled) : ResultEntry :=
  match s with
  | Fulfilled v => ResValue v
  | Rejected reason => ResError (rejection_message reason)
  end.

(** [k] continuations in a row, with the same settled results. *)
Fixpoint resume_n (k : nat) (settle : nat -> ModelRequest -> Settled) (now : Z)
    (w : Processor) : Processor :=
  match k with
  | O => w
  | S k' => resume_n k' settle now (resume settle now w)
  end.

End BatchShape.

(** A third batch of low priority, queued behind [batch_2]. *)
Definition three_batches : Batch.Processor :=
  snd (Batch.createBatch "alice" [demo_request]
         (Batch.mkBatchOptions (Some Batch.low) None None) "batch_3" 3000 two_batches).

(** The child of a batch body that the schema accepts. *)
Definition parse_ok (c : Models.JsonValue) : option Models.ModelRequest :=
  match Schema.parse c with
  | Schema.ZodOk r => Some r
  | Schema.ZodError => None
  end.

(** A batch body with one child that parses and one that does not. *)
Definition demo_batch_body : Models.JsonValue :=
  Models.JObj [("requests", Models.JArr [Models.JObj demo_body; Models.JNull]);
               ("priority", Models.JStr "high")].

(** A client answer used in the examples, and a client that always gives
    it. *)
Definition demo_completed : ChatRoute.Completed :=
  ChatRoute.mkCompleted "openai/gpt-4o" demo_response 1200 1.

Definition demo_client (call : ChatRoute.ClientCall) : outcome ChatRoute.Completed :=
  Ok demo_completed.

Definition failing_client (call : ChatRoute.ClientCall) : outcome ChatRoute.Completed :=
  Throw (PlainError "provider down").

Definition no_stream (call : ChatRoute.ClientCall) : outcome ChatRoute.Streamed :=
  Throw (PlainError "not streaming").

(** A call for a model the client has no SDK for. *)
Definition gemini_call : ChatRoute.ClientCall :=
  ChatRoute.mkCall [(Models.user, "Hi")] "google/gemini-1.5-pro" None None None None.

(** * Properties *)

(** ** Router *)

Section RouterFacts.
Import Models Router.
Variable random : nat -> Q.

Lemma all_own_In ids m :
  all_own ids = true -> In m ids -> exists info, getModelById m = Own info.
Proof.
  unfold all_own. rewrite forallb_forall. intros H Hin. specialize (H m Hin).
  destruct (getModelById m) as [info| |]; [eauto|discriminate|discriminate].
Qed.

Lemma assoc_In {A} k (l : list (string * A)) v : assoc k l = Some v -> In (k, v) l.
Proof.
  induction l as [|[k' v'] l IH]; cbn; [discriminate|].
  destruct (String.eqb_spec k k') as [->|Hne].
  - intros [= ->]. now left.
  - intros H. right. auto.
Qed.

Lemma recommended_own k l m :
  getRecommendedFallbacks k = FallbackList l -> In m l ->
  exists info, getModelById m = Own info.
Proof.
  unfold getRecommendedFallbacks, member.
  destruct (assoc k fallbackMap) as [l'|] eqn:E.
  - intros [= <-] Hin. apply assoc_In in E.
    assert (Hall : forallb (fun kv : string * list string => all_own (snd kv)) fallbackMap
                   = true) by reflexivity.
    rewrite forallb_forall in Hall. specialize (Hall _ E). cbn in Hall.
    eapply all_own_In; eassumption.
  - destruct (is_prototype_name k); [discriminate|]. intros [= <-] [].
Qed.


(** A candidate passes only after a successful probe and a successful
    support check; either way one draw is consumed. *)
Lemma usable_true i feats n n' :
  usable random i feats n = (Ok true, n') ->
  n' = S n /\ probe_ok random i n /\ modelSupportsFeatures i feats = Ok true.
Proof.
  unfold probe_ok, usable, bind, isModelAvailable, lift, ret. cbv beta zeta. cbn [fst].
  destruct (num_lt (random n) _).
  - intros [= H <-]. auto.
  - discriminate.
Qed.

Lemma usable_draws i feats n r n' : usable random i feats n = (r, n') -> n' = S n.
Proof.
  unfold usable, bind, isModelAvailable, lift, ret. cbv beta zeta.
  destruct (num_lt (random n) _); now intros [= _ <-].
Qed.








End RouterFacts.


(** A second way out of the catalog: [toString] is not a catalog model,
    yet [models["toString"]] is the method every object inherits, so the
    default strategy returns the id after one probe when the request
    requires no feature; with a feature required the support check
    throws. *)
Example prototype_name_is_routed :
  Router.routeRequest (fun _ => 0%Q) prototype_request 0 = (Ok "toString", 1%nat) /\
  Models.getModelById "toString" = Models.Inherited /\
  Router.routeRequest (fun _ => 0%Q) prototype_json_request 0
    = (Throw (TypeError "Cannot read properties of undefined (reading 'json')"), 1%nat).
Proof. repeat split; vm_compute; reflexivity. Qed.




(** ** Custom endpoints *)

Section EndpointFacts.
Import Models Endpoints.

Lemma fill_fill {A} (current preset : option A) :
  fill (fill current preset) preset = fill current preset.
Proof. destruct preset, current; reflexivity. Qed.

(** Rewriting a rewritten request changes nothing. *)
Lemma applyEndpoint_idempotent endpoint request :
  applyEndpoint endpoint (applyEndpoint endpoint request) = applyEndpoint endpoint request.
Proof.
  destruct request as [m ms t mt tp st sp fp pp fns fc tl rt fb rf].
  destruct endpoint as [i nm d bm efb rs [pt pmt ptp pfp ppp] sys ca ua ow pub key rl].
  unfold applyEndpoint. cbn.
  destruct sys as [prompt|]; [destruct (Router.truthy_string prompt) eqn:Et|];
    destruct fb as [fb|]; destruct efb as [|x efb]; cbn;
    try destruct (has_system ms) eqn:Es; cbn; rewrite ?Es; cbn;
    unfold apply_parameters; cbn; rewrite !fill_fill; reflexivity.
Qed.

End EndpointFacts.

(** C2.  When the endpoint rewriter succeeds on a request, applying it again
    to its result returns that result unchanged. *)
Theorem C2_rewriter_idempotent :
  forall (endpoints : gmap string Endpoints.CustomEndpointConfig) (endpointId : string)
         (r r' : Models.ModelRequest),
    Endpoints.applyEndpointToRequest endpoints endpointId r = Some r' ->
    Endpoints.applyEndpointToRequest endpoints endpointId r' = Some r'.
Proof.
  intros endpoints endpointId r r'. unfold Endpoints.applyEndpointToRequest.
  destruct (endpoints !! endpointId) as [endpoint|]; [|discriminate].
  intros [= <-]. f_equal. apply applyEndpoint_idempotent.
Qed.

Lemma C2_witness :
  Endpoints.applyEndpointToRequest demo_endpoints "endpoint_1"
    (Endpoints.applyEndpoint demo_endpoint demo_request)
  = Some (Endpoints.applyEndpoint demo_endpoint demo_request).
Proof.
  apply (C2_rewriter_idempotent demo_endpoints "endpoint_1" demo_request).
  vm_compute. reflexivity.
Defined.

(** C5, the code at the failing input.  bob is neither the owner of alice's
    private endpoint nor is the endpoint public, yet the chat handler's
    endpoint branch hands him the rewritten request: the preset is applied
    and no error response is produced. *)
Theorem C5_private_endpoint_applied_for_other_caller :
  Endpoints.getEndpoint demo_endpoints "endpoint_1" = Some demo_endpoint /\
  Endpoints.accessible demo_endpoint "bob" = false /\
  ChatRoute.resolve_endpoint demo_endpoints "endpoint_1" demo_request
  = inr (Endpoints.applyEndpoint demo_endpoint demo_request) /\
  Models.model (Endpoints.applyEndpoint demo_endpoint demo_request)
  = "anthropic/claude-3-haiku".
Proof. repeat split; vm_compute; reflexivity. Qed.

(** *** Endpoints as the handlers store them *)

Section EndpointObjectFacts.
Import Models JsObject EndpointObjects.

Lemma read_assign_eq (o : Object) k v : read (assign o k v) k = Some v.
Proof. apply lookup_insert_eq. Qed.

Lemma read_assign_ne (o : Object) k j v : j <> k -> read (assign o k v) j = read o j.
Proof. intros H. apply lookup_insert_ne. congruence. Qed.

(** A spread reads a property off the source when the source has it and
    off the target otherwise. *)
Lemma read_spread (target source : Object) k :
  read (spread target source) k
  = match read source k with Some v => Some v | None => read target k end.
Proof.
  unfold read, spread. rewrite lookup_union.
  destruct (source !! k), (target !! k); reflexivity.
Qed.

Lemma is_string_eq (v : option Value) (s : string) :
  is_string v s = true <-> v = Some (Json (JStr s)).
Proof.
  unfold is_string. split.
  - destruct v as [[|[]| |]|]; try discriminate.
    intros H. apply String.eqb_eq in H. now subst.
  - intros ->. apply String.eqb_refl.
Qed.

(** What an accepted update stores: the body's value for every property
    the body has, the old value for every other one, and the time of the
    update in [updatedAt]. *)
Lemma updateEndpoint_by_owner :
  forall (endpoints : Store) (i : string) (input : Object) (owner : string) (now : Z)
         (endpoint : Object),
    endpoints !! i = Some endpoint ->
    is_string (read endpoint "owner") owner = true ->
    exists endpoint',
      updateEndpoint endpoints i input owner now
        = (Some endpoint', <[i := endpoint']> endpoints) /\
      read endpoint' "updatedAt" = Some (Date now) /\
      (forall k, k <> "updatedAt" ->
         read endpoint' k
         = match read input k with Some v => Some v | None => read endpoint k end) /\
      (forall j, j <> i -> (<[i := endpoint']> endpoints) !! j = endpoints !! j).
Proof.
  intros endpoints i input owner now endpoint He Ho.
  unfold updateEndpoint. rewrite He, Ho. cbn.
  eexists. split; [reflexivity|]. split; [apply read_assign_eq|]. split.
  - intros k Hk. rewrite read_assign_ne by assumption. apply read_spread.
  - intros j Hj. apply lookup_insert_ne. congruence.
Qed.

(** An update of an unknown endpoint, or by anyone whose id is not the
    stored [owner], answers [null] and leaves the store alone. *)
Lemma updateEndpoint_refused :
  forall (endpoints : Store) (i : string) (input : Object) (caller : string) (now : Z),
    (forall endpoint, endpoints !! i = Some endpoint ->
                      is_string (read endpoint "owner") caller = false) ->
    updateEndpoint endpoints i input caller now = (None, endpoints).
Proof.
  intros endpoints i input caller now H. unfold updateEndpoint.
  destruct (endpoints !! i) as [endpoint|]; [|reflexivity].
  now rewrite (H endpoint eq_refl).
Qed.

(** On an input of the declared type the typed [createEndpoint] builds the
    configuration whose object the method builds from the input's object. *)
Lemma createEndpoint_declared_type :
  forall (endpoints : gmap string Endpoints.CustomEndpointConfig)
         (input : Endpoints.CustomEndpointInput) (owner i : string) (now : Z),
    to_object (fst (Endpoints.createEndpoint endpoints input owner i now))
    = fst (createEndpoint (to_object <$> endpoints) (input_object input) owner i now) /\
    to_object <$> snd (Endpoints.createEndpoint endpoints input owner i now)
    = snd (createEndpoint (to_object <$> endpoints) (input_object input) owner i now).
Proof.
  intros endpoints input owner i now.
  assert (E : to_object (fst (Endpoints.createEndpoint endpoints input owner i now))
              = fst (createEndpoint (to_object <$> endpoints) (input_object input)
                       owner i now)).
  { destruct input as [nm d bm fb rs ps sp pub key rl].
    apply map_eq. intros k.
    unfold Endpoints.createEndpoint, createEndpoint, to_object, input_object. cbn [fst].
    cbn [Endpoints.name Endpoints.description Endpoints.baseModel Endpoints.fallbacks
         Endpoints.routingStrategy Endpoints.parameters Endpoints.systemPrompt
         Endpoints.isPublic Endpoints.apiKey Endpoints.rateLimit Endpoints.id
         Endpoints.createdAt Endpoints.updatedAt Endpoints.owner
         Endpoints.in_name Endpoints.in_description Endpoints.in_baseModel
         Endpoints.in_fallbacks Endpoints.in_routingStrategy Endpoints.in_parameters
         Endpoints.in_systemPrompt Endpoints.in_isPublic Endpoints.in_apiKey
         Endpoints.in_rateLimit].
    set (body := of_json _).
    change ((assign (assign (assign (assign body "id" (Json (JStr i)))
                               "createdAt" (Date now)) "updatedAt" (Date now))
               "owner" (Json (JStr owner))) !! k)
      with (read (assign (assign (assign (assign body "id" (Json (JStr i)))
                               "createdAt" (Date now)) "updatedAt" (Date now))
               "owner" (Json (JStr owner))) k).
    change ((assign (assign (assign (spread (assign ∅ "id" (Json (JStr i))) body)
                               "createdAt" (Date now)) "updatedAt" (Date now))
               "owner" (Json (JStr owner))) !! k)
      with (read (assign (assign (assign (spread (assign ∅ "id" (Json (JStr i))) body)
                               "createdAt" (Date now)) "updatedAt" (Date now))
               "owner" (Json (JStr owner))) k).
    destruct (decide (k = "owner")) as [->|H1]; [now rewrite !read_assign_eq|].
    rewrite !(read_assign_ne _ "owner") by assumption.
    destruct (decide (k = "updatedAt")) as [->|H2]; [now rewrite !read_assign_eq|].
    rewrite !(read_assign_ne _ "updatedAt") by assumption.
    destruct (decide (k = "createdAt")) as [->|H3]; [now rewrite !read_assign_eq|].
    rewrite !(read_assign_ne _ "createdAt") by assumption.
    rewrite read_spread.
    assert (Hid : read body "id" = None).
    { subst body. destruct sp, key, rl; vm_compute; reflexivity. }
    destruct (decide (k = "id")) as [->|H4].
    - rewrite Hid, !read_assign_eq. reflexivity.
    - rewrite !(read_assign_ne _ "id") by assumption.
      destruct (read body k); [reflexivity|]. unfold read. now rewrite lookup_empty. }
  split; [exact E|].
  unfold Endpoints.createEndpoint, createEndpoint in *. cbn [fst snd] in *.
  rewrite fmap_insert. now rewrite E.
Qed.

End EndpointObjectFacts.

(** C10, the code at the failing input.  alice owns [endpoint_1], created
    at time 1000.  Her [PUT] whose body names an owner and a creation date
    is accepted, and the stored endpoint then has the body's [owner] and
    [createdAt] in place of its own: the spread copies every key of the
    body, and the handler passes the body as received.  From then on
    alice's updates are refused.  [createEndpoint] writes [owner] and
    [createdAt] after its spread, so the same keys in a creation body
    change neither. *)
Theorem C10_update_overwrites_owner_and_createdAt :
  EndpointObjects.getEndpoint created_store "endpoint_1" = Some created_endpoint /\
  JsObject.read created_endpoint "owner" = Some (JsObject.Json (Models.JStr "alice")) /\
  JsObject.read created_endpoint "createdAt" = Some (JsObject.Date 1000) /\
  EndpointRoute.PUT created_store handover_body "alice" 2000
  = (EndpointRoute.Updated handed_over_endpoint "Custom endpoint updated successfully",
     <["endpoint_1" := handed_over_endpoint]> created_store) /\
  JsObject.read handed_over_endpoint "owner" = Some (JsObject.Json (Models.JStr "mallory")) /\
  JsObject.read handed_over_endpoint "createdAt"
  = Some (JsObject.Json (Models.JStr "1999-12-31T00:00:00.000Z")) /\
  EndpointRoute.PUT (<["endpoint_1" := handed_over_endpoint]> created_store)
    rename_body "alice" 3000
  = (EndpointRoute.Refused 404 "Endpoint not found or access denied",
     <["endpoint_1" := handed_over_endpoint]> created_store) /\
  JsObject.read
    (fst (EndpointObjects.createEndpoint ∅ (JsObject.of_json forged_body)
            "alice" "endpoint_1" 1000)) "owner"
  = Some (JsObject.Json (Models.JStr "alice")) /\
  JsObject.read
    (fst (EndpointObjects.createEndpoint ∅ (JsObject.of_json forged_body)
            "alice" "endpoint_1" 1000)) "createdAt"
  = Some (JsObject.Date 1000).
Proof. repeat split; vm_compute; reflexivity. Qed.

(** ** Response cache *)

Section CacheFacts.
Import Models Cache.
Variable P : Platform.

Lemma merge_after_set cm request resp usage_ options now :
  defaultOptions (setCachedResponse P cm request resp usage_ options now) = defaultOptions cm.
Proof.
  unfold setCachedResponse.
  destruct (negb (on (cachingEnabled (merge (defaultOptions cm) options)))); reflexivity.
Qed.

Lemma get_hit cm request options now c :
  on (cachingEnabled (merge (defaultOptions cm) options)) = true ->
  cache cm !! generateCacheKey P request (merge (defaultOptions cm) options) = Some c ->
  (now < expiresAt c)%Z ->
  getCachedResponse P cm request options now = (Some c, cm).
Proof.
  intros He Hc Hlt. unfold getCachedResponse. rewrite He, Hc. cbn.
  apply Z.ltb_lt in Hlt. now rewrite Hlt.
Qed.

Lemma get_expired cm request options now c :
  on (cachingEnabled (merge (defaultOptions cm) options)) = true ->
  cache cm !! generateCacheKey P request (merge (defaultOptions cm) options) = Some c ->
  (expiresAt c <= now)%Z ->
  getCachedResponse P cm request options now
  = (None,
     mkCache (delete (generateCacheKey P request (merge (defaultOptions cm) options)) (cache cm))
             (defaultOptions cm)).
Proof.
  intros He Hc Hle. unfold getCachedResponse. rewrite He, Hc. cbn.
  apply Z.ltb_ge in Hle. now rewrite Hle.
Qed.

Lemma get_absent cm request options now :
  cache cm !! generateCacheKey P request (merge (defaultOptions cm) options) = None ->
  getCachedResponse P cm request options now = (None, cm).
Proof.
  intros Hc. unfold getCachedResponse. rewrite Hc.
  now destruct (negb (on (cachingEnabled (merge (defaultOptions cm) options)))).
Qed.

Lemma set_stores cm request resp usage_ options now :
  on (cachingEnabled (merge (defaultOptions cm) options)) = true ->
  cache (setCachedResponse P cm request resp usage_ options now)
    !! generateCacheKey P request (merge (defaultOptions cm) options)
  = Some (mkCached (model request) resp now
            (now + ttl (merge (defaultOptions cm) options))%Z usage_).
Proof.
  intros He. unfold setCachedResponse. rewrite He. cbn. apply lookup_insert_eq.
Qed.

End CacheFacts.

(** C3.  With caching enabled, [getCachedResponse] returns an entry exactly
    when one is stored under the request's fingerprint and expires strictly
    after the current time; an expired entry is removed by the access; after
    [setCachedResponse] with a positive ttl, a lookup with the same options
    returns the stored response until the ttl has elapsed and nothing from
    then on. *)
Theorem C3_cache_contract :
  forall (P : Models.Platform) (cm : Cache.CacheManager) (r : Models.ModelRequest)
         (options : option Cache.PartialOptions) (now : Z),
    let merged := Cache.merge (Cache.defaultOptions cm) options in
    let key := Cache.generateCacheKey P r merged in
    Cache.on (Cache.cachingEnabled merged) = true ->
    (forall c, fst (Cache.getCachedResponse P cm r options now) = Some c <->
               Cache.cache cm !! key = Some c /\ (now < Cache.expiresAt c)%Z) /\
    (forall c, Cache.cache cm !! key = Some c -> (Cache.expiresAt c <= now)%Z ->
               Cache.cache (snd (Cache.getCachedResponse P cm r options now)) !! key = None) /\
    (forall resp usage_ now',
        (0 < Cache.ttl merged)%Z ->
        let cm' := Cache.setCachedResponse P cm r resp usage_ options now in
        (exists c, fst (Cache.getCachedResponse P cm' r options now) = Some c /\
                   Cache.response c = resp) /\
        ((now <= now' < now + Cache.ttl merged)%Z ->
         exists c, fst (Cache.getCachedResponse P cm' r options now') = Some c /\
                   Cache.response c = resp) /\
        ((now + Cache.ttl merged <= now')%Z ->
         fst (Cache.getCachedResponse P cm' r options now') = None)).
Proof.
  intros P cm r options now merged key He.
  split; [|split].
  - intros c. split.
    + unfold Cache.getCachedResponse. fold merged. rewrite He. cbn. fold key.
      destruct (Cache.cache cm !! key) as [c0|]; [|discriminate].
      destruct (now <? Cache.expiresAt c0)%Z eqn:E; [|discriminate].
      cbn. intros [= <-]. split; [reflexivity|]. now apply Z.ltb_lt.
    + intros [Hc Hlt]. now rewrite (get_hit P cm r options now c He Hc Hlt).
  - intros c Hc Hle. rewrite (get_expired P cm r options now c He Hc Hle).
    cbn. apply lookup_delete_eq.
  - intros resp usage_ now' Httl cm'.
    assert (Hd : Cache.defaultOptions cm' = Cache.defaultOptions cm)
      by apply merge_after_set.
    assert (He' : Cache.on (Cache.cachingEnabled
                              (Cache.merge (Cache.defaultOptions cm') options)) = true)
      by (rewrite Hd; exact He).
    pose proof (set_stores P cm r resp usage_ options now He) as Hs.
    fold cm' merged in Hs. fold key in Hs.
    assert (Hs' : Cache.cache cm'
                    !! Cache.generateCacheKey P r
                         (Cache.merge (Cache.defaultOptions cm') options)
                  = Some (Cache.mkCached (Models.model r) resp now
                            (now + Cache.ttl merged)%Z usage_))
      by (rewrite Hd; exact Hs).
    split; [|split].
    + eexists. rewrite (get_hit P cm' r options now _ He' Hs'); [split; reflexivity|].
      cbn. lia.
    + intros Hin. eexists.
      rewrite (get_hit P cm' r options now' _ He' Hs'); [split; reflexivity|].
      cbn. lia.
    + intros Hout. rewrite (get_expired P cm' r options now' _ He' Hs'); [reflexivity|].
      cbn. lia.
Qed.

Lemma C3_witness :
  exists c,
    fst (Cache.getCachedResponse Spec.demo_platform
           (Cache.setCachedResponse Spec.demo_platform Cache.initial demo_request
              (Models.mkResponse "chatcmpl-1" "chat.completion" 1 "openai/gpt-4o" []
                 (Models.mkUsage 1 2 3) "openai/gpt-4o")
              (Cache.mkTokenUsage 1 2 3) None 1000)
           demo_request None 1000) = Some c /\
    Cache.response c
    = Models.mkResponse "chatcmpl-1" "chat.completion" 1 "openai/gpt-4o" []
        (Models.mkUsage 1 2 3) "openai/gpt-4o".
Proof.
  destruct (C3_cache_contract Spec.demo_platform Cache.initial demo_request None 1000)
    as (_ & _ & Hset); [reflexivity|].
  destruct (Hset (Models.mkResponse "chatcmpl-1" "chat.completion" 1 "openai/gpt-4o" []
                    (Models.mkUsage 1 2 3) "openai/gpt-4o")
                 (Cache.mkTokenUsage 1 2 3) 1000%Z) as (Hnow & _ & _); [reflexivity|].
  exact Hnow.
Defined.

(** ** Batch processor *)

Section BatchFacts.
Import Models Batch BatchInv.

Lemma history_store_set i k b w :
  history i (store_set k b w)
  = history i w ++ (if String.eqb k i then [b] else []).
Proof.
  unfold history. cbn. rewrite rev_unit || idtac. rewrite List.filter_app, List.map_app. cbn.
  destruct (String.eqb k i); reflexivity.
Qed.

Lemma monotone_snoc l b :
  monotone l -> (forall x, last l = Some x -> le_counts x b) -> monotone (l ++ [b]).
Proof.
  intros Hm Hl k b1 b2 H1 H2.
  destruct (decide (S k < length l)%nat) as [Hlt|Hge].
  - rewrite lookup_app_l in H1 by lia. rewrite lookup_app_l in H2 by lia. eauto.
  - assert (k < length l)%nat as Hk.
    { destruct (decide (k < length l)%nat); [assumption|].
      rewrite lookup_app_r in H1 by lia.
      apply lookup_lt_Some in H2. rewrite length_app in H2. cbn in H2. lia. }
    rewrite lookup_app_l in H1 by lia.
    rewrite lookup_app_r in H2 by lia.
    assert (S k - length l = 0)%nat as E by lia. rewrite E in H2. cbn in H2.
    injection H2 as <-. apply Hl. rewrite last_lookup.
    assert (pred (length l) = k) as -> by lia. exact H1.
Qed.

Lemma hist_ok_store_set w k b :
  hist_ok w -> good b ->
  (forall x, batchRequests w !! k = Some x -> le_counts x b) ->
  hist_ok (store_set k b w).
Proof.
  intros H Hg Hle i. destruct (H i) as (Hlast & Hall & Hmono).
  rewrite history_store_set. cbn [batchRequests store_set].
  destruct (String.eqb_spec k i) as [->|Hne].
  - rewrite last_snoc, lookup_insert_eq. split; [reflexivity|]. split.
    + apply Forall_app. split; [assumption|]. constructor; [assumption|constructor].
    + apply monotone_snoc; [assumption|]. intros x Hx. apply Hle. now rewrite <- Hlast.
  - rewrite app_nil_r, lookup_insert_ne by assumption. auto.
Qed.

Lemma count_split {A} (p : A -> bool) l :
  (count p l + count (fun x => negb (p x)) l = Z.of_nat (length l))%Z.
Proof.
  unfold count. induction l as [|x l IH]; cbn; [reflexivity|].
  destruct (p x); cbn; lia.
Qed.

Lemma count_app {A} (p : A -> bool) l1 l2 :
  count p (l1 ++ l2) = (count p l1 + count p l2)%Z.
Proof. unfold count. rewrite List.filter_app, List.length_app. lia. Qed.

Lemma rejection_message_truthy reason :
  Router.truthy_string (rejection_message reason) = true.
Proof.
  unfold rejection_message.
  destruct (Router.truthy_string (error_message reason)) eqn:E; [exact E|reflexivity].
Qed.

Lemma tally_spec chunkResults rs c f rs' c' f' :
  tally chunkResults (rs, c, f) = (rs', c', f') ->
  (c' - c = count (fun r => negb (has_error r)) rs' - count (fun r => negb (has_error r)) rs)%Z /\
  (f' - f = count has_error rs' - count has_error rs)%Z /\
  length rs' = (length rs + length chunkResults)%nat /\
  (c <= c')%Z /\ (f <= f')%Z.
Proof.
  revert rs c f. induction chunkResults as [|r rest IH]; intros rs c f H.
  - cbn in H. injection H as <- <- <-. cbn. repeat split; lia.
  - cbn in H. destruct r as [v|reason].
    + apply IH in H as (Hc & Hf & Hl & Hcc & Hff).
      rewrite !count_app, length_app in *. cbn in *.
      unfold count in *. cbn in *. repeat split; lia.
    + apply IH in H as (Hc & Hf & Hl & Hcc & Hff).
      rewrite !count_app, length_app in *.
      unfold count in *. cbn in *. rewrite rejection_message_truthy in *. cbn in *.
      repeat split; lia.
Qed.

End BatchFacts.

Section BatchInvariant.
Import Models Batch BatchInv.

Lemma store_ok_insert m k b :
  store_ok m -> id b = k -> requestCount b = Z.of_nat (length (requests b)) -> good b ->
  store_ok (<[k := b]> m).
Proof.
  intros Hm Hid Hrc Hg i x Hx.
  destruct (decide (k = i)) as [->|Hne].
  - rewrite lookup_insert_eq in Hx. injection Hx as <-. auto.
  - rewrite lookup_insert_ne in Hx by assumption. eauto.
Qed.

Lemma queue_ok_insert m k b q :
  queue_ok m q -> k ∉ q -> queue_ok (<[k := b]> m) q.
Proof.
  intros [Hnd Hq] Hk. split; [assumption|].
  intros i Hi. destruct (Hq i Hi) as (x & Hx & Hrest).
  exists x. split; [|assumption].
  rewrite lookup_insert_ne; [assumption|]. intros ->. contradiction.
Qed.

Lemma queue_ok_cons m x q :
  queue_ok m (x :: q) ->
  queue_ok m q /\ (x ∉ q) /\
  exists b, m !! x = Some b /\ status b = pending /\
            completedCount b = 0%Z /\ failedCount b = 0%Z.
Proof.
  intros [Hnd Hq]. apply NoDup_cons in Hnd as [Hx Hnd].
  split; [split; [assumption|]|split; [assumption|]].
  - intros i Hi. apply Hq. now right.
  - apply Hq. now left.
Qed.

Lemma hist_ok_same w w' :
  batchRequests w' = batchRequests w -> writes w' = writes w -> hist_ok w -> hist_ok w'.
Proof.
  intros Hb Hw H i. unfold history. rewrite Hb, Hw. apply H.
Qed.

(** [sendCallback] touches the console only. *)
Lemma sendCallback_console i w :
  exists c, sendCallback i w
            = mkProcessor (batchRequests w) (processingQueue w) (isProcessing w)
                          (running w) c (writes w).
Proof.
  unfold sendCallback. destruct w as [m q p r c ws]. cbn.
  destruct (m !! i) as [b|]; [|eauto].
  destruct (callbackUrl b) as [u|]; [|eauto].
  destruct (Router.truthy_string u); eauto.
Qed.

Lemma complete_fields batchId batch rs now w :
  exists c,
    complete batchId batch rs now w
    = mkProcessor (<[batchId := mark_completed batch rs now]> (batchRequests w))
                  (processingQueue w) (isProcessing w) (running w) c
                  ((batchId, mark_completed batch rs now) :: writes w).
Proof.
  unfold complete. destruct (truthy_opt (callbackUrl batch)).
  - destruct (sendCallback_console (id batch)
                (store_set batchId (mark_completed batch rs now) w)) as [c ->].
    eauto.
  - eexists. reflexivity.
Qed.

(** The terminal update preserves the invariants of the store when it
    agrees with the progress recorded so far. *)
Lemma complete_ok batchId batch rs now w q cur :
  store_ok (batchRequests w) -> hist_ok w -> queue_ok (batchRequests w) q -> (batchId ∉ q) ->
  batchRequests w !! batchId = Some cur ->
  completedCount cur = count (fun r => negb (has_error r)) rs ->
  failedCount cur = count has_error rs ->
  (length rs <= length (requests batch))%nat ->
  id batch = batchId ->
  requestCount batch = Z.of_nat (length (requests batch)) ->
  let w' := complete batchId batch rs now w in
  store_ok (batchRequests w') /\ hist_ok w' /\ queue_ok (batchRequests w') q /\
  processingQueue w' = processingQueue w /\ isProcessing w' = isProcessing w /\
  running w' = running w.
Proof.
  intros Hs Hh Hq Hk Hcur Hc Hf Hlen Hid Hrc w'.
  destruct (complete_fields batchId batch rs now w) as [c E]. subst w'. rewrite E. cbn.
  assert (Hg : good (mark_completed batch rs now)).
  { unfold good. cbn. rewrite Hrc.
    pose proof (count_split has_error rs). lia. }
  split; [apply store_ok_insert; auto|].
  split.
  { eapply hist_ok_same with (w := store_set batchId (mark_completed batch rs now) w);
      [reflexivity|reflexivity|].
    apply hist_ok_store_set; [assumption|assumption|].
    intros x Hx. rewrite Hcur in Hx. injection Hx as <-.
    unfold le_counts. cbn. lia. }
  split; [apply queue_ok_insert; assumption|].
  auto.
Qed.

Lemma drain_inv now q :
  forall w,
    processingQueue w = q -> running w = None ->
    store_ok (batchRequests w) -> queue_ok (batchRequests w) q -> hist_ok w ->
    Inv (drain now q w).
Proof.
  induction q as [|batchId rest IH]; intros w Hq Hr Hs Hqo Hh.
  - cbn. unfold Inv. cbn. rewrite Hq, Hr.
    split; [exact Hs|]. split; [exact Hqo|]. split; [exact I|exact Hh].
  - cbn [drain].
    apply queue_ok_cons in Hqo as (Hrest & Hnotin & batch & Hb & Hst & Hc0 & Hf0).
    destruct (negb (Router.truthy_string batchId)).
    { unfold Inv. cbn. rewrite Hr.
      split; [exact Hs|]. split; [exact Hrest|]. split; [exact I|exact Hh]. }
    cbn [batchRequests set_queue set_isProcessing]. rewrite Hb.
    destruct (Hs _ _ Hb) as (Hid & Hrc & Hg).
    set (w1 := set_queue rest (set_isProcessing true w)).
    set (w2 := store_set batchId (mark_processing batch) w1).
    assert (Hs2 : store_ok (batchRequests w2)) by (apply store_ok_insert; auto).
    assert (Hq2 : queue_ok (batchRequests w2) rest) by (apply queue_ok_insert; auto).
    assert (Hh2 : hist_ok w2).
    { apply hist_ok_store_set; [exact Hh|exact Hg|].
      intros x Hx. cbn in Hx. rewrite Hb in Hx. injection Hx as <-.
      unfold le_counts. cbn. lia. }
    destruct (requests batch) as [|r0 rs0] eqn:Hreq.
    + assert (Hcur2 : batchRequests w2 !! batchId = Some (mark_processing batch))
        by apply lookup_insert_eq.
      assert (Hrc' : requestCount batch = Z.of_nat (length (requests batch)))
        by (rewrite Hreq; exact Hrc).
      assert (Hlen : (length (@nil ResultEntry) <= length (requests batch))%nat)
        by (cbn; lia).
      destruct (complete_ok batchId batch [] now w2 rest (mark_processing batch)
                  Hs2 Hh2 Hq2 Hnotin Hcur2 Hc0 Hf0 Hlen Hid Hrc')
        as (Hs3 & Hh3 & Hq3 & Hpq & Hip & Hrun).
      apply IH.
      * cbn. rewrite Hpq. reflexivity.
      * cbn. rewrite Hrun. exact Hr.
      * exact Hs3.
      * exact Hq3.
      * eapply hist_ok_same; [| |exact Hh3]; reflexivity.
    + unfold Inv. cbn. split; [exact Hs2|]. split; [exact Hq2|]. split; [|exact Hh2].
      split; [reflexivity|].
      exists (mark_processing batch). cbn. rewrite lookup_insert_eq, Hreq. cbn.
      rewrite Hc0, Hf0. repeat split; try reflexivity; try lia; try assumption.
Qed.

Lemma run_ok_insert m k b busy r :
  run_ok m busy r ->
  (forall run, r = Some run -> run_batchId run <> k) ->
  run_ok (<[k := b]> m) busy r.
Proof.
  destruct r as [run|]; [|auto]. cbn.
  intros (Hb & cur & Hcur & Hrest) Hne. split; [assumption|].
  exists cur. split; [|assumption].
  rewrite lookup_insert_ne; [assumption|]. intros E. now apply (Hne run eq_refl).
Qed.

Lemma enqueue_elem store pv i q x :
  x ∈ enqueue store pv i q <-> x = i \/ x ∈ q.
Proof.
  induction q as [|y rest IH]; cbn.
  - rewrite list_elem_of_singleton. rewrite elem_of_nil. tauto.
  - destruct (store !! y) as [qb|].
    + destruct (pv <? priorityValue (priority qb))%Z.
      * rewrite !elem_of_cons. tauto.
      * rewrite !elem_of_cons, IH. tauto.
    + rewrite !elem_of_cons, IH. tauto.
Qed.

Lemma enqueue_NoDup store pv i q :
  NoDup q -> i ∉ q -> NoDup (enqueue store pv i q).
Proof.
  induction q as [|y rest IH]; cbn; intros Hnd Hi.
  - apply NoDup_singleton.
  - apply NoDup_cons in Hnd as [Hy Hnd].
    apply not_elem_of_cons in Hi as [Hne Hi].
    assert (NoDup (y :: enqueue store pv i rest)) as Hgo.
    { apply NoDup_cons. split; [|auto].
      rewrite enqueue_elem. intros [->|H]; [congruence|contradiction]. }
    destruct (store !! y) as [qb|]; [|exact Hgo].
    destruct (pv <? priorityValue (priority qb))%Z; [|exact Hgo].
    apply NoDup_cons. split.
    + apply not_elem_of_cons. split; [congruence|assumption].
    + apply NoDup_cons. auto.
Qed.

Lemma remove_first_elem i q x :
  NoDup q -> (x ∈ remove_first i q <-> x ∈ q /\ x <> i).
Proof.
  induction q as [|y rest IH]; cbn; intros Hnd.
  - rewrite elem_of_nil. tauto.
  - apply NoDup_cons in Hnd as [Hy Hnd].
    destruct (String.eqb_spec y i) as [->|Hne].
    + rewrite elem_of_cons. split.
      * intros H. split; [now right|]. intros ->. contradiction.
      * intros [[->|H] Hx]; [contradiction|assumption].
    + rewrite !elem_of_cons, IH by assumption. split.
      * intros [->|[H1 H2]]; [split; [now left|assumption]|split; [now right|assumption]].
      * intros [[->|H] Hx]; [now left|right; split; assumption].
Qed.

Lemma remove_first_NoDup i q : NoDup q -> NoDup (remove_first i q).
Proof.
  induction q as [|y rest IH]; cbn; intros Hnd; [assumption|].
  apply NoDup_cons in Hnd as [Hy Hnd].
  destruct (String.eqb_spec y i) as [->|Hne]; [assumption|].
  apply NoDup_cons. split; [|auto].
  rewrite remove_first_elem by assumption. tauto.
Qed.

Lemma idle_not_running w :
  Inv w -> isProcessing w = false -> running w = None.
Proof.
  intros (_ & _ & Hr & _) Hb. destruct (running w) as [run|]; [|reflexivity].
  cbn in Hr. destruct Hr as [Hr _]. congruence.
Qed.

Lemma processNextBatch_inv now w :
  Inv w -> isProcessing w = false -> Inv (processNextBatch now w).
Proof.
  intros HI Hb. pose proof (idle_not_running w HI Hb) as Hr.
  destruct HI as (Hs & Hq & _ & Hh).
  apply drain_inv; auto.
Qed.

Lemma initial_inv : Inv initial.
Proof.
  unfold Inv, initial. cbn.
  split; [intros i b H; rewrite lookup_empty in H; discriminate|].
  split; [split; [constructor|intros i H; apply elem_of_nil in H; contradiction]|].
  split; [exact I|].
  intros i. unfold history. cbn. rewrite lookup_empty.
  split; [reflexivity|]. split; [constructor|].
  intros k b1 b2 H. rewrite lookup_nil in H. discriminate.
Qed.

Lemma createBatch_inv userId_ requests_ options i now w :
  Inv w -> batchRequests w !! i = None ->
  Inv (snd (createBatch userId_ requests_ options i now w)).
Proof.
  intros HI Hfresh. pose proof HI as (Hs & Hq & Hr & Hh).
  unfold createBatch. cbn [snd].
  set (batch := mkBatch i userId_ requests_ now pending _ None None None _ 0 0 _ _).
  set (w0 := store_set i batch w).
  assert (Hi : i ∉ processingQueue w).
  { intros Hin. destruct Hq as [_ Hq]. destruct (Hq i Hin) as (b & Hb & _). congruence. }
  assert (Hg : good batch) by (unfold good; cbn; lia).
  assert (Hs0 : store_ok (batchRequests w0)) by (apply store_ok_insert; auto).
  assert (Hh0 : hist_ok w0).
  { apply hist_ok_store_set; [assumption|assumption|]. intros x Hx. congruence. }
  assert (Hr0 : run_ok (batchRequests w0) (isProcessing w0) (running w0)).
  { apply run_ok_insert; [exact Hr|]. intros run Hrun Heq. cbn in Hrun.
    rewrite Hrun in Hr. cbn in Hr. destruct Hr as (_ & cur & Hcur & _). congruence. }
  unfold addToProcessingQueue. cbn [batchRequests w0 store_set]. rewrite lookup_insert_eq.
  fold w0.
  set (q1 := enqueue _ _ i _).
  assert (Hq1 : queue_ok (batchRequests w0) q1).
  { split.
    - apply enqueue_NoDup; [apply Hq|exact Hi].
    - intros x Hx. apply enqueue_elem in Hx as [->|Hx].
      + exists batch. cbn. rewrite lookup_insert_eq. auto.
      + destruct Hq as [_ Hq]. destruct (Hq x Hx) as (b & Hb & Hrest).
        exists b. split; [|assumption]. cbn. rewrite lookup_insert_ne; [assumption|].
        intros <-. contradiction. }
  cbn [isProcessing set_queue].
  destruct (isProcessing w0) eqn:Hbusy; cbn [negb].
  - rewrite <- Hbusy in Hr0.
    split; [exact Hs0|]. split; [exact Hq1|]. split; [exact Hr0|exact Hh0].
  - unfold processNextBatch. cbn [processingQueue set_queue].
    apply drain_inv; auto.
    cbn. apply (idle_not_running w HI). exact Hbusy.
Qed.

Lemma cancelBatch_inv i userId_ now w :
  Inv w -> Inv (snd (cancelBatch i userId_ now w)).
Proof.
  intros HI. pose proof HI as (Hs & Hq & Hr & Hh).
  unfold cancelBatch.
  destruct (batchRequests w !! i) as [batch|] eqn:Hb; [|exact HI].
  destruct (negb (String.eqb (userId batch) userId_)); [exact HI|].
  destruct (is_pending (status batch)) eqn:Hp; [|exact HI].
  cbn [negb snd].
  destruct (Hs _ _ Hb) as (Hid & Hrc & Hg).
  assert (Hst : status batch = pending) by (destruct (status batch); now try discriminate).
  set (w1 := set_queue (remove_first i (processingQueue w)) w).
  unfold Inv. cbn.
  split; [apply store_ok_insert; auto|].
  split.
  { apply queue_ok_insert.
    - split; [apply remove_first_NoDup, Hq|].
      intros x Hx. apply remove_first_elem in Hx as [Hx _]; [|apply Hq].
      now apply Hq.
    - intros Hin. apply remove_first_elem in Hin as [_ Hne]; [|apply Hq]. congruence. }
  split.
  { apply run_ok_insert; [exact Hr|]. intros run Hrun Heq.
    rewrite Hrun in Hr. cbn in Hr. destruct Hr as (_ & cur & Hcur & Hproc & _).
    rewrite Heq in Hcur. congruence. }
  eapply hist_ok_same with (w := store_set i (mark_failed batch "Batch cancelled by user" now) w);
    [reflexivity|reflexivity|].
  apply hist_ok_store_set; [assumption|assumption|].
  intros x Hx. rewrite Hb in Hx. injection Hx as <-. unfold le_counts. cbn. lia.
Qed.

Lemma tick_inv now w : Inv w -> Inv (tick now w).
Proof.
  intros HI. unfold tick.
  destruct (isProcessing w) eqn:Hb; cbn; [exact HI|].
  destruct (negb (length (processingQueue w) =? 0)%nat); [|exact HI].
  now apply processNextBatch_inv.
Qed.

Lemma resume_inv settle now w : Inv w -> Inv (resume settle now w).
Proof.
  intros HI. pose proof HI as (Hs & Hq & Hr & Hh).
  unfold resume. destruct (running w) as [run|] eqn:Hrun; [|exact HI].
  cbn in Hr.
  destruct Hr as (Hbusy & cur & Hcur & Hproc & Hcc & Hfc & Hlen & Hi & Hid & Hrc & Hrcc).
  rewrite Hcur.
  set (batchId := run_batchId run) in *. set (batch := run_batch run) in *.
  set (chunkResults := imap _ (chunk_at batch (run_i run))).
  destruct (tally chunkResults (run_results run, completedCount cur, failedCount cur))
    as [[rs c] f] eqn:Ht.
  apply tally_spec in Ht as (Hc & Hf & Hl & Hcle & Hfle).
  assert (Hchunk : length chunkResults
                   = Nat.min maxConcurrentRequests (length (requests batch) - run_i run)).
  { unfold chunkResults, chunk_at. now rewrite length_imap, length_firstn, length_skipn. }
  pose proof (count_split has_error rs) as Hsplit.
  assert (Hnq : batchId ∉ processingQueue w).
  { intros Hin. destruct Hq as [_ Hq]. destruct (Hq _ Hin) as (b & Hb & Hp & _).
    rewrite Hcur in Hb. injection Hb as <-. congruence. }
  destruct (Hs _ _ Hcur) as (Hidc & Hrc1 & Hgc).
  set (cur' := with_progress cur c f).
  assert (Hg' : good cur').
  { unfold good, cur'. cbn. rewrite Hrcc, Hrc. unfold maxConcurrentRequests in *. lia. }
  set (w1 := store_set batchId cur' w).
  assert (Hs1 : store_ok (batchRequests w1)) by (apply store_ok_insert; auto).
  assert (Hq1 : queue_ok (batchRequests w1) (processingQueue w))
    by (apply queue_ok_insert; auto).
  assert (Hh1 : hist_ok w1).
  { apply hist_ok_store_set; [assumption|assumption|].
    intros x Hx. rewrite Hcur in Hx. injection Hx as <-. split; assumption. }
  assert (Hcur1 : batchRequests w1 !! batchId = Some cur') by apply lookup_insert_eq.
  destruct (run_i run + maxConcurrentRequests <? length (requests batch))%nat eqn:Hmore.
  - apply Nat.ltb_lt in Hmore.
    split; [exact Hs1|]. split; [exact Hq1|]. split; [|exact Hh1].
    cbn. split; [exact Hbusy|].
    exists cur'. rewrite lookup_insert_eq. cbn. fold batch.
    unfold maxConcurrentRequests in *.
    repeat split; try assumption; try lia.
  - apply Nat.ltb_ge in Hmore.
    assert (Hlen' : (length rs <= length (requests batch))%nat)
      by (unfold maxConcurrentRequests in *; lia).
    assert (Hcc' : completedCount cur' = count (fun r => negb (has_error r)) rs)
      by (cbn; lia).
    assert (Hfc' : failedCount cur' = count has_error rs) by (cbn; lia).
    destruct (complete_ok batchId batch rs now (set_running None w1) (processingQueue w) cur'
                Hs1 Hh1 Hq1 Hnq Hcur1 Hcc' Hfc' Hlen' Hid Hrc)
      as (Hs2 & Hh2 & Hq2 & Hpq & Hip & Hrn).
    apply drain_inv.
    + reflexivity.
    + cbn. rewrite Hrn. reflexivity.
    + exact Hs2.
    + cbn. rewrite Hpq. exact Hq2.
    + eapply hist_ok_same; [| |exact Hh2]; reflexivity.
Qed.

(** Every reachable state of the processor satisfies the invariants. *)
Lemma reachable_inv w : reachable w -> Inv w.
Proof.
  induction 1 as [|w w' _ IH Hstep].
  - apply initial_inv.
  - destruct Hstep.
    + now apply createBatch_inv.
    + now apply cancelBatch_inv.
    + now apply tick_inv.
    + now apply resume_inv.
Qed.

End BatchInvariant.

Lemma one_batch_reachable : Batch.reachable one_batch.
Proof.
  apply Batch.reach_step with Batch.initial; [constructor|].
  apply Batch.step_create. apply lookup_empty.
Defined.

Lemma two_batches_reachable : Batch.reachable two_batches.
Proof.
  apply Batch.reach_step with one_batch; [exact one_batch_reachable|].
  apply Batch.step_create. vm_compute. reflexivity.
Defined.

Lemma one_batch_done_reachable : Batch.reachable one_batch_done.
Proof.
  apply Batch.reach_step with one_batch; [exact one_batch_reachable|].
  apply Batch.step_settle.
Defined.

(** C8.  In every reachable state of the processor and for every batch id,
    the values successively stored for the batch (creation, pick-up, each
    per-chunk progress update, the terminal update) all satisfy
    [completedCount + failedCount <= requestCount], neither counter ever
    decreases from one stored value to the next, and the last stored value
    is the one a reader finds in the store. *)
Theorem C8_batch_counters :
  forall (w : Batch.Processor) (i : string),
    Batch.reachable w ->
    last (Batch.history i w) = Batch.batchRequests w !! i /\
    Forall (fun b => (Batch.completedCount b + Batch.failedCount b <= Batch.requestCount b)%Z)
           (Batch.history i w) /\
    (forall k b1 b2,
        Batch.history i w !! k = Some b1 -> Batch.history i w !! S k = Some b2 ->
        (Batch.completedCount b1 <= Batch.completedCount b2)%Z /\
        (Batch.failedCount b1 <= Batch.failedCount b2)%Z).
Proof.
  intros w i Hreach. apply reachable_inv in Hreach as (_ & _ & _ & Hh).
  exact (Hh i).
Qed.

Lemma C8_witness :
  last (Batch.history "batch_1" one_batch_done)
  = Batch.batchRequests one_batch_done !! "batch_1" /\
  Forall (fun b => (Batch.completedCount b + Batch.failedCount b <= Batch.requestCount b)%Z)
         (Batch.history "batch_1" one_batch_done) /\
  (forall k b1 b2,
      Batch.history "batch_1" one_batch_done !! k = Some b1 ->
      Batch.history "batch_1" one_batch_done !! S k = Some b2 ->
      (Batch.completedCount b1 <= Batch.completedCount b2)%Z /\
      (Batch.failedCount b1 <= Batch.failedCount b2)%Z).
Proof.
  apply (C8_batch_counters one_batch_done "batch_1"). exact one_batch_done_reachable.
Defined.

(** The four values stored for [batch_1] in the example run. *)
Example one_batch_done_history :
  map (fun b => (Batch.status b, Batch.completedCount b, Batch.failedCount b))
      (Batch.history "batch_1" one_batch_done)
  = [ (Batch.pending, 0%Z, 0%Z); (Batch.processing, 0%Z, 0%Z);
      (Batch.processing, 1%Z, 0%Z); (Batch.completed, 1%Z, 0%Z) ].
Proof. vm_compute. reflexivity. Qed.

(** C9, counterexample.  Cancelling the pending [batch_2] succeeds, and
    the error recorded is not ["cancelled"]. *)
Lemma C9_counterexample :
  Batch.status <$> Batch.batchRequests two_batches !! "batch_2" = Some Batch.pending /\
  fst (Batch.cancelBatch "batch_2" "alice" 3000 two_batches) = true /\
  Batch.error <$> Batch.batchRequests (snd (Batch.cancelBatch "batch_2" "alice" 3000 two_batches))
                    !! "batch_2"
  = Some (Some "Batch cancelled by user") /\
  Some "Batch cancelled by user" <> Some "cancelled".
Proof. repeat split; try (vm_compute; reflexivity). discriminate. Qed.

(** C9 (amended).  In a reachable state, [cancelBatch] succeeds exactly when
    the batch exists, belongs to the caller and is pending.  On success the
    stored batch becomes the old one with status [failed], error
    ["Batch cancelled by user"] and [completedAt] set, the other batches are
    kept and the id is no longer in the queue; otherwise the call returns
    [false] and the processor is unchanged. *)
Theorem C9_cancel_batch :
  forall (w : Batch.Processor) (i userId_ : string) (now : Z),
    Batch.reachable w ->
    let result := Batch.cancelBatch i userId_ now w in
    (fst result = true <->
       exists b, Batch.batchRequests w !! i = Some b /\
                 Batch.userId b = userId_ /\ Batch.status b = Batch.pending) /\
    (fst result = true ->
       exists b b',
         Batch.batchRequests w !! i = Some b /\
         b' = Batch.mark_failed b "Batch cancelled by user" now /\
         Batch.batchRequests (snd result) = <[i := b']> (Batch.batchRequests w) /\
         Batch.status b' = Batch.failed /\
         Batch.error b' = Some "Batch cancelled by user" /\
         Batch.completedAt b' = Some now /\
         Batch.processingQueue (snd result) = Batch.remove_first i (Batch.processingQueue w) /\
         i ∉ Batch.processingQueue (snd result)) /\
    (fst result = false -> snd result = w).
Proof.
  intros w i userId_ now Hreach result. subst result.
  apply reachable_inv in Hreach as (_ & [Hnd _] & _ & _).
  unfold Batch.cancelBatch.
  destruct (Batch.batchRequests w !! i) as [b|] eqn:Hb.
  2:{ cbn. split; [|split]; try discriminate; try reflexivity.
      split; [discriminate|]. intros (b & Hb' & _). discriminate. }
  destruct (String.eqb_spec (Batch.userId b) userId_) as [Hu|Hu]; cbn [negb].
  2:{ cbn. split; [|split]; try discriminate; try reflexivity.
      split; [discriminate|]. intros (b0 & Hb0 & Hu0 & _). congruence. }
  destruct (Batch.status b) eqn:Hs; cbn [Batch.is_pending negb fst snd].
  2,3,4: (split; [|split]; try discriminate; try reflexivity;
          split; [discriminate|]; intros (b0 & Hb0 & _ & Hs0); congruence).
  split; [|split].
  - split; [|reflexivity]. intros _. exists b. auto.
  - intros _. exists b, (Batch.mark_failed b "Batch cancelled by user" now).
    repeat split.
    intros Hin. apply remove_first_elem in Hin as [_ Hne]; [congruence|assumption].
  - discriminate.
Qed.

Lemma C9_witness :
  exists b b',
    Batch.batchRequests two_batches !! "batch_2" = Some b /\
    b' = Batch.mark_failed b "Batch cancelled by user" 3000 /\
    Batch.batchRequests (snd (Batch.cancelBatch "batch_2" "alice" 3000 two_batches))
    = <["batch_2" := b']> (Batch.batchRequests two_batches) /\
    Batch.status b' = Batch.failed /\
    Batch.error b' = Some "Batch cancelled by user" /\
    Batch.completedAt b' = Some 3000%Z /\
    Batch.processingQueue (snd (Batch.cancelBatch "batch_2" "alice" 3000 two_batches))
    = Batch.remove_first "batch_2" (Batch.processingQueue two_batches) /\
    "batch_2" ∉ Batch.processingQueue (snd (Batch.cancelBatch "batch_2" "alice" 3000 two_batches)).
Proof.
  destruct (C9_cancel_batch two_batches "batch_2" "alice" 3000 two_batches_reachable)
    as (_ & Hok & _).
  apply Hok. vm_compute. reflexivity.
Defined.

(** C6, counterexample.  alice's batch has a callback URL and reaches
    [completed]; her webhook is active and subscribed to everything; yet the
    event log and the delivery log are empty.  The callback only wrote a
    line to the console. *)
Lemma C6_counterexample :
  (fun b => (Batch.status b, Batch.callbackUrl b))
    <$> Batch.batchRequests (Spec.processor demo_system_done) !! "batch_1"
  = Some (Batch.completed, Some "https://example.com/hook") /\
  Webhooks.event_log (Spec.hooks demo_system_done) = [] /\
  Webhooks.deliveries (Spec.hooks demo_system_done) = [] /\
  Batch.console (Spec.processor demo_system_done)
  = ["Sending callback for batch batch_1 to https://example.com/hook"].
Proof. repeat split; vm_compute; reflexivity. Qed.

(** C6 (amended).  When a batch whose callback URL is set reaches
    [completed], the processor stores the completed batch and calls
    [sendCallback], which appends one line naming the batch and the URL to
    the console; the webhooks service (event log, deliveries, webhooks) is
    left as it was. *)
Theorem C6_callback_only_logs :
  forall (s : Spec.System) (batchId : string) (batch : Batch.BatchRequest)
         (rs : list Batch.ResultEntry) (now : Z) (u : string),
    Batch.id batch = batchId ->
    Batch.callbackUrl batch = Some u -> u <> "" ->
    let s' := Spec.processor_turn (Batch.complete batchId batch rs now) s in
    Batch.batchRequests (Spec.processor s') !! batchId
    = Some (Batch.mark_completed batch rs now) /\
    Batch.status (Batch.mark_completed batch rs now) = Batch.completed /\
    Batch.console (Spec.processor s')
    = Batch.console (Spec.processor s)
      ++ ["Sending callback for batch " +:+ batchId +:+ " to " +:+ u] /\
    Spec.hooks s' = Spec.hooks s.
Proof.
  intros s batchId batch rs now u Hid Hu Hne s'. subst s'.
  unfold Spec.processor_turn, Batch.complete. cbn [Spec.processor Spec.hooks].
  assert (Ht : Router.truthy_string u = true).
  { unfold Router.truthy_string. destruct (String.eqb_spec u ""); [contradiction|reflexivity]. }
  unfold Batch.truthy_opt. rewrite Hu, Ht, Hid.
  unfold Batch.sendCallback. cbn [Batch.batchRequests Batch.store_set].
  rewrite lookup_insert_eq. cbn [Batch.callbackUrl Batch.mark_completed]. rewrite Hu, Ht.
  cbn. rewrite lookup_insert_eq. repeat split; reflexivity.
Qed.

Lemma C6_witness :
  let batch := Batch.mkBatch "batch_9" "alice" [] 1 Batch.processing Batch.normal None None None
                 0 0 0 (Some "https://example.com/hook") None in
  let s' := Spec.processor_turn (Batch.complete "batch_9" batch [] 7) demo_system in
  Batch.batchRequests (Spec.processor s') !! "batch_9"
  = Some (Batch.mark_completed batch [] 7) /\
  Batch.status (Batch.mark_completed batch [] 7) = Batch.completed /\
  Batch.console (Spec.processor s')
  = Batch.console (Spec.processor demo_system)
    ++ ["Sending callback for batch " +:+ "batch_9" +:+ " to " +:+ "https://example.com/hook"] /\
  Spec.hooks s' = Spec.hooks demo_system.
Proof.
  intros batch.
  apply (C6_callback_only_logs demo_system "batch_9" batch [] 7 "https://example.com/hook");
    [reflexivity|reflexivity|discriminate].
Defined.

(** ** Streaming requests and the cache *)

Section StreamingFacts.
Import Models Services.
Variable P : Platform.
Variable random : nat -> Q.
Variable aiClient_complete : ChatRoute.ClientCall -> outcome ChatRoute.Completed.
Variable aiClient_stream : ChatRoute.ClientCall -> outcome ChatRoute.Streamed.

(** On the chat handler a streaming request neither reads nor writes the
    cache: the cache is left as it was and the answer is the same whatever
    the cache holds. *)
Lemma serve_streaming_bypasses_cache request userId s cm :
  stream request = Some true ->
  cacheManager (snd (ChatRoute.serve P random aiClient_complete aiClient_stream
                       request userId s)) = cacheManager s /\
  fst (ChatRoute.serve P random aiClient_complete aiClient_stream request userId
         (with_cache cm s))
  = fst (ChatRoute.serve P random aiClient_complete aiClient_stream request userId s).
Proof.
  intros Hs. unfold ChatRoute.serve. rewrite Hs. cbn.
  destruct (messages request) as [ms|]; [|split; reflexivity].
  destruct (aiClient_stream _) as [st|e]; split; reflexivity.
Qed.

(** Inside a batch the lookup is made whatever [stream] says: a live
    entry under the request's fingerprint is returned as the child's
    result. *)
Lemma processRequest_reads_cache request userId s c :
  Cache.on (Cache.cachingEnabled (Cache.defaultOptions (cacheManager s))) = true ->
  Cache.cache (cacheManager s)
    !! Cache.generateCacheKey P request (Cache.defaultOptions (cacheManager s)) = Some c ->
  (clock s < Cache.expiresAt c)%Z ->
  BatchChild.processRequest P random request userId s
  = (Batch.Fulfilled (Cache.response c), s).
Proof.
  intros He Hc Hlt. unfold BatchChild.processRequest.
  rewrite (get_hit P (cacheManager s) request None (clock s) c He Hc Hlt).
  destruct s; reflexivity.
Qed.

End StreamingFacts.

(** C7, the code at the failing input.  A streaming child of a batch finds
    the cached response and returns it without routing (no draw is made, no
    usage is logged); when the entry has expired, the lookup made for the
    streaming child deletes it from the cache. *)
Theorem C7_batch_streaming_child_reads_cache :
  Models.stream streaming_request = Some true /\
  BatchChild.processRequest Spec.demo_platform (fun _ => 0%Q) streaming_request "alice"
    (warm_services 2000)
  = (Batch.Fulfilled demo_response, warm_services 2000) /\
  Cache.cache (Services.cacheManager (warm_services 3700000))
    !! Cache.generateCacheKey Spec.demo_platform streaming_request Cache.DEFAULT_CACHE_OPTIONS
  <> None /\
  Cache.cache
    (Services.cacheManager
       (snd (BatchChild.processRequest Spec.demo_platform (fun _ => 0%Q) streaming_request
               "alice" (warm_services 3700000))))
    !! Cache.generateCacheKey Spec.demo_platform streaming_request Cache.DEFAULT_CACHE_OPTIONS
  = None.
Proof.
  split; [reflexivity|]. split; [|split].
  - apply processRequest_reads_cache with
      (c := Cache.mkCached "openai/gpt-4o" demo_response 1000 3601000
              (Cache.mkTokenUsage 1 2 3)).
    + reflexivity.
    + vm_compute. reflexivity.
    + vm_compute. reflexivity.
  - vm_compute. discriminate.
  - vm_compute. reflexivity.
Qed.

(** ** Request validation *)

(** C4, counterexample.  A body with an empty [messages] array passes
    validation. *)
Lemma C4_counterexample :
  ChatRoute.resolve_plain
    (Models.JObj [("model", Models.JStr "openai/gpt-4o"); ("messages", Models.JArr [])])
  = inr (Models.mkRequest "openai/gpt-4o" (Some []) None None None None None None None
           None None None None None None).
Proof. vm_compute. reflexivity. Qed.

(** C4 (amended).  The [messages] check accepts every array of well-formed
    messages, the empty array included.  A body whose [messages] is such an
    array is rejected (400, invalid request) exactly when one of its other
    keys fails its check; otherwise it is accepted with these messages. *)
Theorem C4_messages_may_be_empty :
  forall (fs : list (string * Models.JsonValue)) (l : list Models.JsonValue)
         (ms : list Models.ChatMessage),
    Schema.field "messages" fs = Some (Models.JArr l) ->
    mapM Schema.z_message l = Some ms ->
    Schema.check_messages fs = Some ms /\
    ChatRoute.resolve_plain (Models.JObj fs)
    = match Schema.check_rest fs with
      | Some k => inr (k ms)
      | None => inl (ChatRoute.Json 400 (ChatRoute.BodyError "Invalid request format"))
      end.
Proof.
  intros fs l ms Hf Hm.
  assert (Hc : Schema.check_messages fs = Some ms).
  { unfold Schema.check_messages. rewrite Hf. cbn. exact Hm. }
  split; [exact Hc|].
  unfold ChatRoute.resolve_plain, Schema.parse. rewrite Hc.
  destruct (Schema.check_rest fs); reflexivity.
Qed.

Lemma C4_witness :
  Schema.check_messages
    [("model", Models.JStr "openai/gpt-4o"); ("messages", Models.JArr [])] = Some [] /\
  ChatRoute.resolve_plain
    (Models.JObj [("model", Models.JStr "openai/gpt-4o"); ("messages", Models.JArr [])])
  = match Schema.check_rest
            [("model", Models.JStr "openai/gpt-4o"); ("messages", Models.JArr [])] with
    | Some k => inr (k [])
    | None => inl (ChatRoute.Json 400 (ChatRoute.BodyError "Invalid request format"))
    end.
Proof.
  apply (C4_messages_may_be_empty
           [("model", Models.JStr "openai/gpt-4o"); ("messages", Models.JArr [])] [] []);
    reflexivity.
Defined.

(** * Further properties *)

(** ** Router: which model is returned *)

Section RouterMore.
Import Models Router.
Variable random : nat -> Q.

Lemma probe_ok_intro m k :
  num_lt (random k) (if includes lowAvailabilityModels m then 8 # 10 else 95 # 100) = true ->
  probe_ok random m k.
Proof. intros H. unfold probe_ok, isModelAvailable. cbn [fst]. now rewrite H. Qed.

Lemma firstAvailable_draws feats ids n r n' :
  firstAvailable random feats ids n = (r, n') -> (n <= n')%nat.
Proof.
  revert n. induction ids as [|i rest IH]; intros n H.
  - cbn in H. injection H as _ <-. lia.
  - cbn [firstAvailable] in H. unfold bind at 1 in H.
    destruct (usable random i feats n) as [[[|]|e] n1] eqn:E;
      apply usable_draws in E as ->.
    + cbn in H. injection H as _ <-. lia.
    + apply IH in H. lia.
    + injection H as _ <-. lia.
Qed.

Lemma firstAvailable_probed feats ids n m n' :
  firstAvailable random feats ids n = (Ok (Some m), n') ->
  exists k, n' = S k /\ (n <= k)%nat /\ probe_ok random m k.
Proof.
  revert n. induction ids as [|i rest IH]; intros n H.
  - discriminate.
  - cbn [firstAvailable] in H. unfold bind at 1 in H.
    destruct (usable random i feats n) as [[[|]|e] n1] eqn:E; [| |discriminate].
    + cbn in H. injection H as <- <-. apply usable_true in E as (-> & Hp & _).
      exists n. repeat split; [lia|assumption].
    + apply usable_draws in E as ->.
      destruct (IH _ H) as (k & -> & Hk & Hp). exists k. repeat split; [lia|assumption].
Qed.

Lemma firstAvailableInfo_probed l n m n' :
  firstAvailableInfo random l n = (Ok (Some m), n') ->
  exists k, n' = S k /\ (n <= k)%nat /\ probe_ok random m k.
Proof.
  revert n. induction l as [|x rest IH]; intros n H.
  - discriminate.
  - cbn in H. unfold bind, isModelAvailable in H.
    destruct (num_lt (random n) _) eqn:E.
    + cbn in H. injection H as <- <-. exists n.
      repeat split; [lia|]. apply probe_ok_intro, E.
    + destruct (IH _ H) as (k & -> & Hk & Hp). exists k. repeat split; [lia|assumption].
Qed.

Lemma handleFallbackRouting_probed primary fbs feats n m n' :
  handleFallbackRouting random primary fbs feats n = (Ok m, n') ->
  exists k, n' = S k /\ (n <= k)%nat /\ probe_ok random m k.
Proof.
  unfold handleFallbackRouting. unfold bind at 1.
  destruct (usable random primary feats n) as [[[|]|e] n1] eqn:E; [| |discriminate].
  - cbn. intros H. injection H as <- <-. apply usable_true in E as (-> & Hp & _).
    exists n. repeat split; [lia|assumption].
  - apply usable_draws in E as ->.
    destruct fbs as [l|]; [|discriminate]. unfold bind at 1.
    destruct (firstAvailable random feats l (S n)) as [[[r|]|e] n1] eqn:E1; [| |discriminate].
    + cbn. intros H. injection H as <- <-.
      apply firstAvailable_probed in E1 as (k & -> & Hk & Hp).
      exists k. repeat split; [lia|assumption].
    + apply firstAvailable_draws in E1. unfold bind at 1.
      destruct (firstAvailable random feats _ n1) as [[[r|]|e] n2] eqn:E2; try discriminate.
      cbn. intros H. injection H as <- <-.
      apply firstAvailable_probed in E2 as (k & -> & Hk & Hp).
      exists k. repeat split; [lia|assumption].
Qed.

End RouterMore.

(** X1.  A model returned by the router was probed and found available:
    the last draw consumed is the successful probe of the returned model.
    In particular routing fails when every probe fails. *)
Theorem routed_model_was_probed_available :
  forall (random : nat -> Q) (request : Models.ModelRequest) (n n' : nat) (m : string),
    Router.routeRequest random request n = (Ok m, n') ->
    exists k, n' = S k /\ (n <= k)%nat /\
              fst (Router.isModelAvailable random m k) = Ok true.
Proof.
  intros random request n n' m. unfold Router.routeRequest.
  destruct (Router.getRequiredFeatures request) as [feats|e]; [|discriminate].
  destruct (default Models.r_default (Models.route request)).
  - unfold Router.bind at 1. unfold Router.isModelAvailable at 1. cbv beta zeta.
    destruct (num_lt (random n) _) eqn:E.
    + unfold Router.bind at 1, Router.lift at 1.
      destruct (Router.modelSupportsFeatures (Models.model request) feats) as [[|]|e];
        [| |discriminate].
      * cbn. intros H. injection H as <- <-. exists n.
        repeat split; [lia|]. apply probe_ok_intro, E.
      * unfold Router.bind at 1, Router.lift at 1.
        destruct (Router.getRecommendedFallbacksForFeatures (Models.model request) feats)
          as [recommended|e]; [|discriminate].
        intros H. apply handleFallbackRouting_probed in H as (k & -> & Hk & Hp).
        exists k. repeat split; [lia|assumption].
    + intros H. apply handleFallbackRouting_probed in H as (k & -> & Hk & Hp).
      exists k. repeat split; [lia|assumption].
  - intros H. apply handleFallbackRouting_probed in H as (k & -> & Hk & Hp).
    exists k. repeat split; [lia|assumption].
  - unfold Router.findLowestCostModel. unfold Router.bind at 1, Router.lift at 1.
    destruct (filter_throwing _ _) as [eligible|e]; [|discriminate].
    unfold Router.bind at 1.
    destruct (Router.firstAvailableInfo random _ n) as [[[r|]|e] n1] eqn:E; try discriminate.
    cbn. intros H. injection H as <- <-. eapply firstAvailableInfo_probed, E.
  - unfold Router.findFastestModel, Router.bind.
    destruct (Router.firstAvailable random feats _ n) as [[[r|]|e] n1] eqn:E; try discriminate.
    cbn. intros H. injection H as <- <-. eapply firstAvailable_probed, E.
  - unfold Router.findHighestQualityModel, Router.bind.
    destruct (Router.firstAvailable random feats _ n) as [[[r|]|e] n1] eqn:E; try discriminate.
    cbn. intros H. injection H as <- <-. eapply firstAvailable_probed, E.
Qed.

Lemma routed_model_was_probed_available_witness :
  exists k, 3%nat = S k /\ (0 <= k)%nat /\
            fst (Router.isModelAvailable (fun _ => 0%Q) "openai/gpt-4o" k) = Ok true.
Proof.
  apply (routed_model_was_probed_available (fun _ => 0%Q) c1_vision_request 0 3 "openai/gpt-4o").
  vm_compute. reflexivity.
Defined.

(** X2.  Under the default and the fallback strategy the requested model is
    returned, after a single probe, whenever that probe succeeds and the
    model supports the required features. *)
Theorem requested_model_is_honoured :
  forall (random : nat -> Q) (request : Models.ModelRequest) (n : nat)
         (feats : list Models.Feature),
    Router.getRequiredFeatures request = Ok feats ->
    (Models.route request = None \/ Models.route request = Some Models.r_default
     \/ Models.route request = Some Models.r_fallback) ->
    fst (Router.isModelAvailable random (Models.model request) n) = Ok true ->
    Router.modelSupportsFeatures (Models.model request) feats = Ok true ->
    Router.routeRequest random request n = (Ok (Models.model request), S n).
Proof.
  intros random request n feats Hf Hr Hp Hs. unfold Router.routeRequest. rewrite Hf.
  assert (Hp' : num_lt (random n)
                   (if Router.includes Router.lowAvailabilityModels (Models.model request)
                    then 8 # 10 else 95 # 100) = true)
    by (unfold Router.isModelAvailable in Hp; cbn [fst] in Hp; congruence).
  clear Hp. rename Hp' into Hp.
  destruct Hr as [->|[->| ->]]; cbn [default from_option id];
    unfold Router.handleFallbackRouting, Router.usable, Router.bind, Router.lift,
           Router.isModelAvailable;
    cbv beta zeta;
    (destruct (num_lt (random n) _); [|discriminate]); rewrite Hs; reflexivity.
Qed.

Lemma requested_model_is_honoured_witness :
  Router.routeRequest (fun _ => 0%Q) demo_request 0 = (Ok "openai/gpt-4o", 1%nat).
Proof.
  apply (requested_model_is_honoured (fun _ => 0%Q) demo_request 0 []);
    [reflexivity | left; reflexivity | reflexivity | reflexivity].
Defined.

(** ** Sorting *)

Section SortFacts.
Context {A : Type}.

Lemma insert_sorted_perm (lt : A -> A -> bool) x l :
  Permutation (x :: l) (insert_sorted lt x l).
Proof.
  induction l as [|y rest IH]; cbn; [reflexivity|].
  destruct (lt y x); [|reflexivity].
  rewrite <- IH. apply perm_swap.
Qed.

Lemma stable_sort_perm (lt : A -> A -> bool) l : Permutation l (stable_sort lt l).
Proof.
  induction l as [|x rest IH]; cbn; [reflexivity|].
  rewrite <- insert_sorted_perm. now constructor.
Qed.

Variable lt : A -> A -> bool.
Variable R : A -> A -> Prop.
Hypothesis lt_R : forall a b, lt a b = true -> R a b.
Hypothesis not_lt_R : forall a b, lt a b = false -> R b a.
Hypothesis R_trans : forall a b c, R a b -> R b c -> R a c.

Lemma insert_sorted_sorted x l :
  StronglySorted R l -> StronglySorted R (insert_sorted lt x l).
Proof.
  induction 1 as [|y rest Hs IH Hall]; cbn.
  - constructor; constructor.
  - destruct (lt y x) eqn:E.
    + constructor; [exact IH|].
      rewrite <- insert_sorted_perm. constructor; [|exact Hall]. now apply lt_R.
    + constructor; [constructor; assumption|].
      constructor; [now apply not_lt_R|].
      eapply Forall_impl; [exact Hall|]. intros z Hz.
      eapply R_trans; [|exact Hz]. now apply not_lt_R.
Qed.

Lemma stable_sort_sorted l : StronglySorted R (stable_sort lt l).
Proof.
  induction l as [|x rest IH]; cbn; [constructor|]. now apply insert_sorted_sorted.
Qed.

End SortFacts.

Lemma num_lt_le (x y : Q) : num_lt x y = true -> (x <= y)%Q.
Proof.
  unfold num_lt. intros H. apply negb_true_iff in H.
  apply Qnot_lt_le. intros Hlt. apply Qlt_le_weak, Qle_bool_iff in Hlt. congruence.
Qed.

Lemma not_num_lt_le (x y : Q) : num_lt x y = false -> (y <= x)%Q.
Proof.
  unfold num_lt. intros H. apply negb_false_iff in H. now apply Qle_bool_iff.
Qed.

Lemma stable_sort_by_key {A} (key : A -> Q) (l : list A) :
  StronglySorted (fun a b => (key a <= key b)%Q)
                 (stable_sort (fun a b => num_lt (key a) (key b)) l).
Proof.
  apply stable_sort_sorted.
  - intros a b. apply num_lt_le.
  - intros a b. apply not_num_lt_le.
  - intros a b c. apply Qle_trans.
Qed.

(** ** Router: what happens when probes succeed *)

Section RouterAvailable.
Import Models Router.
Variable random : nat -> Q.
Hypothesis all_available : forall k, (random k < 8 # 10)%Q.

Lemma probe_true m k :
  num_lt (random k) (if includes lowAvailabilityModels m then 8 # 10 else 95 # 100) = true.
Proof.
  unfold num_lt. apply negb_true_iff. apply not_true_iff_false. intros H.
  apply Qle_bool_iff in H. specialize (all_available k).
  destruct (includes lowAvailabilityModels m).
  - apply (Qlt_irrefl (random k)). eapply Qlt_le_trans; eassumption.
  - apply (Qlt_irrefl (random k)).
    eapply Qlt_le_trans; [eassumption|]. eapply Qle_trans; [|exact H]. discriminate.
Qed.

Lemma gpt4o_supports_everything feats :
  modelSupportsFeatures "openai/gpt-4o" feats = Ok true.
Proof.
  unfold modelSupportsFeatures. cbn. f_equal. induction feats as [|f rest IH]; [reflexivity|].
  cbn. rewrite IH. now destruct f.
Qed.

(** Away from the inherited names the support check does not throw. *)
Lemma supports_no_throw i feats :
  getModelById i <> Inherited -> exists b, modelSupportsFeatures i feats = Ok b.
Proof.
  unfold modelSupportsFeatures. destruct (getModelById i); [eauto|contradiction|eauto].
Qed.

Lemma catalog_not_inherited i : In i (map fst models) -> getModelById i <> Inherited.
Proof.
  intros Hin. assert (Hkeys : all_own (map fst models) = true) by reflexivity.
  destruct (all_own_In _ _ Hkeys Hin) as (info & ->). discriminate.
Qed.

Lemma not_inherited_name i : getModelById i <> Inherited -> is_prototype_name i = false.
Proof.
  unfold getModelById, member. destruct (assoc i models) as [info|] eqn:E.
  - intros _. apply assoc_In in E.
    assert (Hall : forallb (fun kv : string * ModelInfo => negb (is_prototype_name (fst kv)))
                           models = true) by reflexivity.
    rewrite forallb_forall in Hall. specialize (Hall _ E). cbn in Hall.
    now apply negb_true_iff in Hall.
  - destruct (is_prototype_name i); [contradiction|reflexivity].
Qed.

Lemma filter_throwing_total {A} (p : A -> outcome bool) l :
  (forall x, In x l -> exists b, p x = Ok b) ->
  exists kept, filter_throwing p l = Ok kept /\
               forall x, In x kept <-> In x l /\ p x = Ok true.
Proof.
  induction l as [|y rest IH]; intros H.
  - exists []. split; [reflexivity|]. cbn. tauto.
  - destruct (H y (or_introl eq_refl)) as [b Hb].
    destruct IH as (kept & Hk & Hiff); [intros x Hx; apply H; now right|].
    cbn. rewrite Hb, Hk. eexists. split; [reflexivity|].
    intros x. destruct b; cbn; rewrite ?Hiff; split.
    + intros [->|[H1 H2]]; [split; [now left|assumption]|split; [now right|assumption]].
    + intros [[->|H1] H2]; [now left|right; split; assumption].
    + intros [H1 H2]. split; [now right|assumption].
    + intros [[->|H1] H2]; [congruence|split; assumption].
Qed.

Lemma usable_available i feats n b :
  modelSupportsFeatures i feats = Ok b -> usable random i feats n = (Ok b, S n).
Proof.
  intros H. unfold usable, bind, isModelAvailable, lift. cbv beta zeta.
  now rewrite probe_true, H.
Qed.

Lemma firstAvailable_total feats ids n :
  (forall i, In i ids -> getModelById i <> Inherited) ->
  exists r n', firstAvailable random feats ids n = (Ok r, n').
Proof.
  revert n. induction ids as [|i rest IH]; intros n H.
  - cbn. unfold ret. eauto.
  - cbn [firstAvailable]. unfold bind at 1.
    destruct (supports_no_throw i feats (H i (or_introl eq_refl))) as [b Hb].
    rewrite (usable_available _ _ _ _ Hb). destruct b.
    + cbn. eauto.
    + apply IH. intros j Hj. apply H. now right.
Qed.

Lemma firstAvailable_finds feats ids n :
  (forall i, In i ids -> getModelById i <> Inherited) ->
  (exists i, In i ids /\ modelSupportsFeatures i feats = Ok true) ->
  exists m n', firstAvailable random feats ids n = (Ok (Some m), n').
Proof.
  revert n. induction ids as [|i rest IH]; intros n H (j & Hin & Hs).
  - destruct Hin.
  - cbn [firstAvailable]. unfold bind at 1.
    destruct (supports_no_throw i feats (H i (or_introl eq_refl))) as [b Hb].
    rewrite (usable_available _ _ _ _ Hb). destruct b.
    + cbn. eauto.
    + apply IH; [intros k Hk; apply H; now right|].
      destruct Hin as [->|Hin]; [congruence|eauto].
Qed.

Lemma handleFallbackRouting_finds primary l feats n :
  getModelById primary <> Inherited ->
  (forall i, In i l -> getModelById i <> Inherited) ->
  exists m n', handleFallbackRouting random primary (FallbackList l) feats n = (Ok m, n').
Proof.
  intros Hp Hl. unfold handleFallbackRouting. unfold bind at 1.
  destruct (supports_no_throw primary feats Hp) as [b Ep].
  rewrite (usable_available _ _ _ _ Ep). destruct b; [cbn; eauto|].
  unfold bind at 1.
  destruct (in_dec String.string_dec "openai/gpt-4o" l) as [Hin|Hout].
  - destruct (firstAvailable_finds feats l (S n) Hl) as (m & n1 & ->).
    { exists "openai/gpt-4o". split; [assumption|apply gpt4o_supports_everything]. }
    cbn. eauto.
  - destruct (firstAvailable_total feats l (S n) Hl) as ([r|] & n1 & ->); [cbn; eauto|].
    unfold bind at 1.
    edestruct (firstAvailable_finds feats) as (m & n2 & ->); [| |cbn; eauto].
    + intros i Hi. apply filter_In in Hi as [Hi _]. now apply catalog_not_inherited.
    + exists "openai/gpt-4o". split; [|apply gpt4o_supports_everything].
      apply filter_In. split; [now left|].
      apply andb_true_iff. split.
      * apply negb_true_iff.
        destruct (String.eqb_spec "openai/gpt-4o" primary); [|reflexivity].
        subst. rewrite gpt4o_supports_everything in Ep. discriminate.
      * apply negb_true_iff. apply not_true_iff_false. intros Hinc.
        apply existsb_exists in Hinc as (x & Hx & Heq).
        apply String.eqb_eq in Heq. subst. contradiction.
Qed.

(** The recommended fallbacks of a model that is not an inherited name. *)
Lemma recommended_list k :
  getModelById k <> Inherited ->
  exists l, getRecommendedFallbacks k = FallbackList l /\
            forall i, In i l -> getModelById i <> Inherited.
Proof.
  intros Hk. apply not_inherited_name in Hk.
  assert (E : exists l, getRecommendedFallbacks k = FallbackList l).
  { unfold getRecommendedFallbacks, member. rewrite Hk.
    destruct (assoc k fallbackMap); eauto. }
  destruct E as [l E]. exists l. split; [exact E|].
  intros i Hi. destruct (recommended_own _ _ _ E Hi) as (info & ->). discriminate.
Qed.

Lemma eligible_models feats :
  exists eligible,
    filter_throwing (fun m => modelSupportsFeatures (id m) feats) (map snd models)
    = Ok eligible /\
    forall m, In m eligible <->
              In m (map snd models) /\ modelSupportsFeatures (id m) feats = Ok true.
Proof.
  apply filter_throwing_total. intros m Hm. apply supports_no_throw.
  assert (Hids : all_own (map id (map snd models)) = true) by reflexivity.
  destruct (all_own_In _ (id m) Hids) as (info & ->); [now apply in_map|discriminate].
Qed.

Lemma lowest_cost_head feats n :
  exists best,
    findLowestCostModel random feats n = (Ok (Models.id best), S n) /\
    In best (map snd models) /\
    modelSupportsFeatures (Models.id best) feats = Ok true /\
    forall info, In info (map snd models) ->
                 modelSupportsFeatures (Models.id info) feats = Ok true ->
                 (price best <= price info)%Q.
Proof.
  unfold findLowestCostModel, sort_by. unfold bind at 1, lift at 1.
  destruct (eligible_models feats) as (eligible & -> & Hel).
  pose proof (stable_sort_by_key price eligible) as Hsorted.
  pose proof (stable_sort_perm (fun a b => num_lt (price a) (price b)) eligible) as Hperm.
  change (fun x y : ModelInfo => num_lt (inputPricing x + outputPricing x)
                                        (inputPricing y + outputPricing y))
    with (fun a b : ModelInfo => num_lt (price a) (price b)).
  destruct (stable_sort _ eligible) as [|best rest] eqn:Es.
  - apply Permutation_nil_r in Hperm.
    assert (In (mkModel "openai/gpt-4o" openai "GPT-4o" 128000 5 15
                  ["multimodal"; "reasoning"; "creative"; "code"]
                  (mkFeatures true true true true) (Some 4096%Z)) eligible) as Hin.
    { apply Hel. split; [now left|]. apply gpt4o_supports_everything. }
    rewrite Hperm in Hin. destruct Hin.
  - exists best. unfold bind at 1. cbn [firstAvailableInfo].
    unfold bind, isModelAvailable. cbv beta zeta.
    rewrite probe_true. cbn [ret].
    assert (In best eligible) as Hb by (rewrite Hperm; now left).
    apply Hel in Hb as [Hb1 Hb2].
    repeat split; try assumption.
    intros info Hi Hs.
    assert (In info (best :: rest)) as [->|Hr].
    { rewrite <- Hperm. apply Hel. split; assumption. }
    + apply Qle_refl.
    + apply StronglySorted_inv in Hsorted as [_ Hall].
      rewrite Forall_forall in Hall. apply Hall. now apply list_elem_of_In.
Qed.

End RouterAvailable.

(** X3.  When every availability probe succeeds, routing a request that
    has messages never fails, under any strategy, provided neither the
    requested model nor a fallback supplied by the caller is the name of a
    member inherited from [Object.prototype]: [openai/gpt-4o] supports every
    feature and every candidate list reaches it.  On an inherited name the
    support check throws when a feature is required. *)
Theorem routing_succeeds_when_models_are_available :
  forall (random : nat -> Q) (request : Models.ModelRequest) (n : nat)
         (msgs : list Models.ChatMessage),
    (forall k, (random k < 8 # 10)%Q) ->
    Models.messages request = Some msgs ->
    Models.getModelById (Models.model request) <> Models.Inherited ->
    (forall f, In f (default [] (Models.fallbacks request)) ->
               Models.getModelById f <> Models.Inherited) ->
    exists m n', Router.routeRequest random request n = (Ok m, n').
Proof.
  intros random request n msgs Hall Hm Hmodel Hfbs.
  unfold Router.routeRequest, Router.getRequiredFeatures.
  rewrite Hm. set (feats := _ ++ _).
  destruct (default Models.r_default (Models.route request)).
  - unfold Router.bind at 1. unfold Router.isModelAvailable at 1. cbv zeta beta.
    rewrite (probe_true random Hall).
    unfold Router.bind at 1, Router.lift at 1.
    destruct (supports_no_throw (Models.model request) feats Hmodel) as [b ->].
    destruct b; [cbn; eauto|].
    destruct (recommended_list (Models.model request) Hmodel) as (l & Hl & Hown).
    unfold Router.bind at 1, Router.lift at 1.
    unfold Router.getRecommendedFallbacksForFeatures. rewrite Hl.
    destruct (filter_throwing_total
                (fun fallbackId => Router.modelSupportsFeatures fallbackId feats) l)
      as (kept & -> & Hkept).
    { intros x Hx. apply supports_no_throw. now apply Hown. }
    apply handleFallbackRouting_finds; [exact Hall|exact Hmodel|].
    intros i Hi. apply Hown. now apply Hkept in Hi.
  - apply handleFallbackRouting_finds; assumption.
  - destruct (lowest_cost_head random Hall feats n) as (best & -> & _). eauto.
  - unfold Router.findFastestModel, Router.bind.
    destruct (firstAvailable_finds random Hall feats Router.fastestModels n) as (m & n1 & ->);
      [| |eauto].
    + intros i Hi. assert (Hids : all_own Router.fastestModels = true) by reflexivity.
      destruct (all_own_In _ _ Hids Hi) as (info & ->). discriminate.
    + exists "openai/gpt-4o". split; [|apply gpt4o_supports_everything].
      cbn. tauto.
  - unfold Router.findHighestQualityModel, Router.bind.
    destruct (firstAvailable_finds random Hall feats Router.highestQualityModels n)
      as (m & n1 & ->); [| |eauto].
    + intros i Hi. assert (Hids : all_own Router.highestQualityModels = true) by reflexivity.
      destruct (all_own_In _ _ Hids Hi) as (info & ->). discriminate.
    + exists "openai/gpt-4o". split; [|apply gpt4o_supports_everything].
      cbn. tauto.
Qed.

Lemma routing_succeeds_when_models_are_available_witness :
  exists m n', Router.routeRequest (fun _ => 0%Q) c1_vision_request 0 = (Ok m, n').
Proof.
  apply (routing_succeeds_when_models_are_available (fun _ => 0%Q) c1_vision_request 0
           [Models.mkMessage Models.user
              (Models.CParts [Models.mkPart Models.image_url None
                                (Some (Models.mkImageUrl "https://example.com/cat.png" None))])
              None]);
    [intros k; reflexivity | reflexivity | discriminate | intros f []].
Defined.

(** X4.  Under the lowest-cost strategy, when every probe succeeds, the
    router returns after one probe a catalog model that supports the
    required features and whose combined price is the lowest among all the
    catalog models that support them. *)
Theorem lowest_cost_returns_cheapest_eligible :
  forall (random : nat -> Q) (request : Models.ModelRequest) (n : nat)
         (feats : list Models.Feature),
    (forall k, (random k < 8 # 10)%Q) ->
    Models.route request = Some Models.r_lowest_cost ->
    Router.getRequiredFeatures request = Ok feats ->
    exists best,
      Router.routeRequest random request n = (Ok (Models.id best), S n) /\
      In best (map snd Models.models) /\
      Router.modelSupportsFeatures (Models.id best) feats = Ok true /\
      forall info, In info (map snd Models.models) ->
                   Router.modelSupportsFeatures (Models.id info) feats = Ok true ->
                   (Models.inputPricing best + Models.outputPricing best
                    <= Models.inputPricing info + Models.outputPricing info)%Q.
Proof.
  intros random request n feats Hall Hr Hf.
  unfold Router.routeRequest. rewrite Hr, Hf. cbn [default from_option id].
  apply lowest_cost_head, Hall.
Qed.

Lemma lowest_cost_returns_cheapest_eligible_witness :
  exists best,
    Router.routeRequest (fun _ => 0%Q) cheap_request 0 = (Ok (Models.id best), 1%nat) /\
    In best (map snd Models.models) /\
    Router.modelSupportsFeatures (Models.id best) [] = Ok true /\
    forall info, In info (map snd Models.models) ->
                 Router.modelSupportsFeatures (Models.id info) [] = Ok true ->
                 (Models.inputPricing best + Models.outputPricing best
                  <= Models.inputPricing info + Models.outputPricing info)%Q.
Proof.
  apply (lowest_cost_returns_cheapest_eligible (fun _ => 0%Q) cheap_request 0 []);
    [intros k; reflexivity | reflexivity | reflexivity].
Defined.

(** The cheapest model for a request without special features. *)
Example lowest_cost_plain_request :
  Router.routeRequest (fun _ => 0%Q) cheap_request 0
  = (Ok "anthropic/claude-3-haiku", 1%nat).
Proof. vm_compute. reflexivity. Qed.

(** X5.  [getModelsSortedBy] returns every catalog model exactly once, in
    non-decreasing order of the criterion when ascending and in
    non-increasing order otherwise. *)
Theorem getModelsSortedBy_sorted :
  forall (c : Models.SortCriteria) (ascending : bool),
    Permutation (map snd Models.models) (Models.getModelsSortedBy c ascending) /\
    StronglySorted
      (fun a b => if ascending then (Models.criterion c a <= Models.criterion c b)%Q
                  else (Models.criterion c b <= Models.criterion c a)%Q)
      (Models.getModelsSortedBy c ascending).
Proof.
  intros c ascending. split; [apply stable_sort_perm|].
  unfold Models.getModelsSortedBy. destruct ascending.
  - apply (stable_sort_by_key (Models.criterion c)).
  - apply stable_sort_sorted.
    + intros a b. apply num_lt_le.
    + intros a b. apply not_num_lt_le.
    + intros a b d H1 H2. eapply Qle_trans; eassumption.
Qed.

(** ** Custom endpoints: create, delete, list, precedence *)

Lemma applyEndpoint_model_route e r :
  Models.model (Endpoints.applyEndpoint e r) = Endpoints.baseModel e /\
  Models.route (Endpoints.applyEndpoint e r) = Some (Endpoints.routingStrategy e).
Proof.
  destruct r as [m ms t mt tp st sp fp pp fns fc tl rt fb rf].
  destruct e as [i nm d bm efb rs [pt pmt ptp pfp ppp] sys ca ua ow pub key rl].
  unfold Endpoints.applyEndpoint. cbn.
  destruct sys as [prompt|]; [destruct (Router.truthy_string prompt)|];
    destruct fb as [fb|]; destruct efb as [|x efb]; cbn;
    try destruct (Endpoints.has_system ms); cbn; split; reflexivity.
Qed.

(** X6.  [createEndpoint] stores the body it is given, so the handler's
    call keeps whatever the body holds.  The new endpoint is stored under
    its generated identifier and the other endpoints are left as they
    were; [owner], [createdAt] and [updatedAt] are the caller and the
    creation time whatever the body says; [id] is the generated identifier
    unless the body has an [id], which then replaces it; every other
    property is the body's, and a key the body lacks stays absent: no
    default of the schema is filled in.  The caller owns the endpoint. *)
Theorem createEndpoint_stores_the_body :
  forall (endpoints : gmap string JsObject.Object) (input : JsObject.Object)
         (owner i : string) (now : Z),
    let e := fst (EndpointObjects.createEndpoint endpoints input owner i now) in
    let endpoints' := snd (EndpointObjects.createEndpoint endpoints input owner i now) in
    EndpointObjects.getEndpoint endpoints' i = Some e /\
    (forall j, j <> i ->
       EndpointObjects.getEndpoint endpoints' j = EndpointObjects.getEndpoint endpoints j) /\
    JsObject.read e "owner" = Some (JsObject.Json (Models.JStr owner)) /\
    JsObject.read e "createdAt" = Some (JsObject.Date now) /\
    JsObject.read e "updatedAt" = Some (JsObject.Date now) /\
    JsObject.read e "id"
    = Some (default (JsObject.Json (Models.JStr i)) (JsObject.read input "id")) /\
    (forall k, k <> "id" -> k <> "createdAt" -> k <> "updatedAt" -> k <> "owner" ->
       JsObject.read e k = JsObject.read input k) /\
    JsObject.is_string (JsObject.read e "owner") owner = true.
Proof.
  intros endpoints input owner i now e endpoints'. subst e endpoints'.
  unfold EndpointObjects.createEndpoint, EndpointObjects.getEndpoint. cbn [fst snd].
  split; [apply lookup_insert_eq|].
  split; [intros j Hj; apply lookup_insert_ne; congruence|].
  split; [apply read_assign_eq|].
  split; [rewrite read_assign_ne by discriminate; rewrite read_assign_ne by discriminate;
          apply read_assign_eq|].
  split; [rewrite read_assign_ne by discriminate; apply read_assign_eq|].
  split; [|split].
  - rewrite !read_assign_ne by discriminate. rewrite read_spread, read_assign_eq.
    destruct (JsObject.read input "id"); reflexivity.
  - intros k H1 H2 H3 H4. rewrite !read_assign_ne by assumption.
    rewrite read_spread, read_assign_ne by assumption.
    destruct (JsObject.read input k); [reflexivity|].
    unfold JsObject.read. now rewrite lookup_empty.
  - rewrite read_assign_eq. apply String.eqb_refl.
Qed.

(** An endpoint created from a body with only the two required keys has
    no [fallbacks], [routingStrategy], [parameters] or [isPublic]; an [id]
    in the body replaces the generated one in the stored object, which is
    still stored under the generated key with the caller as its owner. *)
Example created_endpoint_has_no_defaults :
  JsObject.read created_endpoint "fallbacks" = None /\
  JsObject.read created_endpoint "routingStrategy" = None /\
  JsObject.read created_endpoint "parameters" = None /\
  JsObject.read created_endpoint "isPublic" = None /\
  JsObject.read
    (fst (EndpointObjects.createEndpoint ∅ (JsObject.of_json forged_body)
            "alice" "endpoint_1" 1000)) "id"
  = Some (JsObject.Json (Models.JStr "endpoint_0")).
Proof. repeat split; vm_compute; reflexivity. Qed.

(** X7.  [deleteEndpoint] succeeds exactly when the endpoint exists and the
    caller owns it; it then removes that endpoint and no other.  Otherwise
    the store is unchanged. *)
Theorem deleteEndpoint_owner_only :
  forall (endpoints : gmap string Endpoints.CustomEndpointConfig) (i caller : string),
    let result := Endpoints.deleteEndpoint endpoints i caller in
    (fst result = true <->
       exists e, endpoints !! i = Some e /\ Endpoints.owner e = caller) /\
    (fst result = true ->
       snd result !! i = None /\ forall j, j <> i -> snd result !! j = endpoints !! j) /\
    (fst result = false -> snd result = endpoints).
Proof.
  intros endpoints i caller result. subst result. unfold Endpoints.deleteEndpoint.
  destruct (endpoints !! i) as [e|] eqn:He.
  - destruct (String.eqb_spec (Endpoints.owner e) caller) as [Ho|Ho]; cbn.
    + split; [split; [eauto|reflexivity]|]. split; [|discriminate].
      intros _. split; [apply lookup_delete_eq|].
      intros j Hj. apply lookup_delete_ne. congruence.
    + split; [split; [discriminate|]|split; [discriminate|reflexivity]].
      intros (e' & [= <-] & Ho'). contradiction.
  - cbn. split; [split; [discriminate|]|split; [discriminate|reflexivity]].
    intros (e' & He' & _). discriminate.
Qed.

(** X8.  Creating an endpoint under an unused identifier and deleting it
    as its owner gives back the original store; nobody else can delete
    it. *)
Theorem create_then_delete_restores :
  forall (endpoints : gmap string Endpoints.CustomEndpointConfig)
         (input : Endpoints.CustomEndpointInput) (owner_ other i : string) (now : Z),
    endpoints !! i = None ->
    other <> owner_ ->
    let endpoints' := snd (Endpoints.createEndpoint endpoints input owner_ i now) in
    Endpoints.deleteEndpoint endpoints' i owner_ = (true, endpoints) /\
    Endpoints.deleteEndpoint endpoints' i other = (false, endpoints').
Proof.
  intros endpoints input owner_ other i now Hfresh Hne endpoints'. subst endpoints'.
  unfold Endpoints.createEndpoint, Endpoints.deleteEndpoint. cbn [snd].
  rewrite lookup_insert_eq. cbn [Endpoints.owner]. rewrite String.eqb_refl. cbn.
  rewrite delete_insert_eq, delete_id by assumption.
  split; [reflexivity|].
  destruct (String.eqb_spec owner_ other); [congruence|reflexivity].
Qed.

Lemma create_then_delete_restores_witness :
  Endpoints.deleteEndpoint
    (snd (Endpoints.createEndpoint demo_endpoints demo_full_input "bob" "endpoint_2" 5))
    "endpoint_2" "bob" = (true, demo_endpoints) /\
  Endpoints.deleteEndpoint
    (snd (Endpoints.createEndpoint demo_endpoints demo_full_input "bob" "endpoint_2" 5))
    "endpoint_2" "alice"
  = (false, snd (Endpoints.createEndpoint demo_endpoints demo_full_input "bob" "endpoint_2" 5)).
Proof.
  apply (create_then_delete_restores demo_endpoints demo_full_input "bob" "alice"
           "endpoint_2" 5); [vm_compute; reflexivity | discriminate].
Defined.

(** X9.  Caller beats preset.  The rewriter forces the endpoint's model
    and strategy; every sampling knob and the fallbacks the caller supplied
    are kept, an absent knob takes the preset; nothing else changes except
    that a system message may be put in front of the caller's messages, and
    only when the caller sent none. *)
Theorem rewriter_precedence :
  forall (endpoints : gmap string Endpoints.CustomEndpointConfig) (endpointId : string)
         (r r' : Models.ModelRequest),
    Endpoints.applyEndpointToRequest endpoints endpointId r = Some r' ->
    exists e,
      endpoints !! endpointId = Some e /\
      Models.model r' = Endpoints.baseModel e /\
      Models.route r' = Some (Endpoints.routingStrategy e) /\
      Models.temperature r'
        = Endpoints.fill (Models.temperature r)
            (Endpoints.p_temperature (Endpoints.parameters e)) /\
      Models.max_tokens r'
        = Endpoints.fill (Models.max_tokens r)
            (Endpoints.p_maxTokens (Endpoints.parameters e)) /\
      Models.top_p r'
        = Endpoints.fill (Models.top_p r) (Endpoints.p_topP (Endpoints.parameters e)) /\
      Models.frequency_penalty r'
        = Endpoints.fill (Models.frequency_penalty r)
            (Endpoints.p_frequencyPenalty (Endpoints.parameters e)) /\
      Models.presence_penalty r'
        = Endpoints.fill (Models.presence_penalty r)
            (Endpoints.p_presencePenalty (Endpoints.parameters e)) /\
      (forall f, Models.fallbacks r = Some f -> Models.fallbacks r' = Some f) /\
      (Models.fallbacks r = None ->
       Models.fallbacks r' = match Endpoints.fallbacks e with
                             | [] => None
                             | l => Some l
                             end) /\
      Models.stream r' = Models.stream r /\ Models.stop r' = Models.stop r /\
      Models.functions r' = Models.functions r /\
      Models.function_call r' = Models.function_call r /\
      Models.tools r' = Models.tools r /\
      Models.response_format r' = Models.response_format r /\
      (Endpoints.has_system (Models.messages r) = true ->
       Models.messages r' = Models.messages r) /\
      (Models.messages r' = Models.messages r \/
       exists prompt, Endpoints.systemPrompt e = Some prompt /\ prompt <> "" /\
                      Models.messages r'
                      = Some (Models.mkMessage Models.system (Models.CString prompt) None
                                :: default [] (Models.messages r))).
Proof.
  intros endpoints endpointId r r'. unfold Endpoints.applyEndpointToRequest.
  destruct (endpoints !! endpointId) as [e|]; [|discriminate].
  intros [= <-]. exists e. split; [reflexivity|].
  destruct r as [m ms t mt tp st sp fp pp fns fc tl rt fb rf].
  destruct e as [i nm d bm efb rs [pt pmt ptp pfp ppp] sys ca ua ow pub key rl].
  unfold Endpoints.applyEndpoint. cbn.
  destruct sys as [prompt|]; [destruct (Router.truthy_string prompt) eqn:Et|];
    destruct fb as [fb|]; destruct efb as [|x efb]; cbn;
    try destruct (Endpoints.has_system ms) eqn:Es; cbn;
    repeat (split; [first [reflexivity | discriminate | congruence
                           | intros; congruence]|]);
    try (left; reflexivity);
    right; exists prompt; (split; [reflexivity|]); (split; [|reflexivity]);
    intros ->; discriminate.
Qed.

Lemma rewriter_precedence_witness :
  exists e,
    demo_endpoints !! "endpoint_1" = Some e /\
    Models.model (Endpoints.applyEndpoint demo_endpoint demo_request) = Endpoints.baseModel e.
Proof.
  destruct (rewriter_precedence demo_endpoints "endpoint_1" demo_request
              (Endpoints.applyEndpoint demo_endpoint demo_request))
    as (e & He & Hm & _); [vm_compute; reflexivity|].
  exists e. split; assumption.
Defined.

(** X10.  [listEndpoints] returns exactly the stored endpoints that the
    caller owns or that are public, and reading one endpoint by identifier
    succeeds exactly for the endpoints of that list. *)
Theorem listed_endpoints_are_the_readable_ones :
  forall (endpoints : gmap string Endpoints.CustomEndpointConfig) (caller : string)
         (e : Endpoints.CustomEndpointConfig),
    (In e (Endpoints.listEndpoints endpoints caller) <->
       exists i, endpoints !! i = Some e /\
                 (Endpoints.owner e = caller \/ Endpoints.isPublic e = true)) /\
    (forall i, EndpointRoute.GET_endpoint endpoints i caller = EndpointRoute.Found e <->
               endpoints !! i = Some e /\ In e (Endpoints.listEndpoints endpoints caller)).
Proof.
  intros endpoints caller e.
  assert (Hacc : Endpoints.accessible e caller = true <->
                 (Endpoints.owner e = caller \/ Endpoints.isPublic e = true)).
  { unfold Endpoints.accessible. rewrite orb_true_iff, String.eqb_eq. reflexivity. }
  assert (Hlist : In e (Endpoints.listEndpoints endpoints caller) <->
                  exists i, endpoints !! i = Some e /\ Endpoints.accessible e caller = true).
  { unfold Endpoints.listEndpoints. rewrite filter_In, <- list_elem_of_In, list_elem_of_fmap.
    split.
    - intros [([i x] & -> & Hin) Ha]. apply elem_of_map_to_list in Hin. eauto.
    - intros (i & Hi & Ha). split; [|assumption].
      exists (i, e). split; [reflexivity|]. now apply elem_of_map_to_list. }
  split.
  - rewrite Hlist. split; intros (i & Hi & Ha); exists i; (split; [assumption|]);
      now apply Hacc.
  - intros i. unfold EndpointRoute.GET_endpoint, Endpoints.getEndpoint. rewrite Hlist.
    destruct (endpoints !! i) as [x|] eqn:Hx.
    + assert (negb (Endpoints.owner x =? caller)%string && negb (Endpoints.isPublic x)
              = negb (Endpoints.accessible x caller)) as ->.
      { unfold Endpoints.accessible. now rewrite negb_orb. }
      destruct (Endpoints.accessible x caller) eqn:Ha; cbn.
      * split.
        -- intros [= ->]. split; [reflexivity|]. eauto.
        -- intros [[= ->] _]. reflexivity.
      * split; [discriminate|]. intros [[= ->] (j & Hj & Ha')]. congruence.
    + split; [discriminate|]. intros [H _]. discriminate.
Qed.

(** ** Response cache: sweeping, invalidation, fingerprints *)

Section CacheMore.
Import Models Cache.
Variable P : Platform.

Lemma get_result cm request options now :
  fst (getCachedResponse P cm request options now)
  = if on (cachingEnabled (merge (defaultOptions cm) options))
    then match cache cm !! generateCacheKey P request (merge (defaultOptions cm) options) with
         | Some c => if (now <? expiresAt c)%Z then Some c else None
         | None => None
         end
    else None.
Proof.
  unfold getCachedResponse.
  destruct (on (cachingEnabled (merge (defaultOptions cm) options))); [|reflexivity].
  cbn. destruct (cache cm !! _) as [c|]; [|reflexivity].
  destruct (now <? expiresAt c)%Z; reflexivity.
Qed.

End CacheMore.

(** X11.  The periodic sweep removes exactly the entries that have expired
    and no reader can tell that it ran: at the time of the sweep or later,
    every lookup returns what it would have returned without it. *)
Theorem sweep_is_invisible :
  forall (P : Models.Platform) (cm : Cache.CacheManager) (now : Z),
    let cm' := Cache.cleanupExpiredItems cm now in
    (forall k c, Cache.cache cm' !! k = Some c <->
                 Cache.cache cm !! k = Some c /\ (now < Cache.expiresAt c)%Z) /\
    (forall r options now',
        (now <= now')%Z ->
        fst (Cache.getCachedResponse P cm' r options now')
        = fst (Cache.getCachedResponse P cm r options now')).
Proof.
  intros P cm now cm'.
  assert (Hl : forall k c, Cache.cache cm' !! k = Some c <->
                           Cache.cache cm !! k = Some c /\ (now < Cache.expiresAt c)%Z).
  { intros k c. subst cm'. unfold Cache.cleanupExpiredItems. cbn.
    rewrite map_lookup_filter_Some. reflexivity. }
  split; [exact Hl|].
  intros r options now' Hle. rewrite !get_result.
  replace (Cache.defaultOptions cm') with (Cache.defaultOptions cm) by reflexivity.
  destruct (Cache.on _); [|reflexivity].
  set (k := Cache.generateCacheKey P r _).
  destruct (Cache.cache cm !! k) as [c|] eqn:Hc.
  - destruct (now' <? Cache.expiresAt c)%Z eqn:E.
    + apply Z.ltb_lt in E.
      assert (Cache.cache cm' !! k = Some c) as -> by (apply Hl; split; [assumption|lia]).
      apply Z.ltb_lt in E. now rewrite E.
    + destruct (Cache.cache cm' !! k) as [c'|] eqn:Hc'; [|reflexivity].
      apply Hl in Hc' as [Hc' _]. rewrite Hc in Hc'. injection Hc' as <-. now rewrite E.
  - destruct (Cache.cache cm' !! k) as [c'|] eqn:Hc'; [|reflexivity].
    apply Hl in Hc' as [Hc' _]. congruence.
Qed.

Lemma sweep_is_invisible_witness :
  fst (Cache.getCachedResponse Spec.demo_platform
         (Cache.cleanupExpiredItems (Services.cacheManager (warm_services 0)) 2000)
         demo_request None 2000)
  = fst (Cache.getCachedResponse Spec.demo_platform (Services.cacheManager (warm_services 0))
           demo_request None 2000).
Proof.
  destruct (sweep_is_invisible Spec.demo_platform (Services.cacheManager (warm_services 0)) 2000)
    as [_ H].
  apply H. lia.
Defined.

(** X12.  [invalidateCache] without an argument empties the cache and
    returns how many entries it held.  With a partial request it removes
    exactly the entries stored for that (non-empty) model, keeps all the
    others, and returns the number removed. *)
Theorem invalidateCache_counts :
  forall (cm : Cache.CacheManager) (partialRequest : option (option string)),
    let n := fst (Cache.invalidateCache cm partialRequest) in
    let cm' := snd (Cache.invalidateCache cm partialRequest) in
    (n + size (Cache.cache cm') = size (Cache.cache cm))%nat /\
    Cache.defaultOptions cm' = Cache.defaultOptions cm /\
    (partialRequest = None -> Cache.cache cm' = ∅) /\
    (forall model_ k c,
        partialRequest = Some model_ ->
        (Cache.cache cm' !! k = Some c <->
         Cache.cache cm !! k = Some c /\
         ~ (exists m, model_ = Some m /\ m <> "" /\ Cache.modelId c = m))).
Proof.
  intros cm partialRequest n cm'. subst n cm'. unfold Cache.invalidateCache.
  destruct partialRequest as [model_|]; cbn [fst snd Cache.cache Cache.defaultOptions].
  - split; [|split; [reflexivity|split; [discriminate|]]].
    + set (Q := fun kv : string * Cache.CachedResponse =>
                  Cache.matches_partial model_ (snd kv) = true).
      assert (Heq : filter (fun kv : string * Cache.CachedResponse =>
                              Cache.matches_partial model_ (snd kv) = false) (Cache.cache cm)
                    = filter (fun kv => ~ Q kv) (Cache.cache cm)).
      { apply map_filter_ext. intros i x _. unfold Q.
        destruct (Cache.matches_partial model_ (snd (i, x))); split; congruence. }
      rewrite Heq.
      rewrite <- (map_size_disj_union _ _ (map_disjoint_filter_complement Q (Cache.cache cm))).
      now rewrite map_filter_union_complement.
    + intros m k c [= E]. subst m. rename model_ into m.
      rewrite map_lookup_filter_Some. cbn [snd].
      unfold Cache.matches_partial.
      split; intros [Hc Hm]; (split; [exact Hc|]).
      * intros (m' & -> & Hne & Hid).
        apply andb_false_iff in Hm as [Hm|Hm].
        -- unfold Router.truthy_string in Hm. apply negb_false_iff, String.eqb_eq in Hm.
           contradiction.
        -- apply String.eqb_neq in Hm. contradiction.
      * destruct m as [m'|]; [|reflexivity].
        apply andb_false_iff.
        destruct (String.eqb_spec m' ""); [left; subst; reflexivity|].
        right. apply String.eqb_neq. intros Hid. apply Hm. eauto.
  - rewrite map_size_empty. split; [lia|]. split; [reflexivity|]. split; [reflexivity|].
    intros m k c [=].
Qed.

(** X13.  The fingerprint does not look at [stream]: two requests that
    differ only there share their cache entry.  When the options say so it
    does not look at [temperature] or [top_p] either. *)
Theorem fingerprint_ignores_dropped_fields :
  forall (P : Models.Platform) (r1 r2 : Models.ModelRequest) (options : Cache.CacheOptions),
    let strip r :=
      let a := Models.delete_stream r in
      let b := if Cache.on (Cache.ignoreTemperature options)
               then Models.delete_temperature a else a in
      if Cache.on (Cache.ignoreTopP options) then Models.delete_top_p b else b in
    strip r1 = strip r2 ->
    Cache.generateCacheKey P r1 options = Cache.generateCacheKey P r2 options.
Proof.
  intros P r1 r2 options strip H. unfold Cache.generateCacheKey, Cache.normalize.
  subst strip. cbv beta zeta in H. now rewrite H.
Qed.

Lemma fingerprint_ignores_dropped_fields_witness :
  Cache.generateCacheKey Spec.demo_platform demo_request Cache.DEFAULT_CACHE_OPTIONS
  = Cache.generateCacheKey Spec.demo_platform streaming_request Cache.DEFAULT_CACHE_OPTIONS.
Proof.
  apply (fingerprint_ignores_dropped_fields Spec.demo_platform demo_request streaming_request
           Cache.DEFAULT_CACHE_OPTIONS).
  reflexivity.
Defined.

(** X14.  One answer per fingerprint, last writer wins: storing a second
    response for the same request under the same options replaces the
    first, the cache does not grow, and a lookup returns the second. *)
Theorem last_writer_wins :
  forall (P : Models.Platform) (cm : Cache.CacheManager) (r : Models.ModelRequest)
         (resp1 resp2 : Models.ModelResponse) (u1 u2 : Cache.TokenUsage)
         (options : option Cache.PartialOptions) (t1 t2 now : Z),
    Cache.on (Cache.cachingEnabled (Cache.merge (Cache.defaultOptions cm) options)) = true ->
    (now < t2 + Cache.ttl (Cache.merge (Cache.defaultOptions cm) options))%Z ->
    let cm1 := Cache.setCachedResponse P cm r resp1 u1 options t1 in
    let cm2 := Cache.setCachedResponse P cm1 r resp2 u2 options t2 in
    size (Cache.cache cm2) = size (Cache.cache cm1) /\
    cm2 = Cache.setCachedResponse P cm r resp2 u2 options t2 /\
    exists c, fst (Cache.getCachedResponse P cm2 r options now) = Some c /\
              Cache.response c = resp2 /\ Cache.createdAt c = t2.
Proof.
  intros P cm r resp1 resp2 u1 u2 options t1 t2 now He Hlt cm1 cm2.
  assert (Hd1 : Cache.defaultOptions cm1 = Cache.defaultOptions cm) by apply merge_after_set.
  assert (E2 : cm2 = Cache.setCachedResponse P cm r resp2 u2 options t2).
  { subst cm2 cm1. unfold Cache.setCachedResponse at 1. rewrite merge_after_set.
    unfold Cache.setCachedResponse. rewrite He. cbn. now rewrite insert_insert_eq. }
  split; [|split; [exact E2|]].
  - rewrite E2. subst cm1. unfold Cache.setCachedResponse. rewrite He. cbn.
    rewrite !map_size_insert. reflexivity.
  - rewrite E2. clear E2 cm2 cm1 Hd1.
    set (cm3 := Cache.setCachedResponse P cm r resp2 u2 options t2).
    pose proof (set_stores P cm r resp2 u2 options t2 He) as Hs. fold cm3 in Hs.
    pose proof (get_hit P cm3 r options now) as Hg.
    replace (Cache.defaultOptions cm3) with (Cache.defaultOptions cm) in Hg
      by (symmetry; apply merge_after_set).
    rewrite (Hg _ He Hs); [|cbn; lia].
    eexists. repeat split; reflexivity.
Qed.

Lemma last_writer_wins_witness :
  exists c,
    fst (Cache.getCachedResponse Spec.demo_platform
           (Cache.setCachedResponse Spec.demo_platform
              (Cache.setCachedResponse Spec.demo_platform Cache.initial demo_request
                 demo_response (Cache.mkTokenUsage 1 2 3) None 10)
              demo_request demo_response (Cache.mkTokenUsage 4 5 9) None 20)
           demo_request None 30) = Some c /\
    Cache.response c = demo_response /\ Cache.createdAt c = 20%Z.
Proof.
  destruct (last_writer_wins Spec.demo_platform Cache.initial demo_request demo_response
              demo_response (Cache.mkTokenUsage 1 2 3) (Cache.mkTokenUsage 4 5 9) None
              10 20 30) as (_ & _ & H); [reflexivity | reflexivity | exact H].
Defined.

(** ** The request schema *)

Section SchemaMore.
Import Models Schema.

Lemma optional_range lo hi v q :
  optional (z_number_range lo hi) v = Some (Some q) -> (lo <= q <= hi)%Q.
Proof.
  destruct v as [j|]; [|discriminate]. cbn.
  destruct j; try discriminate. cbn.
  destruct (num_le lo q0 && num_le q0 hi) eqn:E; [|discriminate].
  intros [= <-]. apply andb_true_iff in E as [E1 E2].
  split; apply Qle_bool_iff; assumption.
Qed.

Lemma optional_positive_int v n :
  optional z_positive_int v = Some (Some n) -> (0 < n)%Z.
Proof.
  destruct v as [j|]; [|discriminate]. cbn.
  destruct j; try discriminate. cbn.
  destruct (num_lt 0 q && is_integer q) eqn:E; [|discriminate].
  intros [= <-]. apply andb_true_iff in E as [E1 E2].
  unfold num_lt in E1. apply negb_true_iff in E1.
  destruct q as [a b]. cbn in *.
  unfold is_integer in E2. cbn in E2. apply Z.eqb_eq in E2.
  assert (Ha : (0 < a)%Z).
  { destruct (Z_lt_le_dec 0 a) as [|Hle]; [assumption|].
    assert (Qle_bool (a # b) 0 = true) as Hc; [|congruence].
    apply Qle_bool_iff. unfold Qle. cbn. lia. }
  pose proof (Z.div_mod a (Zpos b) ltac:(lia)) as Hd. rewrite E2 in Hd.
  nia.
Qed.

End SchemaMore.

(** X15.  Every body the schema accepts yields a request whose [messages]
    are present and whose sampling knobs, when present, are in range:
    [temperature] in [0, 2], [top_p] in [0, 1], both penalties in [-2, 2]
    and [max_tokens] a positive integer. *)
Theorem accepted_request_is_in_range :
  forall (body : Models.JsonValue) (r : Models.ModelRequest),
    Schema.parse body = Schema.ZodOk r ->
    (exists ms, Models.messages r = Some ms) /\
    (forall t, Models.temperature r = Some t -> (0 <= t <= 2)%Q) /\
    (forall p, Models.top_p r = Some p -> (0 <= p <= 1)%Q) /\
    (forall f, Models.frequency_penalty r = Some f -> (-2 <= f <= 2)%Q) /\
    (forall p, Models.presence_penalty r = Some p -> (-2 <= p <= 2)%Q) /\
    (forall n, Models.max_tokens r = Some n -> (0 < n)%Z).
Proof.
  intros body r H. unfold Schema.parse in H.
  destruct body as [| | | | |fs]; try discriminate.
  destruct (Schema.check_messages fs) as [ms|]; [|discriminate].
  destruct (Schema.check_rest fs) as [k|] eqn:Hk; [|discriminate].
  injection H as <-. unfold Schema.check_rest in Hk.
  destruct (Schema.required Schema.z_string _) as [m|]; [|discriminate].
  destruct (Schema.optional (Schema.z_number_range 0 2) _) as [t|] eqn:Ht; [|discriminate].
  destruct (Schema.optional Schema.z_positive_int _) as [mt|] eqn:Hmt; [|discriminate].
  destruct (Schema.optional (Schema.z_number_range 0 1) _) as [tp|] eqn:Htp; [|discriminate].
  destruct (Schema.optional Schema.z_boolean _) as [st|]; [|discriminate].
  destruct (Schema.optional Schema.z_stop _) as [sp|]; [|discriminate].
  destruct (Schema.optional (Schema.z_number_range (-2) 2) (Schema.field "frequency_penalty" fs))
    as [fp|] eqn:Hfp; [|discriminate].
  destruct (Schema.optional (Schema.z_number_range (-2) 2) (Schema.field "presence_penalty" fs))
    as [pp|] eqn:Hpp; [|discriminate].
  destruct (Schema.optional (Schema.z_array Schema.z_function) _) as [fns|]; [|discriminate].
  destruct (Schema.optional Schema.z_function_call _) as [fc|]; [|discriminate].
  destruct (Schema.optional (Schema.z_array Schema.z_tool) _) as [tl|]; [|discriminate].
  destruct (Schema.optional Schema.z_route _) as [rt|]; [|discriminate].
  destruct (Schema.optional (Schema.z_array Schema.z_string) _) as [fb|]; [|discriminate].
  destruct (Schema.optional Schema.z_response_format _) as [rf|]; [|discriminate].
  cbn in Hk. injection Hk as <-. cbn.
  split; [eauto|].
  split; [intros ? ->; exact (optional_range _ _ _ _ Ht)|].
  split; [intros ? ->; exact (optional_range _ _ _ _ Htp)|].
  split; [intros ? ->; exact (optional_range _ _ _ _ Hfp)|].
  split; [intros ? ->; exact (optional_range _ _ _ _ Hpp)|].
  intros ? ->; exact (optional_positive_int _ _ Hmt).
Qed.

Lemma accepted_request_is_in_range_witness : (0 <= 7 # 10 <= 2)%Q.
Proof.
  destruct (accepted_request_is_in_range (Models.JObj demo_body)
              (Models.mkRequest "openai/gpt-4o"
                 (Some [Models.mkMessage Models.user (Models.CString "Hi") None])
                 (Some (7 # 10)) (Some 256%Z) None None None None None None None None None
                 None None))
    as (_ & H & _); [vm_compute; reflexivity|].
  apply H. reflexivity.
Defined.

(** X16.  The schema reads fifteen keys of the body and nothing else: two
    objects that agree on those keys are accepted or rejected alike and
    parse to the same request. *)
Theorem parse_reads_known_keys_only :
  forall (fs fs' : list (string * Models.JsonValue)),
    (forall k,
        In k ["model"; "messages"; "temperature"; "max_tokens"; "top_p"; "stream"; "stop";
              "frequency_penalty"; "presence_penalty"; "functions"; "function_call";
              "tools"; "route"; "fallbacks"; "response_format"] ->
        Schema.field k fs = Schema.field k fs') ->
    Schema.parse (Models.JObj fs) = Schema.parse (Models.JObj fs').
Proof.
  intros fs fs' H. unfold Schema.parse, Schema.check_messages, Schema.check_rest.
  repeat match goal with
  | |- context [Schema.field ?k fs] =>
      rewrite (H k) by (cbn; tauto)
  end.
  reflexivity.
Qed.

Lemma parse_reads_known_keys_only_witness :
  Schema.parse (Models.JObj demo_body) = Schema.parse (Models.JObj demo_body_extra).
Proof.
  apply parse_reads_known_keys_only.
  intros k Hk. cbn in Hk.
  repeat (destruct Hk as [<-|Hk]; [reflexivity|]). contradiction.
Defined.

(** ** Batch processor: life cycle, queue order, results *)

Section BatchShapeFacts.
Import Models Batch BatchInv BatchShape.

Lemma lifecycle_snoc l b :
  lifecycle l ->
  (l = [] -> status b = pending) ->
  (forall x, last l = Some x -> legal (status x) (status b)) ->
  lifecycle (l ++ [b]).
Proof.
  intros [Hh Hc] Hnil Hlast. split.
  - destruct l as [|x l]; cbn; [intros b' [= <-]; auto|]. intros b' Hb'. apply Hh. exact Hb'.
  - intros k b1 b2 H1 H2.
    destruct (decide (S k < length l)%nat) as [Hlt|Hge].
    + rewrite lookup_app_l in H1 by lia. rewrite lookup_app_l in H2 by lia. eauto.
    + assert (k < length l)%nat as Hk.
      { destruct (decide (k < length l)%nat); [assumption|].
        rewrite lookup_app_r in H1 by lia.
        apply lookup_lt_Some in H2. rewrite length_app in H2. cbn in H2. lia. }
      rewrite lookup_app_l in H1 by lia.
      rewrite lookup_app_r in H2 by lia.
      assert (S k - length l = 0)%nat as E by lia. rewrite E in H2. cbn in H2.
      injection H2 as <-. apply Hlast. rewrite last_lookup.
      assert (pred (length l) = k) as -> by lia. exact H1.
Qed.

Lemma lifecycle_store_set w k b :
  hist_ok w -> (forall i, lifecycle (history i w)) ->
  match batchRequests w !! k with
  | Some x => legal (status x) (status b)
  | None => status b = pending
  end ->
  forall i, lifecycle (history i (store_set k b w)).
Proof.
  intros Hh Hl Hk i. rewrite history_store_set.
  destruct (String.eqb_spec k i) as [->|Hne]; [|rewrite app_nil_r; apply Hl].
  destruct (Hh i) as (Hlast & _).
  apply lifecycle_snoc; [apply Hl| |].
  - intros E. rewrite E in Hlast. cbn in Hlast. now rewrite <- Hlast in Hk.
  - intros x Hx. rewrite Hx in Hlast. now rewrite <- Hlast in Hk.
Qed.

Lemma lifecycle_same w w' :
  writes w' = writes w -> (forall i, lifecycle (history i w)) ->
  forall i, lifecycle (history i w').
Proof. intros E H i. unfold history. rewrite E. apply H. Qed.

Lemma rank_insert_ne m k b i : i <> k -> rank (<[k := b]> m) i = rank m i.
Proof. intros H. unfold rank. now rewrite lookup_insert_ne by congruence. Qed.

Lemma sorted_insert m k b q :
  k ∉ q -> sorted_queue m q -> sorted_queue (<[k := b]> m) q.
Proof.
  unfold sorted_queue. induction q as [|x q IH]; intros Hk Hs; [constructor|].
  apply not_elem_of_cons in Hk as [Hne Hk].
  apply StronglySorted_inv in Hs as [Hs Hall].
  constructor; [auto|].
  rewrite List.Forall_forall in *. intros y Hy.
  rewrite !rank_insert_ne.
  - now apply Hall.
  - intros ->. apply Hk. now apply list_elem_of_In.
  - congruence.
Qed.

Lemma priorityValue_nonneg p : (0 <= priorityValue p)%Z.
Proof. destruct p; cbn; lia. Qed.

Lemma rank_nonneg m i : (0 <= rank m i)%Z.
Proof. unfold rank. destruct (m !! i); [apply priorityValue_nonneg|lia]. Qed.

Lemma sorted_enqueue m i q :
  sorted_queue m q -> sorted_queue m (enqueue m (rank m i) i q).
Proof.
  unfold sorted_queue. induction q as [|x q IH]; intros Hs; cbn.
  - constructor; constructor.
  - apply StronglySorted_inv in Hs as [Hs Hall].
    assert (Hkeep : (rank m x <= rank m i)%Z ->
                    StronglySorted (fun i j => (rank m i <= rank m j)%Z)
                      (x :: enqueue m (rank m i) i q)).
    { intros Hle. constructor; [auto|].
      rewrite List.Forall_forall in *. intros y Hy.
      apply list_elem_of_In, enqueue_elem in Hy as [->|Hy]; [assumption|].
      apply Hall. now apply list_elem_of_In. }
    destruct (m !! x) as [qb|] eqn:Hx.
    + destruct (rank m i <? priorityValue (priority qb))%Z eqn:E.
      * apply Z.ltb_lt in E.
        assert (Hrx : rank m x = priorityValue (priority qb)) by (unfold rank; now rewrite Hx).
        constructor; [constructor; assumption|].
        constructor; [lia|].
        rewrite List.Forall_forall in *. intros y Hy. specialize (Hall y Hy). lia.
      * apply Z.ltb_ge in E. apply Hkeep. unfold rank at 1. now rewrite Hx.
    + apply Hkeep. unfold rank at 1. rewrite Hx. apply rank_nonneg.
Qed.

Lemma remove_first_subset i q x : x ∈ remove_first i q -> x ∈ q.
Proof.
  induction q as [|y q IH]; cbn; [auto|].
  destruct (String.eqb y i).
  - intros H. now right.
  - rewrite !elem_of_cons. intros [->|H]; [now left|right; auto].
Qed.

Lemma sorted_remove_first m i q :
  sorted_queue m q -> sorted_queue m (remove_first i q).
Proof.
  unfold sorted_queue. induction q as [|y q IH]; intros Hs; cbn; [constructor|].
  apply StronglySorted_inv in Hs as [Hs Hall].
  destruct (String.eqb y i); [assumption|].
  constructor; [auto|].
  rewrite List.Forall_forall in *. intros x Hx.
  apply Hall. apply list_elem_of_In. eapply remove_first_subset.
  apply list_elem_of_In. exact Hx.
Qed.

Lemma shape_insert (m : gmap string BatchRequest) k b :
  (forall i x, m !! i = Some x -> shape x) -> shape b ->
  forall i x, <[k := b]> m !! i = Some x -> shape x.
Proof.
  intros Hm Hb i x Hx. destruct (decide (k = i)) as [->|Hne].
  - rewrite lookup_insert_eq in Hx. now injection Hx as <-.
  - rewrite lookup_insert_ne in Hx by assumption. eauto.
Qed.

(** The terminal update of a batch that is being processed. *)
Lemma complete_shape batchId batch rs now w cur :
  hist_ok w ->
  (forall i b, batchRequests w !! i = Some b -> shape b) ->
  (forall i, lifecycle (history i w)) ->
  batchRequests w !! batchId = Some cur -> status cur = processing ->
  status batch = pending -> shape batch ->
  length rs = length (requests batch) ->
  let w' := complete batchId batch rs now w in
  batchRequests w' = <[batchId := mark_completed batch rs now]> (batchRequests w) /\
  (forall i b, batchRequests w' !! i = Some b -> shape b) /\
  (forall i, lifecycle (history i w')).
Proof.
  intros Hh Hs Hl Hcur Hproc Hpend Hshape Hlen w'.
  destruct (complete_fields batchId batch rs now w) as [c E]. subst w'. rewrite E.
  cbn [batchRequests]. split; [reflexivity|]. split.
  - apply shape_insert; [exact Hs|].
    unfold shape in *. rewrite Hpend in Hshape. cbn.
    destruct Hshape as (_ & _ & He & _). split; [exact He|].
    exists rs, now. repeat split. exact Hlen.
  - apply lifecycle_same with (w := store_set batchId (mark_completed batch rs now) w);
      [reflexivity|].
    apply lifecycle_store_set; [assumption|assumption|].
    rewrite Hcur, Hproc. exact I.
Qed.

Lemma drain_J now q :
  forall w,
    processingQueue w = q -> running w = None ->
    store_ok (batchRequests w) -> queue_ok (batchRequests w) q -> hist_ok w ->
    (forall i b, batchRequests w !! i = Some b -> shape b) ->
    (forall i b, batchRequests w !! i = Some b -> status b <> processing) ->
    sorted_queue (batchRequests w) q ->
    (forall i, lifecycle (history i w)) ->
    J (drain now q w).
Proof.
  induction q as [|batchId rest IH]; intros w Hq Hr Hs Hqo Hh Hsh Hnp Hso Hl.
  - cbn. unfold J. cbn. rewrite Hq, Hr.
    split; [exact Hsh|]. split; [intros i b Hb Hp; now apply Hnp in Hb|].
    split; [exact Hso|]. split; [exact Hl|]. intros run [=].
  - cbn [drain].
    pose proof Hqo as [Hnd _].
    apply queue_ok_cons in Hqo as (Hrest & Hnotin & batch & Hb & Hst & Hc0 & Hf0).
    pose proof Hso as Hso'. apply StronglySorted_inv in Hso' as [Hsrest _].
    destruct (negb (Router.truthy_string batchId)).
    { unfold J. cbn. rewrite Hr.
      split; [exact Hsh|]. split; [intros i b Hb' Hp; now apply Hnp in Hb'|].
      split; [exact Hsrest|]. split; [exact Hl|]. intros run [=]. }
    cbn [batchRequests set_queue set_isProcessing]. rewrite Hb.
    destruct (Hs _ _ Hb) as (Hid & Hrc & Hg).
    pose proof (Hsh _ _ Hb) as Hshb.
    set (w1 := set_queue rest (set_isProcessing true w)).
    set (w2 := store_set batchId (mark_processing batch) w1).
    assert (Hs2 : store_ok (batchRequests w2)) by (apply store_ok_insert; auto).
    assert (Hq2 : queue_ok (batchRequests w2) rest) by (apply queue_ok_insert; auto).
    assert (Hh2 : hist_ok w2).
    { apply hist_ok_store_set; [exact Hh|exact Hg|].
      intros x Hx. cbn in Hx. rewrite Hb in Hx. injection Hx as <-.
      unfold le_counts. cbn. lia. }
    assert (Hsh2 : forall i b, batchRequests w2 !! i = Some b -> shape b).
    { apply shape_insert; [exact Hsh|].
      unfold shape in *. rewrite Hst in Hshb. cbn. tauto. }
    assert (Hl2 : forall i, lifecycle (history i w2)).
    { apply lifecycle_store_set; [exact Hh|exact Hl|].
      cbn. rewrite Hb, Hst. exact I. }
    assert (Hso2 : sorted_queue (batchRequests w2) rest) by (apply sorted_insert; auto).
    assert (Hcur2 : batchRequests w2 !! batchId = Some (mark_processing batch))
      by apply lookup_insert_eq.
    destruct (requests batch) as [|r0 rs0] eqn:Hreq.
    + assert (Hrc' : requestCount batch = Z.of_nat (length (requests batch)))
        by (rewrite Hreq; exact Hrc).
      assert (Hlen : (length (@nil ResultEntry) <= length (requests batch))%nat)
        by (cbn; lia).
      destruct (complete_ok batchId batch [] now w2 rest (mark_processing batch)
                  Hs2 Hh2 Hq2 Hnotin Hcur2 Hc0 Hf0 Hlen Hid Hrc')
        as (Hs3 & Hh3 & Hq3 & Hpq & Hip & Hrun).
      assert (Hlen0 : length (@nil ResultEntry) = length (requests batch))
        by now rewrite Hreq.
      destruct (complete_shape batchId batch [] now w2 (mark_processing batch)
                  Hh2 Hsh2 Hl2 Hcur2 eq_refl Hst Hshb Hlen0)
        as (Hst3 & Hsh3 & Hl3).
      apply IH.
      * cbn. rewrite Hpq. reflexivity.
      * cbn. rewrite Hrun. exact Hr.
      * exact Hs3.
      * exact Hq3.
      * eapply hist_ok_same; [| |exact Hh3]; reflexivity.
      * exact Hsh3.
      * cbn [batchRequests set_isProcessing]. rewrite Hst3. intros i b Hib.
        destruct (decide (batchId = i)) as [->|Hne].
        -- rewrite lookup_insert_eq in Hib. injection Hib as <-. discriminate.
        -- rewrite lookup_insert_ne in Hib by assumption.
           cbn in Hib. rewrite lookup_insert_ne in Hib by assumption. eauto.
      * cbn [batchRequests set_isProcessing]. rewrite Hst3.
        apply sorted_insert; assumption.
      * apply lifecycle_same with (w := complete batchId batch [] now w2);
          [reflexivity|exact Hl3].
    + unfold J. cbn [batchRequests processingQueue running set_running].
      split; [exact Hsh2|]. split.
      { intros i b Hib Hp. exists (mkRun batchId batch 0 []). split; [reflexivity|]. cbn.
        destruct (decide (batchId = i)) as [|Hne]; [assumption|].
        cbn in Hib. rewrite lookup_insert_ne in Hib by assumption.
        now apply Hnp in Hib. }
      split; [exact Hso2|]. split; [exact Hl2|].
      intros run [= <-]. cbn. split; [exact Hst|exact Hshb].
Qed.

Lemma idle_no_processing w :
  J w -> running w = None ->
  forall i b, batchRequests w !! i = Some b -> status b <> processing.
Proof.
  intros (_ & Hp & _) Hr i b Hb Hs. destruct (Hp i b Hb Hs) as (run & Hrun & _). congruence.
Qed.

Lemma processNextBatch_J now w :
  Inv w -> J w -> isProcessing w = false -> J (processNextBatch now w).
Proof.
  intros HI HJ Hb. pose proof (idle_not_running w HI Hb) as Hr.
  destruct HI as (Hs & Hq & _ & Hh). pose proof HJ as (Hsh & _ & Hso & Hl & _).
  apply drain_J; auto. now apply idle_no_processing.
Qed.

Lemma initial_J : J initial.
Proof.
  unfold J, initial. cbn.
  split; [intros i b H; rewrite lookup_empty in H; discriminate|].
  split; [intros i b H; rewrite lookup_empty in H; discriminate|].
  split; [constructor|].
  split; [|intros run [=]].
  intros i. unfold history. cbn. split.
  - intros b [=].
  - intros k b1 b2 H. rewrite lookup_nil in H. discriminate.
Qed.

Lemma createBatch_J userId_ requests_ options i now w :
  Inv w -> J w -> batchRequests w !! i = None ->
  J (snd (createBatch userId_ requests_ options i now w)).
Proof.
  intros HI HJ Hfresh. pose proof HI as (Hs & Hq & Hr & Hh).
  pose proof HJ as (Hsh & Hp & Hso & Hl & Hsnap).
  unfold createBatch. cbn [snd].
  set (batch := mkBatch i userId_ requests_ now pending _ None None None _ 0 0 _ _).
  set (w0 := store_set i batch w).
  assert (Hi : i ∉ processingQueue w).
  { intros Hin. destruct Hq as [_ Hq]. destruct (Hq i Hin) as (b & Hb & _). congruence. }
  assert (Hg : good batch) by (unfold good; cbn; lia).
  assert (Hs0 : store_ok (batchRequests w0)) by (apply store_ok_insert; auto).
  assert (Hh0 : hist_ok w0).
  { apply hist_ok_store_set; [assumption|assumption|]. intros x Hx. congruence. }
  assert (Hsh0 : forall k b, batchRequests w0 !! k = Some b -> shape b).
  { apply shape_insert; [exact Hsh|]. unfold shape. cbn. tauto. }
  assert (Hl0 : forall k, lifecycle (history k w0)).
  { apply lifecycle_store_set; [exact Hh|exact Hl|]. now rewrite Hfresh. }
  assert (Hp0 : forall k b, batchRequests w0 !! k = Some b -> status b = processing ->
                            exists run, running w0 = Some run /\ run_batchId run = k).
  { intros k b Hb Hst. cbn in Hb. destruct (decide (i = k)) as [->|Hne].
    - rewrite lookup_insert_eq in Hb. injection Hb as <-. discriminate.
    - rewrite lookup_insert_ne in Hb by assumption. eauto. }
  unfold addToProcessingQueue. cbn [batchRequests w0 store_set]. rewrite lookup_insert_eq.
  fold w0.
  set (q1 := enqueue _ _ i _).
  assert (Hq1 : queue_ok (batchRequests w0) q1).
  { split.
    - apply enqueue_NoDup; [apply Hq|exact Hi].
    - intros x Hx. apply enqueue_elem in Hx as [->|Hx].
      + exists batch. cbn. rewrite lookup_insert_eq. auto.
      + destruct Hq as [_ Hq]. destruct (Hq x Hx) as (b & Hb & Hrest).
        exists b. split; [|assumption]. cbn. rewrite lookup_insert_ne; [assumption|].
        intros <-. contradiction. }
  assert (Hso1 : sorted_queue (batchRequests w0) q1).
  { subst q1.
    replace (priorityValue (priority batch)) with (rank (batchRequests w0) i)
      by (unfold rank; cbn; now rewrite lookup_insert_eq).
    apply sorted_enqueue. cbn. apply sorted_insert; assumption. }
  cbn [isProcessing set_queue].
  destruct (isProcessing w0) eqn:Hbusy; cbn [negb].
  - unfold J. cbn [batchRequests processingQueue running set_queue].
    split; [exact Hsh0|]. split; [exact Hp0|]. split; [exact Hso1|].
    split; [exact Hl0|exact Hsnap].
  - unfold processNextBatch. cbn [processingQueue set_queue].
    assert (Hrun : running w = None) by (apply (idle_not_running w HI); exact Hbusy).
    apply drain_J; auto.
    intros k b Hb Hst. destruct (Hp0 k b Hb Hst) as (run & Hrun' & _). cbn in Hrun'.
    congruence.
Qed.

Lemma cancelBatch_J i userId_ now w :
  Inv w -> J w -> J (snd (cancelBatch i userId_ now w)).
Proof.
  intros HI HJ. pose proof HI as (Hs & Hq & Hr & Hh).
  pose proof HJ as (Hsh & Hp & Hso & Hl & Hsnap).
  unfold cancelBatch.
  destruct (batchRequests w !! i) as [batch|] eqn:Hb; [|exact HJ].
  destruct (negb (String.eqb (userId batch) userId_)); [exact HJ|].
  destruct (is_pending (status batch)) eqn:Hpd; [|exact HJ].
  cbn [negb snd].
  assert (Hst : status batch = pending) by (destruct (status batch); now try discriminate).
  pose proof (Hsh _ _ Hb) as Hshb.
  unfold J. cbn [batchRequests processingQueue running store_set set_queue].
  split.
  { apply shape_insert; [exact Hsh|].
    unfold shape in *. rewrite Hst in Hshb. cbn.
    destruct Hshb as (_ & Hres & _ & Hc & Hf). repeat split; eauto. }
  split.
  { intros k b Hkb Hproc. destruct (decide (i = k)) as [->|Hne].
    - rewrite lookup_insert_eq in Hkb. injection Hkb as <-. discriminate.
    - rewrite lookup_insert_ne in Hkb by assumption. eauto. }
  split.
  { apply sorted_insert; [|now apply sorted_remove_first].
    intros Hin. apply remove_first_elem in Hin as [_ Hne]; [|apply Hq]. congruence. }
  split; [|exact Hsnap].
  apply lifecycle_same
    with (w := store_set i (mark_failed batch "Batch cancelled by user" now) w);
    [reflexivity|].
  apply lifecycle_store_set; [assumption|assumption|].
  rewrite Hb, Hst. exact I.
Qed.

Lemma tick_J now w : Inv w -> J w -> J (tick now w).
Proof.
  intros HI HJ. unfold tick.
  destruct (isProcessing w) eqn:Hb; cbn; [exact HJ|].
  destruct (negb (length (processingQueue w) =? 0)%nat); [|exact HJ].
  now apply processNextBatch_J.
Qed.

Lemma resume_J settle now w : Inv w -> J w -> J (resume settle now w).
Proof.
  intros HI HJ. pose proof HI as (Hs & Hq & Hr & Hh).
  pose proof HJ as (Hsh & Hp & Hso & Hl & Hsnap).
  unfold resume. destruct (running w) as [run|] eqn:Hrun; [|exact HJ].
  cbn in Hr.
  destruct Hr as (Hbusy & cur & Hcur & Hproc & Hcc & Hfc & Hlen & Hi & Hid & Hrc & Hrcc).
  destruct (Hsnap run eq_refl) as (Hpend & Hshb).
  rewrite Hcur.
  set (batchId := run_batchId run) in *. set (batch := run_batch run) in *.
  set (chunkResults := imap _ (chunk_at batch (run_i run))).
  destruct (tally chunkResults (run_results run, completedCount cur, failedCount cur))
    as [[rs c] f] eqn:Ht.
  apply tally_spec in Ht as (Hc & Hf & Hlrs & Hcle & Hfle).
  assert (Hchunk : length chunkResults
                   = Nat.min maxConcurrentRequests (length (requests batch) - run_i run)).
  { unfold chunkResults, chunk_at. now rewrite length_imap, length_firstn, length_skipn. }
  pose proof (count_split has_error rs) as Hsplit.
  assert (Hnq : batchId ∉ processingQueue w).
  { intros Hin. destruct Hq as [_ Hq]. destruct (Hq _ Hin) as (b & Hb & Hp' & _).
    rewrite Hcur in Hb. injection Hb as <-. congruence. }
  destruct (Hs _ _ Hcur) as (Hidc & Hrc1 & Hgc).
  pose proof (Hsh _ _ Hcur) as Hshc.
  set (cur' := with_progress cur c f).
  assert (Hg' : good cur').
  { unfold good, cur'. cbn. rewrite Hrcc, Hrc. unfold maxConcurrentRequests in *. lia. }
  set (w1 := store_set batchId cur' w).
  assert (Hs1 : store_ok (batchRequests w1)) by (apply store_ok_insert; auto).
  assert (Hq1 : queue_ok (batchRequests w1) (processingQueue w))
    by (apply queue_ok_insert; auto).
  assert (Hh1 : hist_ok w1).
  { apply hist_ok_store_set; [assumption|assumption|].
    intros x Hx. rewrite Hcur in Hx. injection Hx as <-. split; assumption. }
  assert (Hcur1 : batchRequests w1 !! batchId = Some cur') by apply lookup_insert_eq.
  assert (Hsh1 : forall i b, batchRequests w1 !! i = Some b -> shape b).
  { apply shape_insert; [exact Hsh|].
    unfold shape in *. rewrite Hproc in Hshc. cbn. rewrite Hproc. exact Hshc. }
  assert (Hl1 : forall i, lifecycle (history i w1)).
  { apply lifecycle_store_set; [exact Hh|exact Hl|].
    rewrite Hcur. cbn. rewrite Hproc. exact I. }
  assert (Hso1 : sorted_queue (batchRequests w1) (processingQueue w))
    by (apply sorted_insert; auto).
  assert (Honly : forall i b, batchRequests w1 !! i = Some b -> status b = processing ->
                              i = batchId).
  { intros i b Hb Hst. destruct (decide (batchId = i)) as [|Hne]; [congruence|].
    cbn in Hb. rewrite lookup_insert_ne in Hb by assumption.
    destruct (Hp i b Hb Hst) as (run' & Hrun' & <-). injection Hrun' as <-.
    now contradict Hne. }
  destruct (run_i run + maxConcurrentRequests <? length (requests batch))%nat eqn:Hmore.
  - unfold J. cbn [batchRequests processingQueue running set_running].
    split; [exact Hsh1|]. split.
    { intros i b Hb Hst. eexists. split; [reflexivity|]. cbn. symmetry. eauto. }
    split; [exact Hso1|]. split; [exact Hl1|].
    intros run' [= <-]. cbn. split; assumption.
  - apply Nat.ltb_ge in Hmore.
    assert (Hlen' : (length rs <= length (requests batch))%nat)
      by (unfold maxConcurrentRequests in *; lia).
    assert (Hleq : length rs = length (requests batch))
      by (unfold maxConcurrentRequests in *; lia).
    assert (Hcc' : completedCount cur' = count (fun r => negb (has_error r)) rs)
      by (cbn; lia).
    assert (Hfc' : failedCount cur' = count has_error rs) by (cbn; lia).
    destruct (complete_ok batchId batch rs now (set_running None w1) (processingQueue w) cur'
                Hs1 Hh1 Hq1 Hnq Hcur1 Hcc' Hfc' Hlen' Hid Hrc)
      as (Hs2 & Hh2 & Hq2 & Hpq & Hip & Hrn).
    assert (Hproc' : status cur' = processing) by exact Hproc.
    destruct (complete_shape batchId batch rs now (set_running None w1) cur'
                Hh1 Hsh1 Hl1 Hcur1 Hproc' Hpend Hshb Hleq)
      as (Hst2 & Hsh2 & Hl2).
    apply drain_J.
    + reflexivity.
    + cbn. rewrite Hrn. reflexivity.
    + exact Hs2.
    + cbn. rewrite Hpq. exact Hq2.
    + eapply hist_ok_same; [| |exact Hh2]; reflexivity.
    + exact Hsh2.
    + cbn [batchRequests set_isProcessing]. rewrite Hst2. intros i b Hib Hst.
      destruct (decide (batchId = i)) as [<-|Hne].
      * rewrite lookup_insert_eq in Hib. injection Hib as <-. discriminate.
      * rewrite lookup_insert_ne in Hib by assumption.
        apply Honly in Hib; congruence.
    + cbn [batchRequests processingQueue set_isProcessing]. rewrite Hpq, Hst2.
      apply sorted_insert; assumption.
    + apply lifecycle_same with (w := complete batchId batch rs now (set_running None w1));
        [reflexivity|exact Hl2].
Qed.

(** Every reachable state of the processor satisfies the life-cycle
    invariants. *)
Lemma reachable_J w : reachable w -> J w.
Proof.
  induction 1 as [|w w' Hreach IH Hstep].
  - apply initial_J.
  - pose proof (reachable_inv w Hreach) as HI. destruct Hstep.
    + now apply createBatch_J.
    + now apply cancelBatch_J.
    + now apply tick_J.
    + now apply resume_J.
Qed.

End BatchShapeFacts.

Lemma three_batches_reachable : Batch.reachable three_batches.
Proof.
  apply Batch.reach_step with two_batches; [exact two_batches_reachable|].
  apply Batch.step_create. vm_compute. reflexivity.
Defined.

(** X17.  At most one batch is being processed: in a reachable state a
    stored batch with status [processing] is the batch of the suspended
    [processNextBatch] call, the busy flag is set, and no other stored
    batch has that status. *)
Theorem processing_batch_is_the_running_one :
  forall (w : Batch.Processor) (i : string) (b : Batch.BatchRequest),
    Batch.reachable w ->
    Batch.batchRequests w !! i = Some b ->
    Batch.status b = Batch.processing ->
    Batch.isProcessing w = true /\
    (exists run, Batch.running w = Some run /\ Batch.run_batchId run = i) /\
    (forall j b', Batch.batchRequests w !! j = Some b' ->
                  Batch.status b' = Batch.processing -> j = i).
Proof.
  intros w i b Hreach Hb Hst.
  pose proof (reachable_inv w Hreach) as (_ & _ & Hr & _).
  pose proof (reachable_J w Hreach) as (_ & Hp & _).
  destruct (Hp i b Hb Hst) as (run & Hrun & Hi).
  rewrite Hrun in Hr. cbn in Hr. destruct Hr as [Hbusy _].
  split; [exact Hbusy|]. split; [eauto|].
  intros j b' Hb' Hst'. destruct (Hp j b' Hb' Hst') as (run' & Hrun' & Hj). congruence.
Qed.

Lemma processing_batch_is_the_running_one_witness :
  Batch.isProcessing two_batches = true /\
  (exists run, Batch.running two_batches = Some run /\ Batch.run_batchId run = "batch_1") /\
  (forall j b', Batch.batchRequests two_batches !! j = Some b' ->
                Batch.status b' = Batch.processing -> j = "batch_1").
Proof.
  apply (processing_batch_is_the_running_one two_batches "batch_1"
           (Batch.mark_processing
              (fst (Batch.createBatch "alice" [demo_request] demo_options "batch_1" 1000
                      Batch.initial))));
    [exact two_batches_reachable | vm_compute; reflexivity | reflexivity].
Defined.

(** X18.  What a stored batch carries, by status, in every reachable state.
    A completed batch has one result per request, a completion date, no
    error, and counters that count its results: together they equal
    [requestCount].  A failed batch was cancelled while pending: it has the
    cancellation message, a completion date, no results and counters at
    zero, so no failure of a child ever fails a batch.  A pending or
    processing batch has no completion date, results or error. *)
Theorem stored_batch_by_status :
  forall (w : Batch.Processor) (i : string) (b : Batch.BatchRequest),
    Batch.reachable w ->
    Batch.batchRequests w !! i = Some b ->
    (Batch.status b = Batch.completed ->
     Batch.error b = None /\
     (Batch.completedCount b + Batch.failedCount b = Batch.requestCount b)%Z /\
     exists rs t,
       Batch.results b = Some rs /\ Batch.completedAt b = Some t /\
       Z.of_nat (length rs) = Batch.requestCount b /\
       Batch.failedCount b = Batch.count Batch.has_error rs) /\
    (Batch.status b = Batch.failed ->
     Batch.error b = Some "Batch cancelled by user" /\ Batch.results b = None /\
     Batch.completedCount b = 0%Z /\ Batch.failedCount b = 0%Z /\
     exists t, Batch.completedAt b = Some t) /\
    (Batch.status b = Batch.pending \/ Batch.status b = Batch.processing ->
     Batch.completedAt b = None /\ Batch.results b = None /\ Batch.error b = None).
Proof.
  intros w i b Hreach Hb.
  pose proof (reachable_inv w Hreach) as (Hs & _).
  pose proof (reachable_J w Hreach) as (Hsh & _).
  destruct (Hs i b Hb) as (_ & Hrc & _). specialize (Hsh i b Hb).
  unfold BatchShape.shape in Hsh.
  split; [|split].
  - intros Hst. rewrite Hst in Hsh. destruct Hsh as (He & rs & t & Hr & Ht & Hl & Hc & Hf).
    split; [exact He|].
    pose proof (count_split Batch.has_error rs) as Hsplit.
    split; [rewrite Hc, Hf, Hrc; lia|].
    exists rs, t. repeat split; try assumption. rewrite Hrc. lia.
  - intros Hst. rewrite Hst in Hsh. exact Hsh.
  - intros [Hst|Hst]; rewrite Hst in Hsh; tauto.
Qed.

Lemma stored_batch_by_status_witness :
  match Batch.batchRequests one_batch_done !! "batch_1" with
  | Some b => (Batch.completedCount b + Batch.failedCount b = Batch.requestCount b)%Z
  | None => False
  end.
Proof.
  destruct (Batch.batchRequests one_batch_done !! "batch_1") as [b|] eqn:Hb;
    [|vm_compute in Hb; discriminate].
  destruct (stored_batch_by_status one_batch_done "batch_1" b one_batch_done_reachable Hb)
    as (H & _).
  apply H. vm_compute in Hb. injection Hb as <-. reflexivity.
Defined.

(** X19.  The status of a batch only moves forward.  The first value stored
    for a batch is pending; from one stored value to the next the status
    goes from pending to processing or failed, or from processing to
    processing or completed.  Completed and failed are final: nothing is
    stored for the batch after them. *)
Theorem batch_status_moves_forward :
  forall (w : Batch.Processor) (i : string),
    Batch.reachable w ->
    (forall b, head (Batch.history i w) = Some b -> Batch.status b = Batch.pending) /\
    (forall k b1 b2,
        Batch.history i w !! k = Some b1 -> Batch.history i w !! S k = Some b2 ->
        (Batch.status b1 = Batch.pending /\
         (Batch.status b2 = Batch.processing \/ Batch.status b2 = Batch.failed)) \/
        (Batch.status b1 = Batch.processing /\
         (Batch.status b2 = Batch.processing \/ Batch.status b2 = Batch.completed))).
Proof.
  intros w i Hreach. pose proof (reachable_J w Hreach) as (_ & _ & _ & Hl & _).
  destruct (Hl i) as [Hh Hc]. split; [exact Hh|].
  intros k b1 b2 H1 H2. specialize (Hc k b1 b2 H1 H2).
  unfold BatchShape.legal in Hc.
  destruct (Batch.status b1), (Batch.status b2); try contradiction; tauto.
Qed.

Lemma batch_status_moves_forward_witness :
  match head (Batch.history "batch_1" one_batch_done) with
  | Some b => Batch.status b = Batch.pending
  | None => False
  end.
Proof.
  destruct (batch_status_moves_forward one_batch_done "batch_1" one_batch_done_reachable)
    as [H _].
  destruct (head (Batch.history "batch_1" one_batch_done)) as [b|] eqn:E;
    [apply H; reflexivity | vm_compute in E; discriminate].
Defined.

Lemma StronglySorted_lookup {A} (R : A -> A -> Prop) (l : list A) :
  StronglySorted R l ->
  forall k1 k2 x y, (k1 < k2)%nat -> l !! k1 = Some x -> l !! k2 = Some y -> R x y.
Proof.
  induction 1 as [|a l Hs IH Hall]; intros k1 k2 x y Hlt H1 H2.
  - rewrite lookup_nil in H1. discriminate.
  - destruct k2 as [|k2]; [lia|]. cbn in H2.
    destruct k1 as [|k1].
    + cbn in H1. injection H1 as <-.
      rewrite List.Forall_forall in Hall. apply Hall.
      apply list_elem_of_In. eapply list_elem_of_lookup_2, H2.
    + cbn in H1. eapply IH; [|exact H1|exact H2]. lia.
Qed.

(** X20.  The queue is ordered by priority: in every reachable state, of two
    queued batches the one nearer the front has the priority value that is
    not larger (high before normal before low). *)
Theorem queue_is_ordered_by_priority :
  forall (w : Batch.Processor) (k1 k2 : nat) (i j : string) (bi bj : Batch.BatchRequest),
    Batch.reachable w ->
    (k1 < k2)%nat ->
    Batch.processingQueue w !! k1 = Some i ->
    Batch.processingQueue w !! k2 = Some j ->
    Batch.batchRequests w !! i = Some bi ->
    Batch.batchRequests w !! j = Some bj ->
    (Batch.priorityValue (Batch.priority bi) <= Batch.priorityValue (Batch.priority bj))%Z.
Proof.
  intros w k1 k2 i j bi bj Hreach Hlt H1 H2 Hi Hj.
  pose proof (reachable_J w Hreach) as (_ & _ & Hso & _).
  pose proof (StronglySorted_lookup _ _ Hso k1 k2 i j Hlt H1 H2) as H.
  unfold BatchShape.rank in H. now rewrite Hi, Hj in H.
Qed.

Lemma queue_is_ordered_by_priority_witness :
  match Batch.batchRequests three_batches !! "batch_2",
        Batch.batchRequests three_batches !! "batch_3" with
  | Some bi, Some bj =>
      (Batch.priorityValue (Batch.priority bi) <= Batch.priorityValue (Batch.priority bj))%Z
  | _, _ => False
  end.
Proof.
  destruct (Batch.batchRequests three_batches !! "batch_2") as [bi|] eqn:Ei;
    [|vm_compute in Ei; discriminate].
  destruct (Batch.batchRequests three_batches !! "batch_3") as [bj|] eqn:Ej;
    [|vm_compute in Ej; discriminate].
  apply (queue_is_ordered_by_priority three_batches 0 1 "batch_2" "batch_3" bi bj
           three_batches_reachable);
    [lia | reflexivity | reflexivity | exact Ei | exact Ej].
Defined.

Section BatchResults.
Import Models Batch BatchInv BatchShape.

Lemma tally_entries chunkResults rs c f :
  fst (fst (tally chunkResults (rs, c, f))) = rs ++ map entry_of chunkResults.
Proof.
  revert rs c f. induction chunkResults as [|r rest IH]; intros rs c f; cbn.
  - now rewrite app_nil_r.
  - destruct r as [v|reason]; rewrite IH, <- app_assoc; reflexivity.
Qed.

Lemma drain_store_other now q i :
  i ∉ q -> forall w, batchRequests (drain now q w) !! i = batchRequests w !! i.
Proof.
  induction q as [|batchId rest IH]; intros Hi w; [reflexivity|].
  apply not_elem_of_cons in Hi as [Hne Hi]. cbn [drain].
  destruct (negb (Router.truthy_string batchId)); [reflexivity|].
  cbn [batchRequests set_queue set_isProcessing].
  destruct (batchRequests w !! batchId) as [batch|]; [|now rewrite IH].
  destruct (requests batch).
  - rewrite IH by assumption. cbn [batchRequests set_isProcessing].
    destruct (complete_fields batchId batch [] now
                (store_set batchId (mark_processing batch)
                   (set_queue rest (set_isProcessing true w)))) as [c ->].
    cbn. rewrite !lookup_insert_ne by congruence. reflexivity.
  - cbn. now rewrite lookup_insert_ne by congruence.
Qed.

Lemma imap_take_chunk {A B} (f : nat -> A -> B) (l : list A) (j n : nat) :
  (j <= length l)%nat ->
  imap f (firstn j l) ++ imap (fun k r => f (j + k)%nat r) (firstn n (skipn j l))
  = imap f (firstn (j + n) l).
Proof.
  intros Hj.
  assert (E : firstn (j + n) l = firstn j l ++ firstn n (skipn j l)).
  { rewrite <- (firstn_skipn j l) at 1.
    rewrite firstn_app, length_firstn, Nat.min_l by assumption.
    rewrite firstn_all2 by (rewrite length_firstn; lia).
    now replace (j + n - j)%nat with n by lia. }
  rewrite E, imap_app, length_firstn, Nat.min_l by assumption. reflexivity.
Qed.

Lemma resume_n_completes settle now :
  forall k w run,
    reachable w -> running w = Some run ->
    run_results run
    = imap (fun j r => entry_of (settle j r)) (firstn (run_i run) (requests (run_batch run))) ->
    (length (requests (run_batch run)) <= run_i run + maxConcurrentRequests * k)%nat ->
    (run_i run + maxConcurrentRequests * k
     < length (requests (run_batch run)) + maxConcurrentRequests)%nat ->
    batchRequests (resume_n k settle now w) !! run_batchId run
    = Some (mark_completed (run_batch run)
              (imap (fun j r => entry_of (settle j r)) (requests (run_batch run))) now).
Proof.
  induction k as [|k IH]; intros w run Hreach Hrun Hres Hge Hlt.
  - pose proof (reachable_inv w Hreach) as (_ & _ & Hr & _).
    rewrite Hrun in Hr. cbn in Hr. destruct Hr as (_ & cur & _ & _ & _ & _ & _ & Hi & _).
    lia.
  - pose proof (reachable_inv w Hreach) as (_ & Hq & Hr & _).
    rewrite Hrun in Hr. cbn in Hr.
    destruct Hr as (_ & cur & Hcur & Hproc & _ & _ & Hlen & Hi & _).
    assert (Hreach' : reachable (resume settle now w))
      by (eapply reach_step; [exact Hreach|apply step_settle]).
    cbn [resume_n]. revert Hreach'. unfold resume. rewrite Hrun, Hcur.
    set (batchId := run_batchId run) in *. set (batch := run_batch run) in *.
    set (chunkResults := imap _ (chunk_at batch (run_i run))).
    pose proof (tally_entries chunkResults (run_results run) (completedCount cur)
                  (failedCount cur)) as Hrs.
    destruct (tally chunkResults (run_results run, completedCount cur, failedCount cur))
      as [[rs c] f]. cbn in Hrs.
    assert (Hrs' : rs = imap (fun j r => entry_of (settle j r))
                          (firstn (run_i run + maxConcurrentRequests) (requests batch))).
    { rewrite Hrs, Hres. unfold chunkResults, chunk_at.
      rewrite <- imap_take_chunk by lia. f_equal.
      rewrite fmap_imap. reflexivity. }
    destruct (run_i run + maxConcurrentRequests <? length (requests batch))%nat eqn:Hmore.
    + apply Nat.ltb_lt in Hmore. intros Hreach'.
      apply (IH _ (mkRun batchId batch (run_i run + maxConcurrentRequests) rs) Hreach');
        [reflexivity | exact Hrs' | |];
        cbn [run_i run_batch]; unfold maxConcurrentRequests in *; lia.
    + apply Nat.ltb_ge in Hmore. intros _.
      assert (k = 0)%nat as -> by (unfold maxConcurrentRequests in *; lia).
      cbn [resume_n].
      assert (Hnq : batchId ∉ processingQueue w).
      { intros Hin. destruct Hq as [_ Hq]. destruct (Hq _ Hin) as (b & Hb & Hp' & _).
        rewrite Hcur in Hb. injection Hb as <-. congruence. }
      destruct (complete_fields batchId batch rs now
                  (set_running None
                     (store_set batchId (with_progress cur c f) w))) as [cs E].
      rewrite E. cbn [processingQueue]. rewrite drain_store_other by exact Hnq.
      cbn. rewrite lookup_insert_eq. f_equal. f_equal.
      rewrite Hrs'. now rewrite firstn_all2 by lia.
Qed.

End BatchResults.

(** X21.  A batch that has just been picked up completes after one
    continuation per chunk of [maxConcurrentRequests] requests, whatever its
    children do: the stored batch is then completed and its results are, in
    the order of the requests, the response of each fulfilled child and the
    error message of each rejected one. *)
Theorem batch_results_follow_the_requests :
  forall (settle : nat -> Models.ModelRequest -> Batch.Settled) (now : Z)
         (w : Batch.Processor) (run : Batch.Run),
    Batch.reachable w ->
    Batch.running w = Some run ->
    Batch.run_i run = 0%nat ->
    let reqs := Batch.requests (Batch.run_batch run) in
    let chunks := ((length reqs + Batch.maxConcurrentRequests - 1)
                   / Batch.maxConcurrentRequests)%nat in
    exists b,
      Batch.batchRequests (BatchShape.resume_n chunks settle now w) !! Batch.run_batchId run
      = Some b /\
      Batch.status b = Batch.completed /\
      Batch.completedAt b = Some now /\
      Batch.results b
      = Some (imap (fun j r =>
                      match settle j r with
                      | Batch.Fulfilled v => Batch.ResValue v
                      | Batch.Rejected reason =>
                          Batch.ResError (Batch.rejection_message reason)
                      end) reqs).
Proof.
  intros settle now w run Hreach Hrun Hi reqs chunks.
  assert (Hnil : Batch.run_results run = []).
  { pose proof (reachable_inv w Hreach) as (_ & _ & Hr & _).
    rewrite Hrun in Hr. cbn in Hr. destruct Hr as (_ & cur & _ & _ & _ & _ & Hlen & _).
    rewrite Hi in Hlen. now apply length_zero_iff_nil. }
  eexists. split; [|split; [|split]].
  - apply (resume_n_completes settle now chunks w run Hreach Hrun).
    + rewrite Hi, Hnil. reflexivity.
    + subst chunks reqs. rewrite Hi. unfold Batch.maxConcurrentRequests.
      pose proof (Nat.div_mod_eq (length (Batch.requests (Batch.run_batch run)) + 5 - 1) 5).
      pose proof (Nat.mod_upper_bound
                    (length (Batch.requests (Batch.run_batch run)) + 5 - 1) 5).
      lia.
    + subst chunks reqs. rewrite Hi. unfold Batch.maxConcurrentRequests.
      pose proof (Nat.div_mod_eq (length (Batch.requests (Batch.run_batch run)) + 5 - 1) 5).
      pose proof (Nat.mod_upper_bound
                    (length (Batch.requests (Batch.run_batch run)) + 5 - 1) 5).
      lia.
  - reflexivity.
  - reflexivity.
  - reflexivity.
Qed.

Lemma batch_results_follow_the_requests_witness :
  exists b,
    Batch.batchRequests (BatchShape.resume_n 1 all_fulfilled 5000 one_batch) !! "batch_1"
    = Some b /\
    Batch.status b = Batch.completed /\
    Batch.completedAt b = Some 5000%Z /\
    Batch.results b = Some [Batch.ResValue demo_response].
Proof.
  apply (batch_results_follow_the_requests all_fulfilled 5000 one_batch
           (Batch.mkRun "batch_1"
              (fst (Batch.createBatch "alice" [demo_request] demo_options "batch_1" 1000
                      Batch.initial)) 0 []));
    [exact one_batch_reachable | reflexivity | reflexivity].
Defined.

Section StatsFacts.
Import Models Batch BatchInv.

Lemma status_partition (l : list BatchRequest) :
  length l
  = (length (List.filter (fun b => status_eqb (status b) pending) l)
     + length (List.filter (fun b => status_eqb (status b) processing) l)
     + length (List.filter (fun b => status_eqb (status b) completed) l)
     + length (List.filter (fun b => status_eqb (status b) failed) l))%nat.
Proof.
  induction l as [|b l IH]; [reflexivity|].
  cbn. destruct (status b); cbn; lia.
Qed.

Lemma sum_of_acc (f : BatchRequest -> Z) l a :
  fold_left (fun total batch => (total + f batch)%Z) l a = (a + sum_of f l)%Z.
Proof.
  unfold sum_of. revert a. induction l as [|b l IH]; intros a; cbn; [lia|].
  rewrite (IH (a + f b)%Z), (IH (0 + f b)%Z). lia.
Qed.

Lemma sum_of_cons (f : BatchRequest -> Z) b l : sum_of f (b :: l) = (f b + sum_of f l)%Z.
Proof. unfold sum_of at 1. cbn. rewrite sum_of_acc. lia. Qed.

Lemma sum_of_good l :
  Forall good l ->
  (sum_of completedCount l + sum_of failedCount l <= sum_of requestCount l)%Z.
Proof.
  induction 1 as [|b l Hb _ IH]; [cbn; lia|].
  rewrite !sum_of_cons. unfold good in Hb. lia.
Qed.

Lemma filter_if_string_subset {A} x (p : string -> A -> bool) l a :
  In a (Analytics.filter_if_string x p l) -> In a l.
Proof.
  unfold Analytics.filter_if_string. destruct x as [v|]; [|auto].
  destruct (Router.truthy_string v); [|auto].
  intros H. now apply List.filter_In in H.
Qed.

Lemma filter_length_le {A} (p q : A -> bool) l :
  (length (List.filter p (List.filter q l)) <= length (List.filter p l))%nat.
Proof.
  induction l as [|a l IH]; [reflexivity|].
  cbn. destruct (q a), (p a) eqn:E; cbn; rewrite ?E; cbn; lia.
Qed.

Lemma filter_if_string_length {A} x (p : string -> A -> bool) (q : A -> bool) l :
  (length (List.filter q (Analytics.filter_if_string x p l)) <= length (List.filter q l))%nat.
Proof.
  unfold Analytics.filter_if_string. destruct x as [v|]; [|lia].
  destruct (Router.truthy_string v); [apply filter_length_le|lia].
Qed.

Lemma filter_none {A} (p : A -> bool) l :
  (forall a, In a l -> p a = false) -> List.filter p l = [].
Proof.
  induction l as [|a l IH]; intros H; [reflexivity|].
  cbn. rewrite (H a (or_introl eq_refl)). apply IH. intros b Hb. apply H. now right.
Qed.

Lemma at_most_one {K V} (P : V -> bool) (l : list (K * V)) :
  NoDup (map fst l) ->
  (forall kv1 kv2, In kv1 l -> In kv2 l -> P (snd kv1) = true -> P (snd kv2) = true ->
                   fst kv1 = fst kv2) ->
  (length (List.filter P (map snd l)) <= 1)%nat.
Proof.
  induction l as [|kv l IH]; cbn; intros Hnd Hu; [lia|].
  apply NoDup_cons in Hnd as [Hk Hnd].
  assert (IH' := IH Hnd (fun a b Ha Hb => Hu a b (or_intror Ha) (or_intror Hb))).
  destruct (P (snd kv)) eqn:E; [|exact IH'].
  assert (Hnone : List.filter P (map snd l) = []).
  { apply filter_none. intros v Hv.
    apply List.in_map_iff in Hv as (kv' & <- & Hin).
    destruct (P (snd kv')) eqn:E'; [|reflexivity].
    exfalso. apply Hk. rewrite (Hu kv kv' (or_introl eq_refl) (or_intror Hin) E E').
    apply list_elem_of_In. apply List.in_map. exact Hin. }
  rewrite Hnone. cbn. lia.
Qed.

End StatsFacts.

(** X22.  The statistics account for every batch counted once: in a
    reachable state, for all the batches or for those of one user, the
    four status counts add up to the total, at most one batch is counted as
    processing, and the completed and failed requests together never exceed
    the requests submitted. *)
Theorem getStats_accounts_for_every_batch :
  forall (w : Batch.Processor) (userId_ : option string),
    Batch.reachable w ->
    let s := Batch.getStats w userId_ in
    Batch.totalBatches s
    = (Batch.pendingBatches s + Batch.processingBatches s
       + Batch.completedBatches s + Batch.failedBatches s)%nat /\
    (Batch.processingBatches s <= 1)%nat /\
    (Batch.totalCompletedRequests s + Batch.totalFailedRequests s
     <= Batch.totalRequests s)%Z.
Proof.
  intros w userId_ Hreach s. subst s. unfold Batch.getStats. cbn.
  split; [apply status_partition|]. split.
  - etransitivity; [apply filter_if_string_length|].
    apply (at_most_one (fun b => Batch.status_eqb (Batch.status b) Batch.processing)).
    + apply NoDup_fst_map_to_list.
    + intros [k1 b1] [k2 b2] H1 H2 P1 P2. cbn in *.
      apply list_elem_of_In, elem_of_map_to_list in H1, H2.
      assert (S1 : Batch.status b1 = Batch.processing)
        by (destruct (Batch.status b1); now try discriminate).
      assert (S2 : Batch.status b2 = Batch.processing)
        by (destruct (Batch.status b2); now try discriminate).
      pose proof (reachable_J w Hreach) as (_ & Hp & _).
      destruct (Hp k1 b1 H1 S1) as (r1 & E1 & <-).
      destruct (Hp k2 b2 H2 S2) as (r2 & E2 & <-). congruence.
  - apply sum_of_good. rewrite List.Forall_forall. intros b Hb.
    apply filter_if_string_subset in Hb.
    apply List.in_map_iff in Hb as ([k b'] & <- & Hin). cbn.
    apply list_elem_of_In, elem_of_map_to_list in Hin.
    pose proof (reachable_inv w Hreach) as (Hs & _).
    now destruct (Hs k b' Hin) as (_ & _ & Hg).
Qed.

Lemma getStats_accounts_for_every_batch_witness :
  (Batch.totalCompletedRequests (Batch.getStats one_batch_done (Some "alice"))
   + Batch.totalFailedRequests (Batch.getStats one_batch_done (Some "alice"))
   <= Batch.totalRequests (Batch.getStats one_batch_done (Some "alice")))%Z.
Proof.
  destruct (getStats_accounts_for_every_batch one_batch_done (Some "alice")
              one_batch_done_reachable) as (_ & _ & H).
  exact H.
Defined.

(** ** The batch handler *)

Section BatchRouteFacts.
Import Models BatchRoute.

Lemma validate_children_spec children :
  validate_children children
  = (omap parse_ok children,
     List.filter (fun c => match parse_ok c with Some _ => false | None => true end) children).
Proof.
  induction children as [|c rest IH]; [reflexivity|].
  cbn [validate_children omap list_omap List.filter]. rewrite IH.
  assert (E : parse_ok c = match Schema.parse c with
                           | Schema.ZodOk r => Some r
                           | Schema.ZodError => None
                           end) by reflexivity.
  destruct (Schema.parse c); rewrite E; reflexivity.
Qed.

End BatchRouteFacts.

(** X23.  [POST] creates a batch from the children of the body that pass
    the request schema, in the order of the body, and reports how many they
    are; the children that fail are left out.  When no child passes, the
    answer is the error ["No valid requests in batch"] with all the children
    listed as invalid, and the processor is untouched. *)
Theorem POST_keeps_the_valid_children :
  forall (is_url : string -> bool) (body : Models.JsonValue) (userId i : string) (now : Z)
         (w : Batch.Processor) (children : list Models.JsonValue)
         (options : Batch.BatchRequestOptions),
    BatchRoute.parse_batch is_url body = Some (children, options) ->
    let valid := omap parse_ok children in
    match fst (BatchRoute.POST is_url body userId i now w) with
    | BatchRoute.Created batch n invalid =>
        valid <> [] /\ Batch.requests batch = valid /\ n = length valid /\
        Batch.requestCount batch = Z.of_nat n /\ Batch.userId batch = userId /\
        Batch.id batch = i /\ Batch.status batch = Batch.pending /\
        (length valid + length (default [] invalid) = length children)%nat /\
        snd (BatchRoute.POST is_url body userId i now w)
        = snd (Batch.createBatch userId valid options i now w)
    | BatchRoute.BadRequest e invalid =>
        valid = [] /\ e = "No valid requests in batch" /\ invalid = Some children /\
        snd (BatchRoute.POST is_url body userId i now w) = w
    | _ => False
    end.
Proof.
  intros is_url body userId i now w children options Hp valid.
  unfold BatchRoute.POST. rewrite Hp, validate_children_spec. fold valid.
  assert (Hlen : forall l : list Models.JsonValue,
             (length (omap parse_ok l)
              + length (List.filter
                          (fun c => match parse_ok c with Some _ => false | None => true end) l)
              = length l)%nat).
  { induction l as [|c l IH]; [reflexivity|]. cbn. destruct (parse_ok c); cbn; lia. }
  destruct valid as [|r rest] eqn:Hv.
  - cbn. repeat split. f_equal.
    specialize (Hlen children). fold valid in Hlen. rewrite Hv in Hlen. cbn in Hlen.
    clear -Hlen. induction children as [|c l IH]; [reflexivity|].
    cbn in *. destruct (parse_ok c).
    + pose proof (List.filter_length_le
                    (fun c => match parse_ok c with Some _ => false | None => true end) l).
      lia.
    + cbn in Hlen. f_equal. apply IH. lia.
  - cbn. repeat split; try discriminate.
    specialize (Hlen children). fold valid in Hlen. rewrite Hv in Hlen. cbn in Hlen.
    destruct (List.filter _ children); cbn in *; lia.
Qed.

Lemma POST_keeps_the_valid_children_witness :
  match fst (BatchRoute.POST (fun _ => true) demo_batch_body "alice" "batch_1" 1000
               Batch.initial) with
  | BatchRoute.Created batch n invalid =>
      Batch.requests batch = omap parse_ok [Models.JObj demo_body; Models.JNull] /\ n = 1%nat
  | _ => False
  end.
Proof.
  pose proof (POST_keeps_the_valid_children (fun _ => true) demo_batch_body "alice" "batch_1"
                1000 Batch.initial [Models.JObj demo_body; Models.JNull]
                (Batch.mkBatchOptions (Some Batch.high) None None) eq_refl) as H.
  cbv zeta in H.
  remember (fst (BatchRoute.POST (fun _ => true) demo_batch_body "alice" "batch_1" 1000
                   Batch.initial)) as resp eqn:E.
  vm_compute in E. subst resp.
  destruct H as (_ & Hr & Hn & _). split; [exact Hr|]. rewrite Hn. reflexivity.
Defined.

(** ** Webhooks *)

Section WebhookFacts.
Import Models Webhooks.
Variable P : Platform.
Variable random : nat -> Q.

Lemma assoc_map_set_eq {A} k (v : A) l : assoc k (map_set k v l) = Some v.
Proof.
  induction l as [|[k' v'] l IH]; cbn.
  - now rewrite String.eqb_refl.
  - destruct (String.eqb k k') eqn:E; cbn; [now rewrite String.eqb_refl|].
    now rewrite E.
Qed.

Lemma assoc_map_set_ne {A} k j (v : A) l : j <> k -> assoc j (map_set k v l) = assoc j l.
Proof.
  intros Hne. induction l as [|[k' v'] l IH]; cbn.
  - apply String.eqb_neq in Hne. now rewrite Hne.
  - destruct (String.eqb_spec k k') as [->|Hk]; cbn.
    + apply String.eqb_neq in Hne. now rewrite Hne.
    + destruct (String.eqb j k'); [reflexivity|exact IH].
Qed.

Lemma deliverEvent_spec webhook event k now s n :
  let st' := deliverEvent P random webhook event k now (s, n) in
  event_log (fst st') = event_log s /\
  snd st' = S (S n) /\
  (exists d, deliveries (fst st') = deliveries s ++ [d] /\
             webhookId d = id webhook /\ eventId d = event_id event /\
             attempt d = k /\ delivery_timestamp d = now) /\
  (forall j, j <> id webhook -> assoc j (webhooks (fst st')) = assoc j (webhooks s)).
Proof.
  cbn. split; [reflexivity|]. split; [reflexivity|]. split.
  - eexists. split; [reflexivity|]. cbn. auto.
  - intros j Hj. now apply assoc_map_set_ne.
Qed.

Lemma deliver_all event now l :
  forall s n,
    let st' := fold_left (fun acc webhook => deliverEvent P random webhook event 1 now acc)
                         l (s, n) in
    event_log (fst st') = event_log s /\
    snd st' = (n + 2 * length l)%nat /\
    (exists ds, deliveries (fst st') = deliveries s ++ ds /\
                map webhookId ds = map id l /\
                Forall (fun d => eventId d = event_id event /\ attempt d = 1%Z /\
                                 delivery_timestamp d = now) ds) /\
    (forall j, ~ In j (map id l) -> assoc j (webhooks (fst st')) = assoc j (webhooks s)).
Proof.
  induction l as [|w l IH]; intros s n st'.
  - subst st'. cbn. split; [reflexivity|]. split; [lia|]. split; [|reflexivity].
    exists []. rewrite app_nil_r. repeat split. constructor.
  - subst st'. cbn [fold_left].
    destruct (deliverEvent_spec w event 1 now s n) as (He & Hn & (d & Hd & Hw & Hev & Ha & Ht) & Ho).
    destruct (deliverEvent P random w event 1 now (s, n)) as [s1 n1] eqn:E1.
    cbn [fst snd] in *. subst n1.
    destruct (IH s1 (S (S n))) as (He' & Hn' & (ds & Hds & Hws & Hall) & Ho').
    split; [congruence|]. split; [cbn [length]; lia|]. split.
    + exists (d :: ds). split; [rewrite Hds, Hd, <- app_assoc; reflexivity|].
      split; [cbn; congruence|]. constructor; auto.
    + intros j Hj. cbn in Hj. rewrite Ho' by tauto. apply Ho. intros ->. tauto.
Qed.

End WebhookFacts.

(** X24.  [triggerEvent] records the event once and attempts one delivery,
    numbered 1, to each webhook that is active, belongs to the user of the
    event and is subscribed to its type, in the order of the webhook table;
    no other webhook is touched.  It makes one draw for the event and two
    per delivery. *)
Theorem triggerEvent_delivers_to_subscribers :
  forall (P : Models.Platform) (random : nat -> Q) (userId_ : string)
         (type : Webhooks.WebhookEventType) (d : Models.JsonValue) (now : Z)
         (s : Webhooks.Service) (n : nat),
    let eligible := List.filter (Webhooks.subscribed userId_ type)
                                (map snd (Webhooks.webhooks s)) in
    let eventId := fst (Webhooks.triggerEvent P random userId_ type d now (s, n)) in
    let s' := fst (snd (Webhooks.triggerEvent P random userId_ type d now (s, n))) in
    let n' := snd (snd (Webhooks.triggerEvent P random userId_ type d now (s, n))) in
    Webhooks.event_log s'
    = Webhooks.event_log s ++ [Webhooks.mkEvent eventId now userId_ type d] /\
    n' = (S n + 2 * length eligible)%nat /\
    (exists ds,
        Webhooks.deliveries s' = Webhooks.deliveries s ++ ds /\
        map Webhooks.webhookId ds = map Webhooks.id eligible /\
        Forall (fun dl => Webhooks.eventId dl = eventId /\ Webhooks.attempt dl = 1%Z /\
                          Webhooks.delivery_timestamp dl = now) ds) /\
    (forall j, ~ In j (map Webhooks.id eligible) ->
               Webhooks.getWebhook s' j = Webhooks.getWebhook s j).
Proof.
  intros P random userId_ type d now s n eligible eventId s' n'.
  subst eventId s' n'. unfold Webhooks.triggerEvent. cbn [fst snd Webhooks.webhooks].
  fold eligible.
  set (event := Webhooks.mkEvent _ now userId_ type d).
  set (s1 := Webhooks.mkService _ _ _).
  destruct (deliver_all P random event now eligible s1 (S n)) as (He & Hn & Hd & Ho).
  split; [exact He|]. split; [exact Hn|]. split; [exact Hd|].
  intros j Hj. unfold Webhooks.getWebhook. now rewrite Ho.
Qed.

(** X25.  Only the owner changes a webhook, and an update stores the
    spread of the updates over it.  [updateWebhook] and [deleteWebhook]
    called by anyone whose id is not the stored [userId] answer [null] and
    [false] and leave the webhooks as they are.  An update by the owner is
    stored under the same key and changes no other webhook; its
    [updatedAt] is the time of the update, and every other property is the
    updates' value when the updates have the property and the stored value
    otherwise: [id], [userId] and [createdAt] are kept exactly when the
    updates do not name them.  A delete by the owner succeeds. *)
Theorem webhook_changes_are_owner_only :
  forall (webhooks : list (string * JsObject.Object)) (i caller : string)
         (w updates : JsObject.Object) (now : Z),
    WebhookObjects.getWebhook webhooks i = Some w ->
    (JsObject.is_string (JsObject.read w "userId") caller = false ->
     WebhookObjects.updateWebhook webhooks i caller updates now = (None, webhooks) /\
     WebhookObjects.deleteWebhook webhooks i caller = (false, webhooks)) /\
    (JsObject.is_string (JsObject.read w "userId") caller = true ->
     exists w',
       fst (WebhookObjects.updateWebhook webhooks i caller updates now) = Some w' /\
       WebhookObjects.getWebhook
         (snd (WebhookObjects.updateWebhook webhooks i caller updates now)) i = Some w' /\
       (forall j, j <> i ->
          WebhookObjects.getWebhook
            (snd (WebhookObjects.updateWebhook webhooks i caller updates now)) j
          = WebhookObjects.getWebhook webhooks j) /\
       JsObject.read w' "updatedAt" = Some (JsObject.Date now) /\
       (forall k, k <> "updatedAt" ->
          JsObject.read w' k
          = match JsObject.read updates k with
            | Some v => Some v
            | None => JsObject.read w k
            end) /\
       fst (WebhookObjects.deleteWebhook webhooks i caller) = true).
Proof.
  intros webhooks i caller w updates now Hw. unfold WebhookObjects.getWebhook in Hw.
  unfold WebhookObjects.updateWebhook, WebhookObjects.deleteWebhook,
    WebhookObjects.getWebhook.
  rewrite Hw. split; intros Ho; rewrite Ho; cbn.
  - split; reflexivity.
  - eexists. split; [reflexivity|]. split; [apply assoc_map_set_eq|].
    split; [intros j Hj; now apply assoc_map_set_ne|].
    split; [apply read_assign_eq|]. split; [|reflexivity].
    intros k Hk. rewrite read_assign_ne by assumption. apply read_spread.
Qed.

Lemma webhook_changes_are_owner_only_witness :
  WebhookObjects.updateWebhook demo_webhook_objects "webhook_1" "mallory"
    handover_updates 900
  = (None, demo_webhook_objects) /\
  exists w',
    fst (WebhookObjects.updateWebhook demo_webhook_objects "webhook_1" "alice"
           handover_updates 900) = Some w' /\
    JsObject.read w' "updatedAt" = Some (JsObject.Date 900) /\
    JsObject.read w' "userId" = Some (JsObject.Json (Models.JStr "mallory")) /\
    JsObject.read w' "createdAt" = Some (JsObject.Date 500).
Proof.
  destruct (webhook_changes_are_owner_only demo_webhook_objects "webhook_1" "mallory"
              demo_webhook_object handover_updates 900 eq_refl) as [Hother _].
  destruct (webhook_changes_are_owner_only demo_webhook_objects "webhook_1" "alice"
              demo_webhook_object handover_updates 900 eq_refl) as [_ Hown].
  split; [apply Hother; reflexivity|].
  destruct (Hown eq_refl) as (w' & Hu & _ & _ & Hup & Hk & _).
  exists w'. split; [exact Hu|]. split; [exact Hup|]. split.
  - rewrite (Hk "userId") by discriminate. reflexivity.
  - rewrite (Hk "createdAt") by discriminate. reflexivity.
Defined.

(** ** Analytics: queries and metrics *)

Section AnalyticsFacts.
Import Models Analytics.

Lemma includes_In l s : Router.includes l s = true <-> In s l.
Proof.
  unfold Router.includes. rewrite existsb_exists. split.
  - intros (x & Hx & E). apply String.eqb_eq in E. now subst.
  - intros H. exists s. split; [assumption|apply String.eqb_refl].
Qed.

Lemma filter_if_string_In {A} x (p : string -> A -> bool) l a :
  In a (filter_if_string x p l) <->
  In a l /\ (forall v, x = Some v -> v <> "" -> p v a = true).
Proof.
  unfold filter_if_string. destruct x as [v|].
  - unfold Router.truthy_string. destruct (String.eqb_spec v "") as [->|Hne]; cbn.
    + split; [intros H; split; [assumption|]|tauto]. intros v [= <-] Hv. now contradict Hv.
    + rewrite List.filter_In. split; intros [H1 H2]; (split; [assumption|]).
      * intros v' [= <-] _. assumption.
      * now apply H2.
  - split; [intros H; split; [assumption|discriminate]|tauto].
Qed.

Lemma filter_if_In {A B} (x : option B) (p : B -> A -> bool) l a :
  In a (filter_if x p l) <-> In a l /\ (forall v, x = Some v -> p v a = true).
Proof.
  unfold filter_if. destruct x as [v|].
  - rewrite List.filter_In. split; intros [H1 H2]; (split; [assumption|]).
    + now intros v' [= <-].
    + now apply H2.
  - split; [intros H; split; [assumption|discriminate]|tauto].
Qed.

Lemma In_firstn {A} (l : list A) n x : In x (firstn n l) -> In x l.
Proof. intros H. rewrite <- (firstn_skipn n l). apply in_or_app. now left. Qed.

Lemma In_skipn {A} (l : list A) n x : In x (skipn n l) -> In x l.
Proof. intros H. rewrite <- (firstn_skipn n l). apply in_or_app. now right. Qed.

Lemma js_slice_In {A} (l : list A) a b x : In x (js_slice l a b) -> In x l.
Proof.
  unfold js_slice. intros H.
  apply (In_skipn l (Z.to_nat (slice_index (Z.of_nat (length l)) a))).
  eapply In_firstn, H.
Qed.

Lemma js_slice_length {A} (l : list A) a n :
  (0 < n)%Z -> (length (js_slice l a (a + n)) <= Z.to_nat n)%nat.
Proof.
  intros Hn. unfold js_slice. rewrite length_firstn.
  etransitivity; [apply Nat.le_min_l|].
  unfold slice_index.
  destruct (a <? 0)%Z eqn:Ea, (a + n <? 0)%Z eqn:Eb;
    rewrite ?Z.ltb_lt, ?Z.ltb_ge in *; lia.
Qed.

Lemma StronglySorted_firstn {A} (R : A -> A -> Prop) l n :
  StronglySorted R l -> StronglySorted R (firstn n l).
Proof.
  intros H. revert n. induction H as [|x l Hs IH Hall]; intros n.
  - rewrite firstn_nil. constructor.
  - destruct n as [|n]; cbn; [constructor|].
    constructor; [apply IH|].
    rewrite List.Forall_forall in *. intros y Hy. apply Hall. eapply In_firstn, Hy.
Qed.

Lemma StronglySorted_skipn {A} (R : A -> A -> Prop) l n :
  StronglySorted R l -> StronglySorted R (skipn n l).
Proof.
  intros H. revert n. induction H as [|x l Hs IH Hall]; intros n.
  - rewrite skipn_nil. constructor.
  - destruct n as [|n]; cbn; [constructor; assumption|]. apply IH.
Qed.

Lemma js_slice_sorted {A} (R : A -> A -> Prop) (l : list A) a b :
  StronglySorted R l -> StronglySorted R (js_slice l a b).
Proof. intros H. unfold js_slice. now apply StronglySorted_firstn, StronglySorted_skipn. Qed.

Lemma newest_first_sorted {A} (ts : A -> Z) (l : list A) :
  StronglySorted (fun a b => (ts b <= ts a)%Z)
                 (stable_sort (fun a b => (ts b <? ts a)%Z) l).
Proof.
  apply stable_sort_sorted.
  - intros a b H. apply Z.ltb_lt in H. lia.
  - intros a b H. apply Z.ltb_ge in H. lia.
  - intros a b c. lia.
Qed.

Variable inherited_text : string -> string.

Lemma bump_keys k u x :
  In x (map fst (bump inherited_text k u)) -> x = k \/ In x (map fst u).
Proof.
  induction u as [|[k' n] u IH]; cbn.
  - destruct (String.eqb k "__proto__"); [tauto|].
    destruct (is_prototype_name k); cbn; intros [->|[]]; now left.
  - destruct (String.eqb_spec k k') as [->|Hne]; cbn.
    + intros [->|H]; [now left|right; now right].
    + intros [->|H]; [right; now left|]. apply IH in H as [->|H]; [now left|right; now right].
Qed.

Lemma bump_NoDup k u :
  List.NoDup (map fst u) -> List.NoDup (map fst (bump inherited_text k u)).
Proof.
  induction u as [|[k' n] u IH]; cbn; intros H.
  - destruct (String.eqb k "__proto__"); [constructor|].
    destruct (is_prototype_name k); cbn; (constructor; [tauto|constructor]).
  - inversion H as [|? ? Hn Hnd]; subst.
    destruct (String.eqb_spec k k') as [->|Hne]; cbn; [assumption|].
    constructor; [|auto]. intros Hin. apply bump_keys in Hin as [->|Hin]; [congruence|].
    contradiction.
Qed.

Lemma bump_no_proto k u :
  ~ In "__proto__" (map fst u) -> ~ In "__proto__" (map fst (bump inherited_text k u)).
Proof.
  induction u as [|[k' v] u IH]; cbn.
  - intros _. destruct (String.eqb_spec k "__proto__") as [->|Hne]; [tauto|].
    destruct (is_prototype_name k); cbn; intuition congruence.
  - destruct (String.eqb k k'); cbn; tauto.
Qed.

Lemma bump_assoc_ne k j u : j <> k -> assoc j (bump inherited_text k u) = assoc j u.
Proof.
  intros Hne. induction u as [|[k' v] u IH]; cbn.
  - destruct (String.eqb k "__proto__"); [reflexivity|].
    apply String.eqb_neq in Hne.
    destruct (is_prototype_name k); cbn; now rewrite Hne.
  - destruct (String.eqb_spec k k') as [->|Hk]; cbn.
    + apply String.eqb_neq in Hne. now rewrite Hne.
    + destruct (String.eqb j k'); [reflexivity|exact IH].
Qed.

Lemma bump_assoc_eq k u c :
  is_prototype_name k = false -> (0 <= c)%Z ->
  assoc k u = usage_cell c -> assoc k (bump inherited_text k u) = usage_cell (c + 1).
Proof.
  intros Hk Hc. unfold usage_cell.
  assert (Hp : String.eqb k "__proto__" = false).
  { apply String.eqb_neq. intros ->. discriminate. }
  assert (E1 : (c + 1 =? 0)%Z = false) by (apply Z.eqb_neq; lia). rewrite E1.
  induction u as [|[k' v] u IH]; cbn.
  - rewrite Hp, Hk. cbn. rewrite String.eqb_refl.
    destruct (Z.eqb_spec c 0); [subst; reflexivity|discriminate].
  - destruct (String.eqb_spec k k') as [->|Hne]; cbn.
    + rewrite String.eqb_refl.
      destruct (Z.eqb_spec c 0); [discriminate|]. now intros [= ->].
    + apply String.eqb_neq in Hne. rewrite Hne. exact IH.
Qed.

Lemma requests_for_cons k r l :
  requests_for k (r :: l)
  = ((if String.eqb (requested (used_model (record r))) k then 1 else 0)
     + requests_for k l)%Z.
Proof.
  unfold requests_for. cbn [List.filter].
  destruct (String.eqb _ k); cbn [length]; lia.
Qed.

Lemma accumulate_fold l :
  forall m t,
    let m' := fst (fold_left (accumulate inherited_text) l (m, t)) in
    totalRequests m' = totalRequests m /\
    successfulRequests m' = successfulRequests m /\
    failedRequests m' = failedRequests m /\
    (List.NoDup (map fst (modelUsage m)) -> List.NoDup (map fst (modelUsage m'))) /\
    (forall k c, is_prototype_name k = false -> (0 <= c)%Z ->
                 assoc k (modelUsage m) = usage_cell c ->
                 assoc k (modelUsage m') = usage_cell (c + requests_for k l)) /\
    (~ In "__proto__" (map fst (modelUsage m)) ->
     ~ In "__proto__" (map fst (modelUsage m'))) /\
    (fallbacks m <= fallbacks m' <= fallbacks m + Z.of_nat (length l))%Z /\
    (cachingHits m' = cachingHits m + Z.of_nat (length (List.filter cache_hit l)))%Z.
Proof.
  induction l as [|r l IH]; intros m t m'.
  - subst m'. cbn. repeat split; try lia; try tauto.
    intros k c _ _ H. unfold requests_for. cbn. now rewrite Z.add_0_r.
  - subst m'. cbn [fold_left].
    destruct (accumulate inherited_text (m, t) r) as [m1 t1] eqn:E.
    unfold accumulate in E. injection E as E1 E2.
    destruct (IH m1 t1) as (H1 & H2 & H3 & H5 & H6 & Hp & H7 & H8).
    rewrite H1, H2, H3, H8. subst m1. cbn [totalRequests successfulRequests
      failedRequests modelUsage fallbacks cachingHits] in *.
    split; [reflexivity|]. split; [reflexivity|]. split; [reflexivity|].
    split; [intros Hnd; apply H5; now apply bump_NoDup|].
    split.
    { intros k c Hk Hc Hcell. rewrite requests_for_cons.
      destruct (String.eqb_spec (requested (used_model (record r))) k) as [Heq|Hne].
      - rewrite Z.add_assoc. apply H6; [assumption|lia|].
        rewrite Heq. now apply bump_assoc_eq.
      - rewrite Z.add_0_l. apply H6; [assumption|assumption|].
        rewrite bump_assoc_ne by congruence. exact Hcell. }
    split.
    { intros Hno. apply Hp. now apply bump_no_proto. }
    split.
    { cbn [length].
      destruct (String.eqb (requested (used_model (record r)))
                  (actual (used_model (record r)))); lia. }
    cbn [List.filter]. destruct (cache_hit r); cbn [length]; lia.
Qed.

End AnalyticsFacts.

(** X26.  What a usage query returns.  Every record returned is a stored
    record that passes each filter present in the query; the records come
    newest first; a positive limit bounds their number; without a limit
    every stored record that passes the filters is returned. *)
Theorem queryUsage_returns_the_matching_records :
  forall (usageRecords : list Analytics.UsageRecord) (query : Analytics.UsageQuery),
    let passes r :=
      (forall u, Analytics.q_userId query = Some u -> u <> "" ->
                 Analytics.userId (Analytics.record r) = u) /\
      (forall d, Analytics.q_startDate query = Some d -> (d <= Analytics.timestamp r)%Z) /\
      (forall d, Analytics.q_endDate query = Some d -> (Analytics.timestamp r <= d)%Z) /\
      (forall ms, Analytics.q_models query = Some ms -> ms <> [] ->
                  In (Analytics.requested (Analytics.used_model (Analytics.record r))) ms \/
                  In (Analytics.actual (Analytics.used_model (Analytics.record r))) ms) /\
      (forall e, Analytics.q_endpointId query = Some e -> e <> "" ->
                 Analytics.endpointId (Analytics.record r) = Some e) in
    let result := Analytics.queryUsage usageRecords query in
    (forall r, In r result -> In r usageRecords /\ passes r) /\
    StronglySorted (fun a b => (Analytics.timestamp b <= Analytics.timestamp a)%Z) result /\
    (forall n, Analytics.q_limit query = Some n -> (0 < n)%Z ->
               (length result <= Z.to_nat n)%nat) /\
    (Analytics.truthy_number (Analytics.q_limit query) = None ->
     forall r, In r usageRecords -> passes r -> In r result).
Proof.
  intros usageRecords query passes result. subst result. unfold Analytics.queryUsage.
  set (r1 := Analytics.filter_if_string _ _ usageRecords).
  set (r2 := Analytics.filter_if _ _ r1).
  set (r3 := Analytics.filter_if _ _ r2).
  set (r4 := match Analytics.q_models query with Some (m :: ms) => _ | _ => r3 end).
  set (r5 := Analytics.filter_if_string _ _ r4).
  set (sorted := stable_sort _ r5).
  assert (H5 : forall r, In r r5 <-> In r usageRecords /\ passes r).
  { intros r. subst r5 r3 r2 r1 passes. cbv beta.
    rewrite filter_if_string_In.
    assert (H4 : In r r4 <->
                 In r (Analytics.filter_if (Analytics.q_endDate query)
                         (fun d r => (Analytics.timestamp r <=? d)%Z)
                         (Analytics.filter_if (Analytics.q_startDate query)
                            (fun d r => (d <=? Analytics.timestamp r)%Z)
                            (Analytics.filter_if_string (Analytics.q_userId query)
                               (fun u r => String.eqb (Analytics.userId (Analytics.record r)) u)
                               usageRecords))) /\
                 (forall ms, Analytics.q_models query = Some ms -> ms <> [] ->
                    In (Analytics.requested (Analytics.used_model (Analytics.record r))) ms \/
                    In (Analytics.actual (Analytics.used_model (Analytics.record r))) ms)).
    { subst r4. destruct (Analytics.q_models query) as [[|m ms]|].
      - split; [intros H; split; [exact H|]|tauto]. intros ms [= <-] Hne. now contradict Hne.
      - rewrite List.filter_In. unfold Analytics.matches_models.
        rewrite orb_true_iff, !includes_In. split; intros [Hin Hm]; (split; [exact Hin|]).
        + intros ms' [= <-] _. exact Hm.
        + apply (Hm (m :: ms)); [reflexivity|discriminate].
      - split; [intros H; split; [exact H|discriminate]|tauto]. }
    rewrite H4, !filter_if_In, filter_if_string_In.
    split.
    - intros [[[[[Hin Hu] Hs] He] Hm] Hep].
      split; [exact Hin|]. split.
      { intros u E Hne. apply String.eqb_eq. now apply Hu. }
      split; [intros d E; apply Z.leb_le; now apply Hs|].
      split; [intros d E; apply Z.leb_le; now apply He|].
      split; [exact Hm|].
      intros e E Hne. specialize (Hep e E Hne). cbv beta in Hep.
      destruct (Analytics.endpointId (Analytics.record r)); [|discriminate].
      apply String.eqb_eq in Hep. now subst.
    - intros [Hin (Hu & Hs & He & Hm & Hep)].
      split; [split; [split; [split; [split; [exact Hin|]|]|]|exact Hm]|].
      + intros u E Hne. apply String.eqb_eq. now apply Hu.
      + intros d E. apply Z.leb_le. now apply Hs.
      + intros d E. apply Z.leb_le. now apply He.
      + intros e E Hne. rewrite (Hep e E Hne). apply String.eqb_refl. }
  assert (Hsorted : forall r, In r sorted <-> In r r5).
  { intros r. subst sorted. split; apply Permutation_in;
      [symmetry|]; apply stable_sort_perm. }
  assert (Hss : StronglySorted
                  (fun a b => (Analytics.timestamp b <= Analytics.timestamp a)%Z) sorted)
    by apply newest_first_sorted.
  split; [|split; [|split]].
  - intros r Hr. apply H5, Hsorted.
    destruct (Analytics.truthy_number (Analytics.q_limit query)); [|exact Hr].
    eapply js_slice_In, Hr.
  - destruct (Analytics.truthy_number (Analytics.q_limit query)); [|exact Hss].
    now apply js_slice_sorted.
  - intros n Hl Hn. rewrite Hl. unfold Analytics.truthy_number at 1.
    destruct (Z.eqb_spec n 0); [lia|]. now apply js_slice_length.
  - intros Hnone r Hin Hp. rewrite Hnone. apply Hsorted, H5. split; assumption.
Qed.

(** X27.  The aggregated metrics are consistent with the records they are
    computed from: successes and failures add up to the total, fallbacks and
    cache hits do not exceed the total, and with no record the average
    latency is 0.  The per-model table has one entry per key, and for every
    requested model that is not the name of a member inherited from
    [Object.prototype] it holds the number of records that requested it (no
    entry when there is none); [__proto__] never gets an entry. *)
Theorem getMetrics_is_consistent :
  forall (inherited_text : string -> string)
         (usageRecords : list Analytics.UsageRecord) (query : Analytics.UsageQuery),
    let records := Analytics.queryUsage usageRecords query in
    let m := Analytics.getMetrics inherited_text usageRecords query in
    Analytics.totalRequests m = length records /\
    (Analytics.successfulRequests m + Analytics.failedRequests m
     = Analytics.totalRequests m)%nat /\
    List.NoDup (map fst (Analytics.modelUsage m)) /\
    (forall k, Models.is_prototype_name k = false ->
               Models.assoc k (Analytics.modelUsage m)
               = if (requests_for k records =? 0)%Z then None
                 else Some (Analytics.Count (requests_for k records))) /\
    Models.assoc "__proto__" (Analytics.modelUsage m) = None /\
    (0 <= Analytics.fallbacks m <= Z.of_nat (Analytics.totalRequests m))%Z /\
    (0 <= Analytics.cachingHits m <= Z.of_nat (Analytics.totalRequests m))%Z /\
    (records = [] -> Analytics.averageLatency m = 0%Q).
Proof.
  intros inherited_text usageRecords query records m. subst m.
  unfold Analytics.getMetrics. fold records.
  set (start := Analytics.mkMetrics (length records) _ _ _ _ _ _ _ _).
  pose proof (accumulate_fold inherited_text records start 0%Z) as H. cbv zeta in H.
  destruct (fold_left (Analytics.accumulate inherited_text) records (start, 0%Z)) as [m t].
  cbn [fst] in H. destruct H as (H1 & H2 & H3 & H5 & H6 & Hp & H7 & H8).
  cbn [Analytics.totalRequests Analytics.successfulRequests Analytics.failedRequests
       Analytics.modelUsage Analytics.fallbacks Analytics.cachingHits
       Analytics.averageLatency].
  rewrite H1, H2, H3. cbn [start Analytics.totalRequests Analytics.successfulRequests
                            Analytics.failedRequests].
  split; [reflexivity|]. split.
  { clear. induction records as [|r l IH]; [reflexivity|].
    cbn. destruct (Analytics.success (Analytics.record r)); cbn; lia. }
  split; [apply H5; constructor|]. split.
  { intros k Hk. apply (H6 k 0%Z Hk); [lia|reflexivity]. }
  split.
  { assert (Hno : ~ In "__proto__" (map fst (Analytics.modelUsage m)))
      by (apply Hp; intros []).
    destruct (Models.assoc "__proto__" (Analytics.modelUsage m)) as [v|] eqn:E;
      [|reflexivity].
    exfalso. apply Hno. apply assoc_In in E. apply (in_map fst) in E. exact E. }
  split; [cbn in H7; lia|]. split.
  { rewrite H8. cbn.
    pose proof (List.filter_length_le Analytics.cache_hit records). lia. }
  intros ->. reflexivity.
Qed.

(** ** The chat handler and the response cache *)

Section ChatFacts.
Import Models Services ChatRoute.
Variable P : Platform.

Lemma get_keeps_options cm request options now :
  Cache.defaultOptions (snd (Cache.getCachedResponse P cm request options now))
  = Cache.defaultOptions cm.
Proof.
  unfold Cache.getCachedResponse.
  destruct (negb (Cache.on (Cache.cachingEnabled (Cache.merge (Cache.defaultOptions cm) options))));
    [reflexivity|].
  cbv zeta. destruct (Cache.cache cm !! _) as [c|]; [|reflexivity].
  destruct (now <? Cache.expiresAt c)%Z; reflexivity.
Qed.

End ChatFacts.

(** X28.  A repeated chat request is answered from the cache, for any
    caller.  When a non-streaming request misses the cache and the client
    answers, the handler replies 200 with the formatted response; the same
    request sent again by any user before the entry expires gets the same
    body without the client being consulted, and is logged as a cache hit
    with cost and latency 0. *)
Theorem chat_repeat_is_served_from_cache :
  forall (P : Models.Platform) (random : nat -> Q)
         (complete1 complete2 : ChatRoute.ClientCall -> outcome ChatRoute.Completed)
         (stream1 stream2 : ChatRoute.ClientCall -> outcome ChatRoute.Streamed)
         (request : Models.ModelRequest) (ms : list Models.ChatMessage)
         (user1 user2 : string) (s : Services.State) (done : ChatRoute.Completed) (t : Z),
    Cache.on (Cache.cachingEnabled (Cache.defaultOptions (Services.cacheManager s))) = true ->
    default false (Models.stream request) = false ->
    Models.messages request = Some ms ->
    fst (Cache.getCachedResponse P (Services.cacheManager s) request None (Services.clock s))
    = None ->
    complete1 (ChatRoute.mkCall (map ChatRoute.format_message ms) (Models.model request)
                 (Models.temperature request) (Models.max_tokens request)
                 (Models.tools request) (Models.functions request)) = Ok done ->
    (t < Services.clock s + ChatRoute.completed_elapsed done
         + Cache.ttl (Cache.defaultOptions (Services.cacheManager s)))%Z ->
    let first := ChatRoute.serve P random complete1 stream1 request user1 s in
    let later := Services.mkState (Services.cacheManager (snd first))
                   (Services.usageRecords (snd first)) (Services.draws (snd first)) t in
    let second := ChatRoute.serve P random complete2 stream2 request user2 later in
    fst first = ChatRoute.Json 200 (ChatRoute.BodyResponse (ChatRoute.formatted done)) /\
    fst second = ChatRoute.Json 200 (ChatRoute.BodyResponse (ChatRoute.formatted done)) /\
    Services.cacheManager (snd second) = Services.cacheManager (snd first) /\
    exists r,
      last (Services.usageRecords (snd second)) = Some r /\
      Analytics.userId (Analytics.record r) = user2 /\
      Analytics.cost (Analytics.record r) = Num 0 /\
      Analytics.latency (Analytics.record r) = 0%Z /\
      Analytics.cachingInfo (Analytics.record r) = Some (Analytics.mkCachingInfo true None).
Proof.
  intros P random complete1 complete2 stream1 stream2 request ms user1 user2 s done t
         Hon Hns Hms Hmiss Hdone Ht first later second.
  assert (Hfirst : first
    = (ChatRoute.Json 200 (ChatRoute.BodyResponse (ChatRoute.formatted done)),
       Services.logUsage P random
         (Analytics.mkUsageInput user1
            (Analytics.mkPair (Models.model request) (ChatRoute.completed_model done))
            (Cache.mkTokenUsage
               (Models.prompt_tokens (Models.usage (ChatRoute.formatted done)))
               (Models.completion_tokens (Models.usage (ChatRoute.formatted done)))
               (Models.total_tokens (Models.usage (ChatRoute.formatted done))))
            (Num (ChatRoute.calculateCost (ChatRoute.completed_model done)
                    (Models.usage (ChatRoute.formatted done))))
            (Services.clock s + ChatRoute.completed_elapsed done - Services.clock s)%Z true
            None None None (Some (Analytics.mkCachingInfo false None)))
         (Services.mkState
            (Cache.setCachedResponse P
               (snd (Cache.getCachedResponse P (Services.cacheManager s) request None
                       (Services.clock s)))
               request (ChatRoute.formatted done)
               (Cache.mkTokenUsage
                  (Models.prompt_tokens (Models.usage (ChatRoute.formatted done)))
                  (Models.completion_tokens (Models.usage (ChatRoute.formatted done)))
                  (Models.total_tokens (Models.usage (ChatRoute.formatted done))))
               None (Services.clock s + ChatRoute.completed_elapsed done))
            (Services.usageRecords s)
            (Services.draws s + ChatRoute.completed_draws done)
            (Services.clock s + ChatRoute.completed_elapsed done)))).
  { subst first. unfold ChatRoute.serve. rewrite Hns. cbn [negb].
    destruct (Cache.getCachedResponse P (Services.cacheManager s) request None
                (Services.clock s)) as [c cm] eqn:Eg.
    cbn [fst] in Hmiss. subst c. cbn [snd]. rewrite Hms.
    cbn [Services.with_cache Services.cacheManager Services.clock Services.usageRecords
         Services.draws].
    rewrite Hdone. reflexivity. }
  set (cm := snd (Cache.getCachedResponse P (Services.cacheManager s) request None
                    (Services.clock s))) in *.
  assert (Hopt : Cache.defaultOptions cm = Cache.defaultOptions (Services.cacheManager s))
    by apply get_keeps_options.
  set (usage_ := Cache.mkTokenUsage _ _ _) in Hfirst.
  set (endTime := (Services.clock s + ChatRoute.completed_elapsed done)%Z) in *.
  set (cm2 := Cache.setCachedResponse P cm request (ChatRoute.formatted done) usage_ None
                endTime) in *.
  assert (Hcm : Services.cacheManager (snd first) = cm2) by (rewrite Hfirst; reflexivity).
  assert (Hopt2 : Cache.defaultOptions cm2 = Cache.defaultOptions cm)
    by apply merge_after_set.
  assert (Hon' : Cache.on (Cache.cachingEnabled (Cache.merge (Cache.defaultOptions cm) None))
                 = true) by (cbn; now rewrite Hopt).
  pose proof (set_stores P cm request (ChatRoute.formatted done) usage_ None endTime Hon')
    as Hstored. fold cm2 in Hstored.
  assert (Hget : Cache.getCachedResponse P cm2 request None t
                 = (Some (Cache.mkCached (Models.model request) (ChatRoute.formatted done)
                            endTime
                            (endTime + Cache.ttl (Cache.merge (Cache.defaultOptions cm) None))
                            usage_), cm2)).
  { apply get_hit.
    - now rewrite Hopt2.
    - rewrite Hopt2. exact Hstored.
    - cbn. rewrite Hopt. subst endTime. lia. }
  split; [now rewrite Hfirst|].
  subst second. unfold ChatRoute.serve. rewrite Hns. cbn [negb].
  subst later. cbn [Services.cacheManager Services.clock]. rewrite Hcm, Hget.
  cbn [fst snd Cache.response]. split; [reflexivity|]. split; [reflexivity|].
  unfold Services.logUsage, Analytics.logUsage. cbn [Services.usageRecords Services.with_cache].
  eexists. split; [apply last_snoc|]. cbn. auto.
Qed.

Lemma chat_repeat_is_served_from_cache_witness :
  fst (ChatRoute.serve Spec.demo_platform (fun _ => 0%Q) failing_client no_stream demo_request
         "bob"
         (Services.mkState
            (Services.cacheManager
               (snd (ChatRoute.serve Spec.demo_platform (fun _ => 0%Q) demo_client no_stream
                       demo_request "alice" Services.initial)))
            (Services.usageRecords
               (snd (ChatRoute.serve Spec.demo_platform (fun _ => 0%Q) demo_client no_stream
                       demo_request "alice" Services.initial)))
            (Services.draws
               (snd (ChatRoute.serve Spec.demo_platform (fun _ => 0%Q) demo_client no_stream
                       demo_request "alice" Services.initial)))
            5000))
  = ChatRoute.Json 200 (ChatRoute.BodyResponse demo_response).
Proof.
  destruct (chat_repeat_is_served_from_cache Spec.demo_platform (fun _ => 0%Q)
              demo_client failing_client no_stream no_stream demo_request
              [Models.mkMessage Models.user (Models.CString "Hi") None]
              "alice" "bob" Services.initial demo_completed 5000)
    as (_ & H & _); [reflexivity .. | exact H].
Defined.

(** ** The AI client *)

(** X29.  The client has an SDK for two providers only.  When the router
    settles on a model of any other provider, [complete] throws
    ["Unsupported provider: ..."] naming it, whatever the SDKs would have
    answered. *)
Theorem client_rejects_other_providers :
  forall (random : nat -> Q) (Completion : Type)
         (openai_chat anthropic_messages : AiClient.SdkRequest -> outcome Completion)
         (call : ChatRoute.ClientCall) (stream_ : option bool) (n n' : nat) (m : string),
    Router.routeRequest random (AiClient.router_request call stream_) n = (Ok m, n') ->
    AiClient.provider_of m <> "openai" ->
    AiClient.provider_of m <> "anthropic" ->
    AiClient.complete random Completion openai_chat anthropic_messages call stream_ n
    = (Throw (PlainError ("Unsupported provider: " +:+ AiClient.provider_of m)), n').
Proof.
  intros random Completion openai_chat anthropic_messages call stream_ n n' m Hr Ho Ha.
  unfold AiClient.complete, Router.bind. rewrite Hr.
  unfold AiClient.getClientForModel.
  apply String.eqb_neq in Ho, Ha. rewrite Ho, Ha. reflexivity.
Qed.

Lemma client_rejects_other_providers_witness :
  AiClient.complete (fun _ => 0%Q) unit (fun _ => Ok tt) (fun _ => Ok tt) gemini_call None 0
  = (Throw (PlainError "Unsupported provider: google"), 1%nat).
Proof.
  apply (client_rejects_other_providers (fun _ => 0%Q) unit (fun _ => Ok tt) (fun _ => Ok tt)
           gemini_call None 0 1 "google/gemini-1.5-pro");
    [vm_compute; reflexivity | discriminate | discriminate].
Defined.

(** X30.  The request the client hands to the router carries text
    messages only and no response format: the router never requires vision
    or JSON mode for it, and requires function calling and tool use exactly
    when the call has a non-empty list of functions or tools. *)
Theorem client_routing_sees_no_images :
  forall (call : ChatRoute.ClientCall) (stream_ : option bool),
    exists feats,
      Router.getRequiredFeatures (AiClient.router_request call stream_) = Ok feats /\
      ~ In Models.vision feats /\ ~ In Models.json feats /\
      (In Models.functionCalling feats <->
       exists f fs, ChatRoute.call_functions call = Some (f :: fs)) /\
      (In Models.toolUse feats <->
       exists t ts, ChatRoute.call_tools call = Some (t :: ts)).
Proof.
  intros call stream_. unfold Router.getRequiredFeatures, AiClient.router_request.
  cbn [Models.messages Models.functions Models.function_call Models.tools
       Models.response_format].
  assert (Himg : existsb Router.message_has_image
                   (map (fun m : Models.Role * string =>
                           Models.mkMessage (fst m) (Models.CString (snd m)) None)
                        (ChatRoute.call_messages call)) = false).
  { induction (ChatRoute.call_messages call) as [|x l IH]; [reflexivity|exact IH]. }
  rewrite Himg. eexists. split; [reflexivity|].
  cbn [Router.truthy_function_call Router.json_requested orb app].
  rewrite orb_false_r.
  destruct (ChatRoute.call_functions call) as [[|f fs]|];
    destruct (ChatRoute.call_tools call) as [[|t ts]|]; cbn;
    repeat split; try (intros H; intuition discriminate);
    try (intros (? & ? & [=])); eauto.
Qed.
